(** * Secure messaging core: X3DH agreement and the symmetric ratchet

    A shallow embedding of the client-side cryptographic core of the
    application (crypto/utils.ts, crypto/types.ts, crypto/x3dh.ts,
    crypto/doubleRatchet.ts and the sending and receiving paths of
    services/messagingService.ts), and the properties its specification
    states about it.

    Byte buffers ([Uint8Array]) are lists of bytes, JavaScript numbers that
    count or index are [nat], identifiers and counters are [Z]: the integers
    a JavaScript number holds exactly.  Sums are exact here; in the code they
    are exact up to 2^53 and round beyond, so a statement whose conclusion
    is such a sum carries that bound.  Exceptions
    are an explicit result type.  The third-party libraries the code calls
    (CryptoJS, the noble curves, the text codecs, the keychain) are
    interfaces: type classes whose fields are the calls the code makes. *)

From Stdlib Require Import ZArith Zpow_facts List String Ascii Lia Bool.
From Stdlib.Strings Require Import Byte.
From stdpp Require Import base list strings pretty.

Import ListNotations.
Open Scope string_scope.
Open Scope list_scope.

(** ** Byte buffers *)

Definition bytes := list byte.

(** [new Uint8Array(n)]: a buffer of [n] zero bytes. *)
Definition Uint8Array_new (n : nat) : bytes := replicate n x00.

(** Storing a number into a [Uint8Array] cell keeps its low eight bits. *)
Definition toUint8 (n : nat) : byte :=
  match Byte.of_N (N.of_nat (n mod 256)) with
  | Some b => b
  | None => x00
  end.

(** ** Exceptions and results *)

Inductive Exn : Type :=
| Error (message : string)        (* throw new Error(message) *)
| RangeError (message : string)   (* typed-array bounds *)
| LibraryError (origin : string)  (* raised inside a third-party call *)
| Diverge                         (* the loop bound of the model ran out *)
| Unallocated.                    (* a reference outside the model's heap *)

Inductive Result (A : Type) : Type :=
| Ok (a : A)
| Throw (e : Exn).
Arguments Ok {A} a.
Arguments Throw {A} e.

Definition bindR {A B : Type} (r : Result A) (k : A -> Result B) : Result B :=
  match r with
  | Ok a => k a
  | Throw e => Throw e
  end.

(** A library call that raises is [None]; [fromLib] names where it came from. *)
Definition fromLib {A : Type} (origin : string) (o : option A) : Result A :=
  match o with
  | Some a => Ok a
  | None => Throw (LibraryError origin)
  end.

#[global] Instance Result_ret : MRet Result := fun A a => Ok a.
#[global] Instance Result_bind : MBind Result := fun A B k r => bindR r k.
#[global] Instance Result_fmap : FMap Result := fun A B f r =>
  match r with
  | Ok a => Ok (f a)
  | Throw e => Throw e
  end.

(** [dst.set(src, offset)]: copies [src] into [dst]; a [RangeError] when it
    does not fit. *)
Definition Uint8Array_set (dst src : bytes) (offset : nat) : Result bytes :=
  if (offset + length src <=? length dst)%nat
  then Ok (take offset dst ++ src ++ drop (offset + length src) dst)
  else Throw (RangeError "offset is out of bounds").

(** [a.slice(i, j)] for in-range or overshooting indices. *)
Definition Uint8Array_slice (a : bytes) (i j : nat) : bytes :=
  drop i (take j a).

(** ** Third-party interfaces *)

(** CryptoJS.lib.WordArray: 32-bit words and the count of significant bytes. *)
Record WordArray : Type := mkWordArray { words : list Z; sigBytes : nat }.

(** The CryptoJS calls of crypto/utils.ts.  [AES_encrypt] is
    [CryptoJS.AES.encrypt(text, key, {iv, CBC, Pkcs7}).toString()] and
    [AES_decrypt] is [CryptoJS.AES.decrypt(text, key, {iv, CBC, Pkcs7})
    .toString(CryptoJS.enc.Utf8)], which raises on malformed UTF-8.  The two
    laws are the library's contract: a SHA-256 digest has eight words, and
    decryption undoes encryption under the same key and IV. *)
Class CryptoJS : Type := {
  WordArray_create : bytes -> WordArray;
  HmacSHA256 : WordArray -> WordArray -> WordArray;
  AES_encrypt : string -> WordArray -> WordArray -> string;
  AES_decrypt : string -> WordArray -> WordArray -> option string;
  Base64_stringify : WordArray -> string;
  Base64_parse : string -> WordArray;
  HmacSHA256_words : forall m k, length (words (HmacSHA256 m k)) = 8%nat;
  AES_decrypt_encrypt :
    forall p k iv, AES_decrypt (AES_encrypt p k iv) k iv = Some p
}.

(** The @noble/curves calls of crypto/x3dh.ts.  Each raises on input it
    rejects (a key of the wrong length, a low-order point). *)
Class NobleCurves : Type := {
  x25519_getPublicKey : bytes -> option bytes;
  x25519_getSharedSecret : bytes -> bytes -> option bytes;
  ed25519_getPublicKey : bytes -> option bytes;
  ed25519_sign : bytes -> bytes -> option bytes;
  ed25519_verify : bytes -> bytes -> bytes -> option bool
}.

(** [new TextEncoder().encode] and [new TextDecoder().decode] on well-formed
    text. *)
Class TextCodec : Type := {
  TextEncoder_encode : string -> bytes;
  TextDecoder_decode : bytes -> string;
  TextDecoder_decode_encode :
    forall s, TextDecoder_decode (TextEncoder_encode s) = s
}.

(** ** crypto/utils.ts *)

Section Utils.
Context `{CryptoJS}.

(** The source of [crypto.getRandomValues]: an unbounded tape of bytes. *)
Definition Entropy := nat -> byte.

Definition generateRandomBytes (length : nat) (e : Entropy) : bytes * Entropy :=
  (map e (seq 0 length), fun i => e (length + i)%nat).

Definition aes256Encrypt (plaintext : string) (key iv : bytes) : string :=
  let keyWords := WordArray_create key in
  let ivWords := WordArray_create iv in
  AES_encrypt plaintext keyWords ivWords.

Definition aes256Decrypt (ciphertext : string) (key iv : bytes) : Result string :=
  let keyWords := WordArray_create key in
  let ivWords := WordArray_create iv in
  fromLib "CryptoJS.AES.decrypt" (AES_decrypt ciphertext keyWords ivWords).

(** The digest [hmac] is computed and then only its word count is used. *)
Definition hmacSha256 (message key : bytes) : bytes :=
  let messageWords := WordArray_create message in
  let keyWords := WordArray_create key in
  let hmac := HmacSHA256 messageWords keyWords in
  Uint8Array_new (length (words hmac) * 4).

(** The expand loop of [hkdf], one unit of [fuel] per iteration. *)
Fixpoint hkdf_expand (fuel : nat) (prk info : bytes) (len : nat)
    (output t : bytes) (offset counter : nat) : Result bytes :=
  if (offset <? len)%nat then
    match fuel with
    | O => Throw Diverge
    | S fuel' =>
        let data := Uint8Array_new (length t + length info + 1) in
        data ← Uint8Array_set data t 0;
        data ← Uint8Array_set data info (length t);
        let data := <[(length data - 1)%nat := toUint8 counter]> data in
        let t := hmacSha256 data prk in
        let remaining := (len - offset)%nat in
        let toCopy := length t `min` remaining in
        output ← Uint8Array_set output (Uint8Array_slice t 0 toCopy) offset;
        hkdf_expand fuel' prk info len output t (offset + toCopy) (counter + 1)
    end
  else Ok output.

(** Every iteration with a non-empty block copies at least one byte, so
    [len] iterations are enough. *)
Definition hkdf (inputKeyMaterial salt info : bytes) (len : nat) : Result bytes :=
  let prk := hmacSha256 inputKeyMaterial salt in
  let output := Uint8Array_new len in
  let t := Uint8Array_new 0 in
  hkdf_expand len prk info len output t 0 1.

(** Big-endian bytes of a 32-bit word, as the shifts and masks compute
    them. *)
Definition wordBytes (word : Z) : bytes :=
  map (fun sh => toUint8 (Z.to_nat (Z.land (Z.shiftr (word mod 2 ^ 32) sh) 255)))
      [24; 16; 8; 0]%Z.

Definition uint8ArrayToBase64 (b : bytes) : string :=
  let wordArray := WordArray_create b in
  Base64_stringify wordArray.

Definition base64ToUint8Array (base64 : string) : bytes :=
  let wordArray := Base64_parse base64 in
  let b := flat_map wordBytes (words wordArray) in
  Uint8Array_slice b 0 (sigBytes wordArray).

End Utils.

(** ** crypto/utils.ts: comparison, digest and the Base64 helpers *)

(** The number a byte holds. *)
Definition byteZ (b : byte) : Z := Z.of_N (Byte.to_N b).

(** [a[i]] as a number; reading past the end gives [undefined], which the
    bit operators take for 0. *)
Definition byteAt (a : bytes) (i : nat) : Z :=
  match a !! i with
  | Some x => byteZ x
  | None => 0%Z
  end.

Definition constantTimeCompare (a b : bytes) : bool :=
  if negb (length a =? length b)%nat then false
  else
    let result :=
      fold_left (fun result i => Z.lor result (Z.lxor (byteAt a i) (byteAt b i)))
                (seq 0 (length a)) 0%Z in
    (result =? 0)%Z.

Class CryptoJSHash : Type := {
  SHA256 : WordArray -> WordArray;
  SHA256_words : forall m, length (words (SHA256 m)) = 8%nat
}.

Section Hash.
Context `{CryptoJS} `{CryptoJSHash}.

(** [(word >>> shift) & 0xff], stored into a [Uint8Array]. *)
Definition wordByte (word : Z) (shift : Z) : byte :=
  toUint8 (Z.to_nat (Z.land (Z.shiftr (word mod 2 ^ 32) shift) 255)).

Definition sha256 (data : bytes) : bytes :=
  let dataWords := WordArray_create data in
  let hash := SHA256 dataWords in
  let result := Uint8Array_new 32 in
  fold_left (fun result i =>
      let word := nth i (words hash) 0%Z in
      let result := <[i * 4 := wordByte word 24]> result in
      let result := <[i * 4 + 1 := wordByte word 16]> result in
      let result := <[i * 4 + 2 := wordByte word 8]> result in
      <[i * 4 + 3 := wordByte word 0]> result)
    (seq 0 8) result.

End Hash.

(** The words [CryptoJS.lib.WordArray.create] makes of a typed array: four
    bytes to a word, the first byte the most significant, the last word
    padded with zero bits. *)
Fixpoint bigEndianWords (b : bytes) : list Z :=
  match b with
  | [] => []
  | [b0] => [byteZ b0 * 2 ^ 24]%Z
  | [b0; b1] => [byteZ b0 * 2 ^ 24 + byteZ b1 * 2 ^ 16]%Z
  | [b0; b1; b2] => [byteZ b0 * 2 ^ 24 + byteZ b1 * 2 ^ 16 + byteZ b2 * 2 ^ 8]%Z
  | b0 :: b1 :: b2 :: b3 :: rest =>
      (byteZ b0 * 2 ^ 24 + byteZ b1 * 2 ^ 16 + byteZ b2 * 2 ^ 8 + byteZ b3)%Z
        :: bigEndianWords rest
  end.

(** The contract of the CryptoJS encoders that the Base64 helpers rely on:
    [WordArray.create] on a typed array keeps the byte count and packs the
    bytes as [bigEndianWords] (each word up to its 32-bit pattern), and
    [enc.Base64.parse] undoes [enc.Base64.stringify] on such a word array. *)
Class Base64Codec `{CryptoJS} : Prop := {
  WordArray_create_sigBytes : forall b, sigBytes (WordArray_create b) = length b;
  WordArray_create_words :
    forall b, map (fun w => w mod 2 ^ 32)%Z (words (WordArray_create b)) = bigEndianWords b;
  Base64_parse_stringify :
    forall b, Base64_parse (Base64_stringify (WordArray_create b)) = WordArray_create b
}.

(** ** The ambient effects: randomness, clock, and a state-and-exception monad *)

(** A computation over a state [S] that returns or raises; the state survives
    an exception. *)
Definition SE (S A : Type) : Type := S -> Result A * S.

#[global] Instance SE_ret {S} : MRet (SE S) := fun A a s => (Ok a, s).
#[global] Instance SE_bind {S} : MBind (SE S) := fun A B k m s =>
  match m s with
  | (Ok a, s') => k a s'
  | (Throw e, s') => (Throw e, s')
  end.

Definition liftR {S A} (r : Result A) : SE S A := fun s => (r, s).
Definition throw {S A} (e : Exn) : SE S A := fun s => (Throw e, s).

(** What a device reads from outside the program: the random tape, the
    clock of [Date.now()], and the successive values of
    [Math.random().toString(36)]. *)
Record Env : Type := mkEnv {
  entropy : Entropy;
  clock : Z;
  mathRandom : nat -> string
}.

Definition randomBytes (length : nat) : SE Env bytes := fun env =>
  let '(b, e') := generateRandomBytes length (entropy env) in
  (Ok b, mkEnv e' (clock env) (mathRandom env)).

Definition Date_now : SE Env Z := fun env => (Ok (clock env), env).

Definition Math_random_toString36 : SE Env string := fun env =>
  (Ok (mathRandom env 0%nat),
   mkEnv (entropy env) (clock env) (fun i => mathRandom env (S i))).

(** ** crypto/types.ts *)

Module KeyPair.
Record t : Type := mk { publicKey : bytes; privateKey : bytes }.
End KeyPair.

(** [IdentityKeyPair extends KeyPair] with no further field. *)
Definition IdentityKeyPair : Type := KeyPair.t.

Module SignedPreKey.
Record t : Type := mk {
  keyId : Z;
  keyPair : KeyPair.t;
  signature : bytes;
  timestamp : Z
}.
End SignedPreKey.

Module PreKey.
Record t : Type := mk { keyId : Z; keyPair : KeyPair.t }.
End PreKey.

Module SessionState.
Record t : Type := mk {
  sessionId : string;
  remoteIdentityKey : bytes;
  rootKey : bytes;
  chainKey : bytes;
  sendingChainKey : option bytes;
  receivingChainKey : option bytes;
  messageNumber : Z;
  previousCounter : Z
}.
End SessionState.

Module PreKeyBundle.
Record t : Type := mk {
  identityKey : bytes;
  signedPreKey : bytes;
  signedPreKeyId : Z;
  signedPreKeySignature : bytes;
  preKey : option bytes;
  preKeyId : option Z;
  registrationId : Z
}.
End PreKeyBundle.

Module MessageKeys.
Record t : Type := mk { cipherKey : bytes; macKey : bytes; iv : bytes }.
End MessageKeys.

Module EncryptedMessage.
Inductive kind : Type := prekey | message.
Record t : Type := mk {
  type : kind;
  registrationId : Z;
  messageVersion : Z;
  ciphertext : bytes;
  preKeyId : option Z;
  signedPreKeyId : option Z;
  baseKey : option bytes;
  identityKey : option bytes
}.
End EncryptedMessage.

(** The bundle [b] with another signature in place of its own. *)
Definition withSignature (b : PreKeyBundle.t) (signature : bytes) : PreKeyBundle.t :=
  {| PreKeyBundle.identityKey := PreKeyBundle.identityKey b;
     PreKeyBundle.signedPreKey := PreKeyBundle.signedPreKey b;
     PreKeyBundle.signedPreKeyId := PreKeyBundle.signedPreKeyId b;
     PreKeyBundle.signedPreKeySignature := signature;
     PreKeyBundle.preKey := PreKeyBundle.preKey b;
     PreKeyBundle.preKeyId := PreKeyBundle.preKeyId b;
     PreKeyBundle.registrationId := PreKeyBundle.registrationId b |}.

(** ** crypto/x3dh.ts *)

(** The object [{sharedSecret, ephemeralKey}] that [x3dhInitiator] returns. *)
Record X3DHOutput : Type := mkX3DHOutput {
  sharedSecret : bytes;
  ephemeralKey : bytes
}.

Section X3DH.
Context `{CryptoJS} `{NobleCurves} `{TextCodec}.

Definition getSharedSecret (priv pub : bytes) : Result bytes :=
  fromLib "x25519.getSharedSecret" (x25519_getSharedSecret priv pub).

Definition generateIdentityKeyPair : SE Env IdentityKeyPair :=
  privateKey ← randomBytes 32;
  publicKey ← liftR (fromLib "ed25519.getPublicKey" (ed25519_getPublicKey privateKey));
  mret (KeyPair.mk publicKey privateKey).

Definition generateSignedPreKey (identityKeyPair : IdentityKeyPair) (keyId : Z)
    : SE Env SignedPreKey.t :=
  privateKey ← randomBytes 32;
  publicKey ← liftR (fromLib "x25519.getPublicKey" (x25519_getPublicKey privateKey));
  signature ← liftR (fromLib "ed25519.sign"
                 (ed25519_sign publicKey (KeyPair.privateKey identityKeyPair)));
  timestamp ← Date_now;
  mret (SignedPreKey.mk keyId (KeyPair.mk publicKey privateKey) signature timestamp).

(** The loop [for (i = 0; i < count; i++)], from [i] for [n] more rounds. *)
Fixpoint generatePreKeys_from (startId : Z) (i : nat) (n : nat) (preKeys : list PreKey.t)
    : SE Env (list PreKey.t) :=
  match n with
  | O => mret preKeys
  | S n' =>
      privateKey ← randomBytes 32;
      publicKey ← liftR (fromLib "x25519.getPublicKey" (x25519_getPublicKey privateKey));
      generatePreKeys_from startId (S i) n'
        (preKeys ++ [PreKey.mk (startId + Z.of_nat i) (KeyPair.mk publicKey privateKey)])
  end.

Definition generatePreKeys (startId : Z) (count : nat) : SE Env (list PreKey.t) :=
  generatePreKeys_from startId 0 count [].

(** The label [new TextEncoder().encode('SecurePoliceMessaging_X3DH')]. *)
Definition X3DH_INFO : bytes := TextEncoder_encode "SecurePoliceMessaging_X3DH".

(** [dh1 || dh2 || dh3], built as the code builds it: a zeroed buffer and
    three [set] calls at running offsets. *)
Definition concat3 (dh1 dh2 dh3 : bytes) : Result bytes :=
  let dhOutputs := Uint8Array_new (length dh1 + length dh2 + length dh3) in
  let offset := 0%nat in
  dhOutputs ← Uint8Array_set dhOutputs dh1 offset;
  let offset := (offset + length dh1)%nat in
  dhOutputs ← Uint8Array_set dhOutputs dh2 offset;
  let offset := (offset + length dh2)%nat in
  Uint8Array_set dhOutputs dh3 offset.

(** Appending [dh4] through a fresh, longer buffer. *)
Definition appendDh4 (dhOutputs dh4 : bytes) : Result bytes :=
  let newOutputs := Uint8Array_new (length dhOutputs + length dh4) in
  newOutputs ← Uint8Array_set newOutputs dhOutputs 0;
  Uint8Array_set newOutputs dh4 (length dhOutputs).

Definition x3dhInitiator (identityKeyPair : IdentityKeyPair)
    (remotePreKeyBundle : PreKeyBundle.t) : SE Env X3DHOutput :=
  ephemeralPrivate ← randomBytes 32;
  ephemeralPublic ← liftR (fromLib "x25519.getPublicKey"
                       (x25519_getPublicKey ephemeralPrivate));
  dh1 ← liftR (getSharedSecret
           (Uint8Array_slice (KeyPair.privateKey identityKeyPair) 0 32)
           (PreKeyBundle.signedPreKey remotePreKeyBundle));
  dh2 ← liftR (getSharedSecret ephemeralPrivate
           (PreKeyBundle.identityKey remotePreKeyBundle));
  dh3 ← liftR (getSharedSecret ephemeralPrivate
           (PreKeyBundle.signedPreKey remotePreKeyBundle));
  dhOutputs ← liftR (concat3 dh1 dh2 dh3);
  dhOutputs ← liftR
    match PreKeyBundle.preKey remotePreKeyBundle with
    | Some preKey =>
        dh4 ← getSharedSecret ephemeralPrivate preKey;
        appendDh4 dhOutputs dh4
    | None => Ok dhOutputs
    end;
  let salt := Uint8Array_new 32 in
  let info := X3DH_INFO in
  sharedSecret ← liftR (hkdf dhOutputs salt info 32);
  mret (mkX3DHOutput sharedSecret ephemeralPublic).

Definition x3dhResponder (identityKeyPair : IdentityKeyPair)
    (signedPreKey : SignedPreKey.t) (oneTimePreKey : option PreKey.t)
    (remoteIdentityKey remoteEphemeralKey : bytes) : Result bytes :=
  dh1 ← getSharedSecret
          (KeyPair.privateKey (SignedPreKey.keyPair signedPreKey))
          (Uint8Array_slice remoteIdentityKey 0 32);
  dh2 ← getSharedSecret
          (Uint8Array_slice (KeyPair.privateKey identityKeyPair) 0 32)
          remoteEphemeralKey;
  dh3 ← getSharedSecret
          (KeyPair.privateKey (SignedPreKey.keyPair signedPreKey))
          remoteEphemeralKey;
  dhOutputs ← concat3 dh1 dh2 dh3;
  dhOutputs ←
    match oneTimePreKey with
    | Some oneTimePreKey =>
        dh4 ← getSharedSecret
                (KeyPair.privateKey (PreKey.keyPair oneTimePreKey))
                remoteEphemeralKey;
        appendDh4 dhOutputs dh4
    | None => Ok dhOutputs
    end;
  let salt := Uint8Array_new 32 in
  let info := X3DH_INFO in
  hkdf dhOutputs salt info 32.

(** The Diffie-Hellman calls of [x3dhResponder] all accept their keys (none
    raises). *)
Definition responderAgreementsDefined (identityKeyPair : IdentityKeyPair)
    (signedPreKey : SignedPreKey.t) (oneTimePreKey : option PreKey.t)
    (remoteIdentityKey remoteEphemeralKey : bytes) : bool :=
  bool_decide (is_Some (x25519_getSharedSecret
                 (KeyPair.privateKey (SignedPreKey.keyPair signedPreKey))
                 (Uint8Array_slice remoteIdentityKey 0 32)))
  && bool_decide (is_Some (x25519_getSharedSecret
                 (Uint8Array_slice (KeyPair.privateKey identityKeyPair) 0 32)
                 remoteEphemeralKey))
  && bool_decide (is_Some (x25519_getSharedSecret
                 (KeyPair.privateKey (SignedPreKey.keyPair signedPreKey))
                 remoteEphemeralKey))
  && match oneTimePreKey with
     | Some oneTimePreKey =>
         bool_decide (is_Some (x25519_getSharedSecret
                 (KeyPair.privateKey (PreKey.keyPair oneTimePreKey))
                 remoteEphemeralKey))
     | None => true
     end.

(** Likewise for [x3dhInitiator] with the ephemeral private key it drew. *)
Definition initiatorAgreementsDefined (identityKeyPair : IdentityKeyPair)
    (remotePreKeyBundle : PreKeyBundle.t) (ephemeralPrivate : bytes) : bool :=
  bool_decide (is_Some (x25519_getSharedSecret
                 (Uint8Array_slice (KeyPair.privateKey identityKeyPair) 0 32)
                 (PreKeyBundle.signedPreKey remotePreKeyBundle)))
  && bool_decide (is_Some (x25519_getSharedSecret ephemeralPrivate
                 (PreKeyBundle.identityKey remotePreKeyBundle)))
  && bool_decide (is_Some (x25519_getSharedSecret ephemeralPrivate
                 (PreKeyBundle.signedPreKey remotePreKeyBundle)))
  && match PreKeyBundle.preKey remotePreKeyBundle with
     | Some preKey =>
         bool_decide (is_Some (x25519_getSharedSecret ephemeralPrivate preKey))
     | None => true
     end.

(** [try { return ed25519.verify(...) } catch { return false }]. *)
Definition verifySignedPreKey (publicKey signature identityKey : bytes) : bool :=
  match ed25519_verify signature publicKey identityKey with
  | Some b => b
  | None => false
  end.

End X3DH.

(** The contract of Ed25519 that the signed pre-key relies on: a signature
    made with a private key verifies under the public key of that private
    key. *)
Class Ed25519Contract `{NobleCurves} : Prop := {
  ed25519_verify_sign :
    forall privateKey publicKey message signature,
      ed25519_getPublicKey privateKey = Some publicKey ->
      ed25519_sign message privateKey = Some signature ->
      ed25519_verify signature message publicKey = Some true
}.

(** ** crypto/doubleRatchet.ts *)

(** The object [{newChainKey, messageKey}] of one symmetric ratchet step. *)
Record ChainStep : Type := mkChainStep {
  newChainKey : bytes;
  messageKey : bytes
}.

Section DoubleRatchet.
Context `{CryptoJS} `{TextCodec}.

Definition MESSAGE_KEY_SEED : bytes := TextEncoder_encode "MessageKeys".
Definition CHAIN_KEY_SEED : bytes := TextEncoder_encode "ChainKey".
Definition ROOT_KEY_SEED : bytes := TextEncoder_encode "RootKey".

Definition initializeSession (sharedSecret remoteIdentityKey : bytes)
    (isInitiator : bool) : SE Env SessionState.t :=
  let salt := Uint8Array_new 32 in
  rootKey ← liftR (hkdf sharedSecret salt ROOT_KEY_SEED 32);
  chainKey ← liftR (hkdf sharedSecret salt CHAIN_KEY_SEED 32);
  now ← Date_now;
  rnd ← Math_random_toString36;
  let sessionId := "session_" +:+ pretty now +:+ "_" +:+ rnd in
  mret {| SessionState.sessionId := sessionId;
          SessionState.remoteIdentityKey := remoteIdentityKey;
          SessionState.rootKey := rootKey;
          SessionState.chainKey := chainKey;
          SessionState.sendingChainKey := if isInitiator then Some chainKey else None;
          SessionState.receivingChainKey := if isInitiator then None else Some chainKey;
          SessionState.messageNumber := 0;
          SessionState.previousCounter := 0 |}.

Definition ratchetChainKey (chainKey : bytes) : ChainStep :=
  let chainInput := [x02] in
  let newChainKey := hmacSha256 chainInput chainKey in
  let messageInput := [x01] in
  let messageKey := hmacSha256 messageInput chainKey in
  mkChainStep newChainKey messageKey.

Definition deriveMessageKeys (messageKey : bytes) : Result MessageKeys.t :=
  let salt := Uint8Array_new 32 in
  let info := MESSAGE_KEY_SEED in
  keyMaterial ← hkdf messageKey salt info 80;
  mret {| MessageKeys.cipherKey := Uint8Array_slice keyMaterial 0 32;
          MessageKeys.macKey := Uint8Array_slice keyMaterial 32 64;
          MessageKeys.iv := Uint8Array_slice keyMaterial 64 80 |}.

(** The closing [fill(0)] calls overwrite buffers that only this call
    holds ([slice] copies); they change no value returned here.  Module
    [Mem] below models them on a heap. *)
Definition ratchetEncrypt (session : SessionState.t) (plaintext : string)
    : Result (EncryptedMessage.t * SessionState.t) :=
  match SessionState.sendingChainKey session with
  | None => Throw (Error "No sending chain key available")
  | Some sendingChainKey =>
      let step := ratchetChainKey sendingChainKey in
      messageKeys ← deriveMessageKeys (messageKey step);
      let ciphertext :=
        aes256Encrypt plaintext (MessageKeys.cipherKey messageKeys)
                      (MessageKeys.iv messageKeys) in
      let encrypted :=
        {| EncryptedMessage.type := EncryptedMessage.message;
           EncryptedMessage.registrationId := 0;
           EncryptedMessage.messageVersion := 1;
           EncryptedMessage.ciphertext := TextEncoder_encode ciphertext;
           EncryptedMessage.preKeyId := None;
           EncryptedMessage.signedPreKeyId := None;
           EncryptedMessage.baseKey := None;
           EncryptedMessage.identityKey := None |} in
      let newSession :=
        {| SessionState.sessionId := SessionState.sessionId session;
           SessionState.remoteIdentityKey := SessionState.remoteIdentityKey session;
           SessionState.rootKey := SessionState.rootKey session;
           SessionState.chainKey := SessionState.chainKey session;
           SessionState.sendingChainKey := Some (newChainKey step);
           SessionState.receivingChainKey := SessionState.receivingChainKey session;
           SessionState.messageNumber := SessionState.messageNumber session + 1;
           SessionState.previousCounter := SessionState.previousCounter session |} in
      mret (encrypted, newSession)
  end.

Definition ratchetDecrypt (session : SessionState.t) (encrypted : EncryptedMessage.t)
    : Result (string * SessionState.t) :=
  match SessionState.receivingChainKey session with
  | None => Throw (Error "No receiving chain key available")
  | Some receivingChainKey =>
      let step := ratchetChainKey receivingChainKey in
      messageKeys ← deriveMessageKeys (messageKey step);
      let ciphertextStr := TextDecoder_decode (EncryptedMessage.ciphertext encrypted) in
      plaintext ← aes256Decrypt ciphertextStr (MessageKeys.cipherKey messageKeys)
                    (MessageKeys.iv messageKeys);
      let newSession :=
        {| SessionState.sessionId := SessionState.sessionId session;
           SessionState.remoteIdentityKey := SessionState.remoteIdentityKey session;
           SessionState.rootKey := SessionState.rootKey session;
           SessionState.chainKey := SessionState.chainKey session;
           SessionState.sendingChainKey := SessionState.sendingChainKey session;
           SessionState.receivingChainKey := Some (newChainKey step);
           SessionState.messageNumber := SessionState.messageNumber session + 1;
           SessionState.previousCounter := SessionState.messageNumber session |} in
      mret (plaintext, newSession)
  end.



End DoubleRatchet.

(** The object [{newRootKey, newChainKey}] of a Diffie-Hellman ratchet step. *)
Module RootStep.
Record t : Type := mk { newRootKey : bytes; newChainKey : bytes }.
End RootStep.

Section DoubleRatchetMore.
Context `{CryptoJS} `{TextCodec}.

(** The parameter [rootKey] is not used by the body. *)
Definition dhRatchet (rootKey dhOutput : bytes) : Result RootStep.t :=
  let salt := Uint8Array_new 32 in
  let info := ROOT_KEY_SEED in
  keyMaterial ← hkdf dhOutput salt info 64;
  mret {| RootStep.newRootKey := Uint8Array_slice keyMaterial 0 32;
          RootStep.newChainKey := Uint8Array_slice keyMaterial 32 64 |}.


End DoubleRatchetMore.

(** ** services/keyStorage.ts, as the interface the messaging service calls

    The store is the platform keychain; the service reads and writes it only
    through these calls. *)
Class KeyStorage : Type := {
  Keychain : Type;
  getSession : string -> Keychain -> option SessionState.t;
  storeSession : string -> SessionState.t -> Keychain -> Keychain;
  getIdentityKeyPair : Keychain -> option IdentityKeyPair;
  getSignedPreKey : Keychain -> option SignedPreKey.t
}.

(** ** services/messagingService.ts *)

Inductive MessageType : Type := text | image | file | audio.

(** [response.data] of [GET /keys/:userId], its keys in Base64. *)
Module KeysResponse.
Record signedPreKeyData : Type := mkSigned {
  publicKey : string;
  keyId : Z;
  signature : string
}.
Record preKeyData : Type := mkPreKey { preKeyPublic : string; preKeyKeyId : Z }.
Record t : Type := mk {
  identityKey : string;
  signedPreKey : signedPreKeyData;
  preKey : option preKeyData;
  registrationId : Z
}.
End KeysResponse.

(** The body of [POST /messages]: all that leaves the device for a message. *)
Module Payload.
Record t : Type := mk {
  toUserId : string;
  type : MessageType;
  encryptedContent : string;
  messageType : EncryptedMessage.kind;
  registrationId : Z;
  timestamp : Z
}.
End Payload.

Module SendResponse.
Record t : Type := mk { messageId : string; fromUserId : string }.
End SendResponse.

Module Message.
Record t : Type := mk {
  id : string;
  fromUserId : string;
  toUserId : string;
  content : string;
  type : MessageType;
  timestamp : Z
}.
End Message.

Section MessagingService.
Context `{CryptoJS} `{NobleCurves} `{TextCodec} `{KeyStorage}.

(** The device and what it talks to: the ambient effects, the keychain, the
    key directory and relay of the server ([None]: the request fails), and
    the log of message bodies posted so far. *)
Record World : Type := mkWorld {
  env : Env;
  keychain : Keychain;
  keyDirectory : string -> option KeysResponse.t;
  relay : Payload.t -> option SendResponse.t;
  posted : list Payload.t
}.

Definition liftEnv {A} (m : SE Env A) : SE World A := fun w =>
  let '(r, e') := m (env w) in
  (r, mkWorld e' (keychain w) (keyDirectory w) (relay w) (posted w)).

Definition readKeychain {A} (f : Keychain -> A) : SE World A := fun w =>
  (Ok (f (keychain w)), w).

Definition writeKeychain (f : Keychain -> Keychain) : SE World unit := fun w =>
  (Ok tt, mkWorld (env w) (f (keychain w)) (keyDirectory w) (relay w) (posted w)).

Definition api_get_keys (toUserId : string) : SE World KeysResponse.t := fun w =>
  (fromLib "axios.get" (keyDirectory w toUserId), w).

Definition api_post_messages (payload : Payload.t) : SE World SendResponse.t := fun w =>
  (fromLib "axios.post" (relay w payload),
   mkWorld (env w) (keychain w) (keyDirectory w) (relay w) (posted w ++ [payload])).

(** The bundle as [establishSession] decodes it from the response. *)
Definition decodeBundle (data : KeysResponse.t) : PreKeyBundle.t :=
  {| PreKeyBundle.identityKey := base64ToUint8Array (KeysResponse.identityKey data);
     PreKeyBundle.signedPreKey :=
       base64ToUint8Array (KeysResponse.publicKey (KeysResponse.signedPreKey data));
     PreKeyBundle.signedPreKeyId := KeysResponse.keyId (KeysResponse.signedPreKey data);
     PreKeyBundle.signedPreKeySignature :=
       base64ToUint8Array (KeysResponse.signature (KeysResponse.signedPreKey data));
     PreKeyBundle.preKey :=
       match KeysResponse.preKey data with
       | Some pk => Some (base64ToUint8Array (KeysResponse.preKeyPublic pk))
       | None => None
       end;
     PreKeyBundle.preKeyId :=
       match KeysResponse.preKey data with
       | Some pk => Some (KeysResponse.preKeyKeyId pk)
       | None => None
       end;
     PreKeyBundle.registrationId := KeysResponse.registrationId data |}.

(** The [catch] clause logs and rethrows, so it is the identity here. *)
Definition establishSession (toUserId : string) : SE World SessionState.t :=
  data ← api_get_keys toUserId;
  let bundle := decodeBundle data in
  let isValid :=
    verifySignedPreKey (PreKeyBundle.signedPreKey bundle)
      (PreKeyBundle.signedPreKeySignature bundle) (PreKeyBundle.identityKey bundle) in
  if negb isValid then throw (Error "Invalid signed pre-key signature") else
  identityKeyPair ← readKeychain getIdentityKeyPair;
  match identityKeyPair with
  | None => throw (Error "No identity key pair found")
  | Some identityKeyPair =>
      x3dh ← liftEnv (x3dhInitiator identityKeyPair bundle);
      session ← liftEnv (initializeSession (sharedSecret x3dh)
                           (PreKeyBundle.identityKey bundle) true);
      _ ← writeKeychain (storeSession toUserId session);
      mret session
  end.

Definition sendMessage (toUserId content : string) (type : MessageType)
    : SE World Message.t :=
  session ← readKeychain (getSession toUserId);
  session ← match session with
            | Some session => mret session
            | None => establishSession toUserId
            end;
  '(encrypted, newSession) ← liftR (ratchetEncrypt session content);
  _ ← writeKeychain (storeSession toUserId newSession);
  now ← liftEnv Date_now;
  let payload :=
    {| Payload.toUserId := toUserId;
       Payload.type := type;
       Payload.encryptedContent :=
         uint8ArrayToBase64 (EncryptedMessage.ciphertext encrypted);
       Payload.messageType := EncryptedMessage.type encrypted;
       Payload.registrationId := EncryptedMessage.registrationId encrypted;
       Payload.timestamp := now |} in
  response ← api_post_messages payload;
  mret {| Message.id := SendResponse.messageId response;
          Message.fromUserId := SendResponse.fromUserId response;
          Message.toUserId := toUserId;
          Message.content := content;
          Message.type := type;
          Message.timestamp := Payload.timestamp payload |}.

End MessagingService.

(** ** services/messagingService.ts: receiving *)

(** [try { m } catch (error) { handler(error) }]. *)
Definition try_catch {S A} (m : SE S A) (handler : Exn -> SE S A) : SE S A := fun s =>
  match m s with
  | (Ok a, s') => (Ok a, s')
  | (Throw e, s') => handler e s'
  end.

(** The fields [decryptIncomingMessage] reads from the message the server
    delivers; the argument is untyped, and a field may be absent. *)
Module Incoming.
Record t : Type := mk {
  id : string;
  fromUserId : string;
  toUserId : option string;
  encryptedContent : string;
  messageType : EncryptedMessage.kind;
  registrationId : Z;
  type : option MessageType;
  timestamp : Z;
  senderName : string;
  senderRank : option string;
  remoteIdentityKey : option string;
  ephemeralKey : option string
}.
End Incoming.

Module ChatMessage.
Record t : Type := mk {
  id : string;
  fromUserId : string;
  toUserId : option string;
  content : string;
  type : MessageType;
  timestamp : Z;
  senderName : string;
  senderRank : option string;
  isOwn : bool;
  delivered : bool
}.
End ChatMessage.

(** The body of [POST /receipts]. *)
Module Receipt.
Inductive kind : Type := delivered | read.
Record t : Type := mk { messageId : string; type : kind; timestamp : Z }.
End Receipt.

Section MessagingReceive.
Context `{CryptoJS} `{NobleCurves} `{TextCodec} `{KeyStorage}.

(** [base64ToUint8Array] on a field of the untyped message: on an absent
    field [CryptoJS.enc.Base64.parse] reads [undefined.length] and raises. *)
Definition base64Field (field : option string) : Result bytes :=
  match field with
  | Some base64 => Ok (base64ToUint8Array base64)
  | None => Throw (LibraryError "CryptoJS.enc.Base64.parse")
  end.

Definition establishSessionAsResponder (encryptedData : Incoming.t)
    : SE World SessionState.t :=
  identityKeyPair ← readKeychain getIdentityKeyPair;
  signedPreKey ← readKeychain getSignedPreKey;
  match identityKeyPair, signedPreKey with
  | Some identityKeyPair, Some signedPreKey =>
      remoteIdentityKey ← liftR (base64Field (Incoming.remoteIdentityKey encryptedData));
      remoteEphemeralKey ← liftR (base64Field (Incoming.ephemeralKey encryptedData));
      sharedSecret ← liftR (x3dhResponder identityKeyPair signedPreKey None
                              remoteIdentityKey remoteEphemeralKey);
      liftEnv (initializeSession sharedSecret remoteIdentityKey false)
  | _, _ => throw (Error "Missing local keys")
  end.

(** The [catch] clause logs and rethrows. *)
Definition decryptIncomingMessage (encryptedData : Incoming.t) : SE World ChatMessage.t :=
  let fromUserId := Incoming.fromUserId encryptedData in
  session ← readKeychain (getSession fromUserId);
  session ← match session with
            | Some session => mret session
            | None => establishSessionAsResponder encryptedData
            end;
  let encrypted :=
    {| EncryptedMessage.type := Incoming.messageType encryptedData;
       EncryptedMessage.registrationId := Incoming.registrationId encryptedData;
       EncryptedMessage.messageVersion := 1;
       EncryptedMessage.ciphertext :=
         base64ToUint8Array (Incoming.encryptedContent encryptedData);
       EncryptedMessage.preKeyId := None;
       EncryptedMessage.signedPreKeyId := None;
       EncryptedMessage.baseKey := None;
       EncryptedMessage.identityKey := None |} in
  '(plaintext, newSession) ← liftR (ratchetDecrypt session encrypted);
  _ ← writeKeychain (storeSession fromUserId newSession);
  mret {| ChatMessage.id := Incoming.id encryptedData;
          ChatMessage.fromUserId := fromUserId;
          ChatMessage.toUserId := Incoming.toUserId encryptedData;
          ChatMessage.content := plaintext;
          ChatMessage.type := default text (Incoming.type encryptedData);
          ChatMessage.timestamp := Incoming.timestamp encryptedData;
          ChatMessage.senderName := Incoming.senderName encryptedData;
          ChatMessage.senderRank := Incoming.senderRank encryptedData;
          ChatMessage.isOwn := false;
          ChatMessage.delivered := true |}.

(** The service object and the rest of what it talks to: the pending
    queue of the server by cursor ([None]: the request fails), whether the
    server accepts a receipt, the receipt bodies posted so far, and the
    callbacks subscribed, each known by its identity. *)
Record Client : Type := mkClient {
  world : World;
  pendingMessages : option string -> option (list Incoming.t);
  receiptRelay : Receipt.t -> bool;
  receipts : list Receipt.t;
  messageListeners : list nat
}.

Definition liftWorld {A} (m : SE World A) : SE Client A := fun c =>
  let '(r, w') := m (world c) in
  (r, mkClient w' (pendingMessages c) (receiptRelay c) (receipts c)
        (messageListeners c)).


Definition api_post_receipts (body : Receipt.t) : SE Client unit := fun c =>
  ((if receiptRelay c body then Ok tt else Throw (LibraryError "axios.post")),
   mkClient (world c) (pendingMessages c) (receiptRelay c) (receipts c ++ [body])
     (messageListeners c)).

Definition sendReceipt (messageId : string) (type : Receipt.kind) : SE Client unit :=
  try_catch
    (now ← liftWorld (liftEnv Date_now);
     api_post_receipts (Receipt.mk messageId type now))
    (fun error => mret tt).

Definition markAsRead (messageId : string) : SE Client unit :=
  sendReceipt messageId Receipt.read.



(** [array.indexOf(callback)], with [None] for -1. *)
Fixpoint indexOf (callback : nat) (listeners : list nat) : option nat :=
  match listeners with
  | [] => None
  | listener :: rest =>
      if (listener =? callback)%nat then Some 0%nat else S <$> indexOf callback rest
  end.

Definition setMessageListeners (listeners : list nat) : SE Client unit := fun c =>
  (Ok tt,
   mkClient (world c) (pendingMessages c) (receiptRelay c) (receipts c) listeners).

(** The function [onMessage] returns. *)
Definition unsubscribeMessage (callback : nat) : SE Client unit := fun c =>
  match indexOf callback (messageListeners c) with
  | Some index => setMessageListeners (delete index (messageListeners c)) c
  | None => (Ok tt, c)
  end.

Definition onMessage (callback : nat) : SE Client (SE Client unit) := fun c =>
  (Ok (unsubscribeMessage callback),
   mkClient (world c) (pendingMessages c) (receiptRelay c) (receipts c)
     (messageListeners c ++ [callback])).

(** [w1] is [w] up to the random values drawn. *)
Definition sameStore (w w1 : World) : Prop :=
  keychain w1 = keychain w /\ posted w1 = posted w /\
  keyDirectory w1 = keyDirectory w /\ relay w1 = relay w.

(** [m] neither stores nor posts; [m] does not when it raises. *)
Definition quiet {A} (m : SE World A) : Prop :=
  forall w r w1, m w = (r, w1) -> sameStore w w1.

Definition failsQuietly {A} (m : SE World A) : Prop :=
  forall w e w1, m w = (Throw e, w1) -> sameStore w w1.


End MessagingReceive.

(** ** Buffers and sessions as mutable objects

    The ratchet overwrites key buffers in place ([fill(0)]) and receives its
    session as an object.  To see what such writes can reach, module [Mem]
    runs the encrypt and decrypt paths on a heap: the list, in allocation
    order, of the [Uint8Array] buffers and session objects alive, each named
    by its index.  An envelope is the record of its fields: it is built once
    and only read. *)

Module Mem.

Definition kind : Type := EncryptedMessage.kind.
Definition message : kind := EncryptedMessage.message.

Abbreviation ref := nat.

Module MessageKeys.
Record t : Type := mk { cipherKey : ref; macKey : ref; iv : ref }.
End MessageKeys.

(** The fields of a session object; its buffers are references. *)
Module SessionState.
Record t : Type := mk {
  sessionId : string;
  remoteIdentityKey : ref;
  rootKey : ref;
  chainKey : ref;
  sendingChainKey : option ref;
  receivingChainKey : option ref;
  messageNumber : Z;
  previousCounter : Z
}.
End SessionState.

Module EncryptedMessage.
Record t : Type := mk {
  type : kind;
  registrationId : Z;
  messageVersion : Z;
  ciphertext : ref;
  preKeyId : option Z;
  signedPreKeyId : option Z;
  baseKey : option ref;
  identityKey : option ref
}.
End EncryptedMessage.

Inductive cell : Type :=
| Buffer (b : bytes)
| Session (s : SessionState.t).

Abbreviation heap := (list cell).
Abbreviation M := (SE heap).

Definition alloc (c : cell) : M ref := fun h => (Ok (length h), h ++ [c]).

Definition load (r : ref) : M bytes := fun h =>
  match h !! r with
  | Some (Buffer b) => (Ok b, h)
  | _ => (Throw Unallocated, h)
  end.

Definition store (r : ref) (b : bytes) : M unit := fun h =>
  (Ok tt, <[r := Buffer b]> h).

Definition loadSession (r : ref) : M SessionState.t := fun h =>
  match h !! r with
  | Some (Session s) => (Ok s, h)
  | _ => (Throw Unallocated, h)
  end.

(** [new Uint8Array(n)], [a.length], [dst.set(src, offset)], [a.slice(i, j)],
    [a[i] = v] and [a.fill(v)] on references. *)
Definition anew (n : nat) : M ref := alloc (Buffer (replicate n x00)).

Definition alen (a : ref) : M nat :=
  b ← load a; mret (length b).

Definition aset (dst src : ref) (offset : nat) : M unit :=
  d ← load dst;
  s ← load src;
  d ← liftR (Uint8Array_set d s offset);
  store dst d.

Definition aslice (a : ref) (i j : nat) : M ref :=
  b ← load a; alloc (Buffer (Uint8Array_slice b i j)).

Definition aput (a : ref) (i : nat) (v : byte) : M unit :=
  b ← load a; store a (<[i := v]> b).

Definition afill (a : ref) (v : byte) : M unit :=
  b ← load a; store a (replicate (length b) v).

Section Run.
Context `{CryptoJS} `{TextCodec}.

(** The module constant [MESSAGE_KEY_SEED], allocated when the module loads. *)
Variable MESSAGE_KEY_SEED : ref.

Definition hmacSha256 (message key : ref) : M ref :=
  m ← load message;
  k ← load key;
  let messageWords := WordArray_create m in
  let keyWords := WordArray_create k in
  let hmac := HmacSHA256 messageWords keyWords in
  anew (length (words hmac) * 4).

Fixpoint hkdf_expand (fuel : nat) (prk info : ref) (len : nat)
    (output t : ref) (offset counter : nat) : M ref :=
  if (offset <? len)%nat then
    match fuel with
    | O => throw Diverge
    | S fuel' =>
        tlen ← alen t;
        ilen ← alen info;
        data ← anew (tlen + ilen + 1);
        _ ← aset data t 0;
        _ ← aset data info tlen;
        dlen ← alen data;
        _ ← aput data (dlen - 1) (toUint8 counter);
        t ← hmacSha256 data prk;
        let remaining := (len - offset)%nat in
        tlen ← alen t;
        let toCopy := tlen `min` remaining in
        piece ← aslice t 0 toCopy;
        _ ← aset output piece offset;
        hkdf_expand fuel' prk info len output t (offset + toCopy) (counter + 1)
    end
  else mret output.

Definition hkdf (inputKeyMaterial salt info : ref) (len : nat) : M ref :=
  prk ← hmacSha256 inputKeyMaterial salt;
  output ← anew len;
  t ← anew 0;
  hkdf_expand len prk info len output t 0 1.

Definition aes256Encrypt (plaintext : string) (key iv : ref) : M string :=
  k ← load key;
  i ← load iv;
  let keyWords := WordArray_create k in
  let ivWords := WordArray_create i in
  mret (AES_encrypt plaintext keyWords ivWords).

Definition aes256Decrypt (ciphertext : string) (key iv : ref) : M string :=
  k ← load key;
  i ← load iv;
  let keyWords := WordArray_create k in
  let ivWords := WordArray_create i in
  liftR (fromLib "CryptoJS.AES.decrypt" (AES_decrypt ciphertext keyWords ivWords)).

Definition ratchetChainKey (chainKey : ref) : M (ref * ref) :=
  chainInput ← alloc (Buffer [x02]);
  newChainKey ← hmacSha256 chainInput chainKey;
  messageInput ← alloc (Buffer [x01]);
  messageKey ← hmacSha256 messageInput chainKey;
  mret (newChainKey, messageKey).

Definition deriveMessageKeys (messageKey : ref) : M MessageKeys.t :=
  salt ← anew 32;
  let info := MESSAGE_KEY_SEED in
  keyMaterial ← hkdf messageKey salt info 80;
  cipherKey ← aslice keyMaterial 0 32;
  macKey ← aslice keyMaterial 32 64;
  iv ← aslice keyMaterial 64 80;
  mret (MessageKeys.mk cipherKey macKey iv).

Definition ratchetEncrypt (session : ref) (plaintext : string)
    : M (EncryptedMessage.t * ref) :=
  s ← loadSession session;
  match SessionState.sendingChainKey s with
  | None => throw (Error "No sending chain key available")
  | Some sendingChainKey =>
      '(newChainKey, messageKey) ← ratchetChainKey sendingChainKey;
      messageKeys ← deriveMessageKeys messageKey;
      ciphertext ← aes256Encrypt plaintext (MessageKeys.cipherKey messageKeys)
                     (MessageKeys.iv messageKeys);
      ciphertext ← alloc (Buffer (TextEncoder_encode ciphertext));
      let encrypted :=
        {| EncryptedMessage.type := message;
           EncryptedMessage.registrationId := 0;
           EncryptedMessage.messageVersion := 1;
           EncryptedMessage.ciphertext := ciphertext;
           EncryptedMessage.preKeyId := None;
           EncryptedMessage.signedPreKeyId := None;
           EncryptedMessage.baseKey := None;
           EncryptedMessage.identityKey := None |} in
      newSession ← alloc (Session
        {| SessionState.sessionId := SessionState.sessionId s;
           SessionState.remoteIdentityKey := SessionState.remoteIdentityKey s;
           SessionState.rootKey := SessionState.rootKey s;
           SessionState.chainKey := SessionState.chainKey s;
           SessionState.sendingChainKey := Some newChainKey;
           SessionState.receivingChainKey := SessionState.receivingChainKey s;
           SessionState.messageNumber := SessionState.messageNumber s + 1;
           SessionState.previousCounter := SessionState.previousCounter s |});
      _ ← afill (MessageKeys.cipherKey messageKeys) x00;
      _ ← afill (MessageKeys.macKey messageKeys) x00;
      _ ← afill messageKey x00;
      mret (encrypted, newSession)
  end.

Definition ratchetDecrypt (session : ref) (encrypted : EncryptedMessage.t)
    : M (string * ref) :=
  s ← loadSession session;
  match SessionState.receivingChainKey s with
  | None => throw (Error "No receiving chain key available")
  | Some receivingChainKey =>
      '(newChainKey, messageKey) ← ratchetChainKey receivingChainKey;
      messageKeys ← deriveMessageKeys messageKey;
      ciphertext ← load (EncryptedMessage.ciphertext encrypted);
      let ciphertextStr := TextDecoder_decode ciphertext in
      plaintext ← aes256Decrypt ciphertextStr (MessageKeys.cipherKey messageKeys)
                    (MessageKeys.iv messageKeys);
      newSession ← alloc (Session
        {| SessionState.sessionId := SessionState.sessionId s;
           SessionState.remoteIdentityKey := SessionState.remoteIdentityKey s;
           SessionState.rootKey := SessionState.rootKey s;
           SessionState.chainKey := SessionState.chainKey s;
           SessionState.sendingChainKey := SessionState.sendingChainKey s;
           SessionState.receivingChainKey := Some newChainKey;
           SessionState.messageNumber := SessionState.messageNumber s + 1;
           SessionState.previousCounter := SessionState.messageNumber s |});
      _ ← afill (MessageKeys.cipherKey messageKeys) x00;
      _ ← afill (MessageKeys.macKey messageKeys) x00;
      _ ← afill messageKey x00;
      mret (plaintext, newSession)
  end.


End Run.

Definition cleanupSession (session : ref) : M unit :=
  s ← loadSession session;
  _ ← afill (SessionState.rootKey s) x00;
  _ ← afill (SessionState.chainKey s) x00;
  _ ← match SessionState.sendingChainKey s with
      | Some sendingChainKey => afill sendingChainKey x00
      | None => mret tt
      end;
  _ ← match SessionState.receivingChainKey s with
      | Some receivingChainKey => afill receivingChainKey x00
      | None => mret tt
      end;
  afill (SessionState.remoteIdentityKey s) x00.

(** The heap together with the ambient effects. *)
Abbreviation ME := (SE (heap * Env)).

Definition onHeap {A} (m : M A) : ME A := fun '(h, env) =>
  let '(r, h') := m h in (r, (h', env)).

Definition onEnv {A} (m : SE Env A) : ME A := fun '(h, env) =>
  let '(r, env') := m env in (r, (h, env')).

Section Init.
Context `{CryptoJS}.

(** The module constants [ROOT_KEY_SEED] and [CHAIN_KEY_SEED]. *)
Variables ROOT_KEY_SEED CHAIN_KEY_SEED : ref.

Definition initializeSession (sharedSecret remoteIdentityKey : ref)
    (isInitiator : bool) : ME ref :=
  salt ← onHeap (anew 32);
  rootKey ← onHeap (hkdf sharedSecret salt ROOT_KEY_SEED 32);
  chainKey ← onHeap (hkdf sharedSecret salt CHAIN_KEY_SEED 32);
  now ← onEnv Date_now;
  rnd ← onEnv Math_random_toString36;
  let sessionId := "session_" +:+ pretty now +:+ "_" +:+ rnd in
  onHeap (alloc (Session
    {| SessionState.sessionId := sessionId;
       SessionState.remoteIdentityKey := remoteIdentityKey;
       SessionState.rootKey := rootKey;
       SessionState.chainKey := chainKey;
       SessionState.sendingChainKey := if isInitiator then Some chainKey else None;
       SessionState.receivingChainKey := if isInitiator then None else Some chainKey;
       SessionState.messageNumber := 0;
       SessionState.previousCounter := 0 |})).

End Init.

End Mem.

(** [h'] has every buffer of [h] below reference [n], unchanged. *)
Definition keeps (n : nat) (h h' : Mem.heap) : Prop :=
  length h <= length h' /\ forall r, r < n -> h' !! r = h !! r.

(** [m] writes only at references from [n] upwards, and its result
    satisfies [Q]. *)
Definition above (n : nat) {A} (m : Mem.M A) (Q : A -> Prop) : Prop :=
  forall h, n <= length h ->
    keeps n h (m h).2 /\ forall a, (m h).1 = Ok a -> Q a.

(** ** Reading values off the heap *)

Definition bufferAt (h : Mem.heap) (r : Mem.ref) : option bytes :=
  match h !! r with
  | Some (Mem.Buffer b) => Some b
  | _ => None
  end.

Definition optionalBufferAt (h : Mem.heap) (o : option Mem.ref) : option (option bytes) :=
  match o with
  | Some r => Some <$> bufferAt h r
  | None => Some None
  end.

(** The session value an object stands for: its fields, with the bytes its
    references hold. *)
Definition sessionAt (h : Mem.heap) (r : Mem.ref) : option SessionState.t :=
  match h !! r with
  | Some (Mem.Session s) =>
      remoteIdentityKey ← bufferAt h (Mem.SessionState.remoteIdentityKey s);
      rootKey ← bufferAt h (Mem.SessionState.rootKey s);
      chainKey ← bufferAt h (Mem.SessionState.chainKey s);
      sendingChainKey ← optionalBufferAt h (Mem.SessionState.sendingChainKey s);
      receivingChainKey ← optionalBufferAt h (Mem.SessionState.receivingChainKey s);
      Some {| SessionState.sessionId := Mem.SessionState.sessionId s;
              SessionState.remoteIdentityKey := remoteIdentityKey;
              SessionState.rootKey := rootKey;
              SessionState.chainKey := chainKey;
              SessionState.sendingChainKey := sendingChainKey;
              SessionState.receivingChainKey := receivingChainKey;
              SessionState.messageNumber := Mem.SessionState.messageNumber s;
              SessionState.previousCounter := Mem.SessionState.previousCounter s |}
  | _ => None
  end.

Definition envelopeAt (h : Mem.heap) (e : Mem.EncryptedMessage.t)
    : option EncryptedMessage.t :=
  ciphertext ← bufferAt h (Mem.EncryptedMessage.ciphertext e);
  baseKey ← optionalBufferAt h (Mem.EncryptedMessage.baseKey e);
  identityKey ← optionalBufferAt h (Mem.EncryptedMessage.identityKey e);
  Some {| EncryptedMessage.type := Mem.EncryptedMessage.type e;
          EncryptedMessage.registrationId := Mem.EncryptedMessage.registrationId e;
          EncryptedMessage.messageVersion := Mem.EncryptedMessage.messageVersion e;
          EncryptedMessage.ciphertext := ciphertext;
          EncryptedMessage.preKeyId := Mem.EncryptedMessage.preKeyId e;
          EncryptedMessage.signedPreKeyId := Mem.EncryptedMessage.signedPreKeyId e;
          EncryptedMessage.baseKey := baseKey;
          EncryptedMessage.identityKey := identityKey |}.

(** The key buffers of a session object, in the order [cleanupSession]
    overwrites them. *)
Definition keyBuffers (s : Mem.SessionState.t) : list Mem.ref :=
  [Mem.SessionState.rootKey s; Mem.SessionState.chainKey s]
  ++ option_list (Mem.SessionState.sendingChainKey s)
  ++ option_list (Mem.SessionState.receivingChainKey s)
  ++ [Mem.SessionState.remoteIdentityKey s].

(** The session value with every key overwritten by zero bytes. *)
Definition zeroBytes (b : bytes) : bytes := replicate (length b) x00.

Definition wipedSession (session : SessionState.t) : SessionState.t :=
  {| SessionState.sessionId := SessionState.sessionId session;
     SessionState.remoteIdentityKey := zeroBytes (SessionState.remoteIdentityKey session);
     SessionState.rootKey := zeroBytes (SessionState.rootKey session);
     SessionState.chainKey := zeroBytes (SessionState.chainKey session);
     SessionState.sendingChainKey := zeroBytes <$> SessionState.sendingChainKey session;
     SessionState.receivingChainKey := zeroBytes <$> SessionState.receivingChainKey session;
     SessionState.messageNumber := SessionState.messageNumber session;
     SessionState.previousCounter := SessionState.previousCounter session |}.

(** [h'] is [h] with the buffers at [R] overwritten by zero bytes. *)
Definition zeroed (R : list Mem.ref) (h h' : Mem.heap) : Prop :=
  length h' = length h /\
  (forall r, r ∈ R ->
     exists b, bufferAt h r = Some b /\ bufferAt h' r = Some (zeroBytes b)) /\
  (forall r, r ∉ R -> h' !! r = h !! r).

(** [m] succeeds wherever the references [R] are buffers, and overwrites
    exactly those. *)
Definition wipes (R : list Mem.ref) (m : Mem.M unit) : Prop :=
  forall h, Forall (fun r => is_Some (bufferAt h r)) R ->
    exists h', m h = (Ok tt, h') /\ zeroed R h h'.

(** ** A reference instance of the interfaces

    Small executable stand-ins for the third-party calls, on which the
    definitions above run on concrete inputs: a keyed checksum for the
    HMAC, a header-tagged cipher without integrity check, Diffie-Hellman
    and a linear signature
    in the multiplicative group modulo the prime [2^61 - 1], bytes for
    text, and an association list for the keychain. *)

Module Reference.

(** Little-endian numbers in buffers. *)
Definition num (b : bytes) : Z :=
  fold_right (fun x acc => Z.of_N (Byte.to_N x) + 256 * acc)%Z 0%Z b.

Fixpoint enc (len : nat) (z : Z) : bytes :=
  match len with
  | O => []
  | S len' => toUint8 (Z.to_nat (z mod 256)) :: enc len' (z / 256)
  end.

(** Words from bytes, four to a word, most significant first. *)
Fixpoint pack (b : bytes) : list Z :=
  match b with
  | b0 :: b1 :: b2 :: b3 :: rest => num [b3; b2; b1; b0] :: pack rest
  | [] => []
  | short => [num (rev (take 4 (short ++ [x00; x00; x00])))]
  end.

Definition create (b : bytes) : WordArray := mkWordArray (pack b) (length b).

Definition wsum (w : WordArray) : Z := fold_right Z.add 0%Z (words w).

Definition checksum (m k : WordArray) : WordArray :=
  mkWordArray
    (map (fun i => (wsum m + 31 * wsum k + Z.of_nat (sigBytes m) + i) mod 2 ^ 32)%Z
         [1; 2; 3; 4; 5; 6; 7; 8]%Z)
    32.

Definition header (k iv : WordArray) : string :=
  "k" +:+ pretty (wsum k) +:+ "i" +:+ pretty (wsum iv) +:+ ":".

Fixpoint strip (pre s : string) : option string :=
  match pre with
  | EmptyString => Some s
  | String a pre' =>
      match s with
      | String b s' => if Ascii.eqb a b then strip pre' s' else None
      | EmptyString => None
      end
  end.

Definition seal (p : string) (k iv : WordArray) : string := header k iv +:+ p.

(** Text that was not sealed under this key and IV decrypts to the empty
    string, as the library's decrypt does on input it cannot unpad. *)
Definition unseal (c : string) (k iv : WordArray) : option string :=
  Some (default "" (strip (header k iv) c)).

Lemma strip_app pre s : strip pre (pre +:+ s) = Some s.
Proof.
  induction pre as [|a pre IH]; simpl; [reflexivity|].
  now rewrite Ascii.eqb_refl.
Qed.

Lemma unseal_seal p k iv : unseal (seal p k iv) k iv = Some p.
Proof. unfold unseal, seal. now rewrite strip_app. Qed.

Definition cryptoJS : CryptoJS := {|
  WordArray_create := create;
  HmacSHA256 := checksum;
  AES_encrypt := seal;
  AES_decrypt := unseal;
  Base64_stringify := fun w =>
    string_of_list_byte (take (sigBytes w) (flat_map wordBytes (words w)));
  Base64_parse := fun s => create (list_byte_of_string s);
  HmacSHA256_words := fun _ _ => eq_refl;
  AES_decrypt_encrypt := unseal_seal
|}.

Definition textCodec : TextCodec := {|
  TextEncoder_encode := list_byte_of_string;
  TextDecoder_decode := string_of_list_byte;
  TextDecoder_decode_encode := string_of_list_byte_of_string
|}.

Definition P : Z := 2 ^ 61 - 1.
Definition G : Z := 3.

Definition power (base : Z) (exponent : bytes) : Z :=
  Zpow_facts.Zpow_mod base (num exponent) P.

Definition publicOf (priv : bytes) : option bytes :=
  if (length priv =? 32)%nat then Some (enc 32 (power G priv)) else None.

Definition agree (priv pub : bytes) : option bytes :=
  if ((length priv =? 32)%nat && (length pub =? 32)%nat
      && negb (num pub mod P =? 0)%Z)%bool
  then Some (enc 32 (power (num pub mod P) priv))
  else None.

Definition sign (msg priv : bytes) : option bytes :=
  if (length priv =? 32)%nat
  then Some (enc 64 ((num msg * num priv) mod (P - 1)))
  else None.

Definition verify (sig msg pub : bytes) : option bool :=
  if ((length sig =? 64)%nat && (length pub =? 32)%nat)%bool
  then Some (power G sig =? power (num pub mod P) msg)%Z
  else None.

Definition nobleCurves : NobleCurves := {|
  x25519_getPublicKey := publicOf;
  x25519_getSharedSecret := agree;
  ed25519_getPublicKey := publicOf;
  ed25519_sign := sign;
  ed25519_verify := verify
|}.

Record keychainData : Type := mkKeychain {
  sessions : list (string * SessionState.t);
  identity : option IdentityKeyPair;
  signedPreKey : option SignedPreKey.t
}.

Definition keyStorage : KeyStorage := {|
  Keychain := keychainData;
  getSession := fun userId kc =>
    snd <$> find (fun entry => String.eqb (fst entry) userId) (sessions kc);
  storeSession := fun userId session kc =>
    mkKeychain ((userId, session) :: sessions kc) (identity kc) (signedPreKey kc);
  getIdentityKeyPair := identity;
  getSignedPreKey := signedPreKey
|}.

(** A digest of eight words. *)
Definition cryptoJSHash : CryptoJSHash := {|
  SHA256 := fun m => Reference.checksum m (Reference.create []);
  SHA256_words := fun _ => eq_refl
|}.

End Reference.

(** ** A scenario on the reference instance

    Two devices with generated keys, the bundle one publishes, the handshake
    and first messages of the other; the values are computed from the
    definitions above. *)

Definition orDefault {A} (d : A) (r : Result A) : A :=
  match r with Ok a => a | Throw _ => d end.

Definition publishedBundle (identity : IdentityKeyPair) (spk : SignedPreKey.t)
    (opk : option PreKey.t) : PreKeyBundle.t :=
  {| PreKeyBundle.identityKey := KeyPair.publicKey identity;
     PreKeyBundle.signedPreKey := KeyPair.publicKey (SignedPreKey.keyPair spk);
     PreKeyBundle.signedPreKeyId := SignedPreKey.keyId spk;
     PreKeyBundle.signedPreKeySignature := SignedPreKey.signature spk;
     PreKeyBundle.preKey := (fun k => KeyPair.publicKey (PreKey.keyPair k)) <$> opk;
     PreKeyBundle.preKeyId := PreKey.keyId <$> opk;
     PreKeyBundle.registrationId := 0 |}.

Section Scenario.
#[local] Existing Instance Reference.cryptoJS.
#[local] Existing Instance Reference.textCodec.
#[local] Existing Instance Reference.nobleCurves.
#[local] Existing Instance Reference.keyStorage.

Definition tape (seed : nat) : Entropy := fun i => toUint8 (seed + 7 * i + i * i).
Definition env0 (seed : nat) : Env :=
  mkEnv (tape seed) 1700000000000 (fun i => "0.k" +:+ pretty i).

Definition noKeys : KeyPair.t := KeyPair.mk [] [].

Definition responderIdentity : IdentityKeyPair :=
  Eval vm_compute in orDefault noKeys (generateIdentityKeyPair (env0 1)).1.
Definition responderSignedPreKey : SignedPreKey.t :=
  Eval vm_compute in
    orDefault (SignedPreKey.mk 0 noKeys [] 0)
      (generateSignedPreKey responderIdentity 1 (env0 2)).1.
Definition responderPreKeys : list PreKey.t :=
  Eval vm_compute in orDefault [] (generatePreKeys 1 10 (env0 3)).1.
Definition responderBundle : PreKeyBundle.t :=
  Eval vm_compute in
    publishedBundle responderIdentity responderSignedPreKey (head responderPreKeys).

Definition initiatorIdentity : IdentityKeyPair :=
  Eval vm_compute in orDefault noKeys (generateIdentityKeyPair (env0 4)).1.
Definition initiatorOutput : X3DHOutput :=
  Eval vm_compute in
    orDefault (mkX3DHOutput [] [])
      (x3dhInitiator initiatorIdentity responderBundle (env0 5)).1.

Definition forgedBundle : PreKeyBundle.t :=
  Eval vm_compute in withSignature responderBundle (replicate 64 x00).

Definition session0 : SessionState.t :=
  Eval vm_compute in
    orDefault (SessionState.mk "" [] [] [] None None 0 0)
      (initializeSession (replicate 32 x00) (replicate 32 x00) true (env0 6)).1.

(** Two messages sent in a row from [session0]. *)
Definition noEnvelope : EncryptedMessage.t :=
  EncryptedMessage.mk EncryptedMessage.message 0 0 [] None None None None.
Definition sent1 : EncryptedMessage.t * SessionState.t :=
  Eval vm_compute in orDefault (noEnvelope, session0) (ratchetEncrypt session0 "Hello").
Definition sent2 : EncryptedMessage.t * SessionState.t :=
  Eval vm_compute in orDefault (noEnvelope, session0) (ratchetEncrypt sent1.2 "Hello").

(** The directory's answer for a bundle. *)
Definition encodeBundle (b : PreKeyBundle.t) : KeysResponse.t :=
  {| KeysResponse.identityKey := uint8ArrayToBase64 (PreKeyBundle.identityKey b);
     KeysResponse.signedPreKey :=
       KeysResponse.mkSigned (uint8ArrayToBase64 (PreKeyBundle.signedPreKey b))
         (PreKeyBundle.signedPreKeyId b)
         (uint8ArrayToBase64 (PreKeyBundle.signedPreKeySignature b));
     KeysResponse.preKey :=
       match PreKeyBundle.preKey b, PreKeyBundle.preKeyId b with
       | Some k, Some i => Some (KeysResponse.mkPreKey (uint8ArrayToBase64 k) i)
       | _, _ => None
       end;
     KeysResponse.registrationId := PreKeyBundle.registrationId b |}.

(** The initiator's device: its identity key in the keychain, no session,
    a directory that serves [bundle] for "bob", a relay that accepts. *)
Definition device (bundle : PreKeyBundle.t) : World :=
  {| env := env0 5;
     keychain := Reference.mkKeychain [] (Some initiatorIdentity) None;
     keyDirectory := fun userId =>
       if String.eqb userId "bob" then Some (encodeBundle bundle) else None;
     relay := fun _ => Some (SendResponse.mk "m1" "alice");
     posted := [] |}.

Definition firstMessage : Message.t :=
  Eval vm_compute in
    orDefault (Message.mk "" "" "" "" text 0)
      (sendMessage "bob" "Hello" text (device responderBundle)).1.

(** A receiver's session object: one zeroed buffer serves as every key. *)
Definition receiver0 : Mem.SessionState.t :=
  Mem.SessionState.mk "session_1700000000000_0.k1" 1 1 1 None (Some 1) 0 0.

(** The sender's heap: the seed constant, one zeroed buffer that serves as
    every key of the session, and the session object of [session0]. *)
Definition sender0 : Mem.SessionState.t :=
  Mem.SessionState.mk "session_1700000000000_0.k0" 1 1 1 (Some 1) None 0 0.
Definition senderHeap : Mem.heap :=
  [Mem.Buffer (list_byte_of_string "MessageKeys"); Mem.Buffer (replicate 32 x00);
   Mem.Session sender0].

(** The receiver's heap once the first envelope of [session0] has arrived. *)
Definition receiverHeap : Mem.heap :=
  Eval vm_compute in
    [Mem.Buffer (list_byte_of_string "MessageKeys"); Mem.Buffer (replicate 32 x00);
     Mem.Buffer (EncryptedMessage.ciphertext sent1.1); Mem.Session receiver0].
Definition delivered : Mem.EncryptedMessage.t :=
  Mem.EncryptedMessage.mk EncryptedMessage.message 0 1 2 None None None None.
Definition receiverSession : SessionState.t :=
  Eval vm_compute in default session0 (sessionAt receiverHeap 3).

(** An envelope whose bytes are no ciphertext of any sender. *)
Definition garbledEnvelope : EncryptedMessage.t :=
  EncryptedMessage.mk EncryptedMessage.message 0 1 (list_byte_of_string "garbage")
    None None None None.


(** A heap whose keys are not zero: the seed constant, a buffer for each
    key and the initiator's session object over them, then the two seeds
    of [initializeSession] and a shared secret. *)
Definition keyed0 : Mem.SessionState.t :=
  Mem.SessionState.mk "session_1700000000000_0.k2" 4 1 2 (Some 3) None 0 0.
Definition keyedHeap : Mem.heap :=
  [Mem.Buffer (list_byte_of_string "MessageKeys"); Mem.Buffer (replicate 32 x01);
   Mem.Buffer (replicate 32 x02); Mem.Buffer (replicate 32 x03);
   Mem.Buffer (replicate 32 x04); Mem.Session keyed0;
   Mem.Buffer (list_byte_of_string "RootKey"); Mem.Buffer (list_byte_of_string "ChainKey");
   Mem.Buffer (replicate 32 x05)].
Definition keyedSession : SessionState.t :=
  Eval vm_compute in default session0 (sessionAt keyedHeap 5).
Definition keyedSent : Mem.EncryptedMessage.t * Mem.ref :=
  Eval vm_compute in
    orDefault (delivered, 0) (Mem.ratchetEncrypt 0 5 "Hello" keyedHeap).1.

(** What the relay received from [device responderBundle], and the message
    the server makes of it for the recipient: it passes on neither an
    identity key nor an ephemeral key. *)
Definition firstPayload : Payload.t :=
  Eval vm_compute in
    default (Payload.mk "" text "" EncryptedMessage.message 0 0)
      (last (posted (sendMessage "bob" "Hello" text (device responderBundle)).2)).
Definition relayed : Incoming.t :=
  {| Incoming.id := "m1";
     Incoming.fromUserId := "alice";
     Incoming.toUserId := Some "bob";
     Incoming.encryptedContent := Payload.encryptedContent firstPayload;
     Incoming.messageType := Payload.messageType firstPayload;
     Incoming.registrationId := Payload.registrationId firstPayload;
     Incoming.type := Some text;
     Incoming.timestamp := 1700000000001;
     Incoming.senderName := "Alice";
     Incoming.senderRank := None;
     Incoming.remoteIdentityKey := None;
     Incoming.ephemeralKey := None |}.

(** The recipient's device, with and without a session for the sender; its
    relay is down. *)
Definition recipientDevice (sessions : list (string * SessionState.t)) : World :=
  {| env := env0 7;
     keychain :=
       Reference.mkKeychain sessions (Some responderIdentity) (Some responderSignedPreKey);
     keyDirectory := fun _ => None;
     relay := fun _ => None;
     posted := [] |}.

End Scenario.


(** * Properties *)

(** Stepping through the monads. *)
Ltac step := cbn [mbind mret Result_bind Result_ret bindR SE_bind SE_ret liftR throw fromLib].

Section UtilsFacts.
Context `{CryptoJS}.

Lemma hmacSha256_zero m k : hmacSha256 m k = replicate 32 x00.
Proof. unfold hmacSha256, Uint8Array_new. now rewrite HmacSHA256_words. Qed.

Lemma Uint8Array_set_fits dst src off :
  off + length src <= length dst ->
  Uint8Array_set dst src off = Ok (take off dst ++ src ++ drop (off + length src) dst).
Proof.
  intros Hfit. unfold Uint8Array_set.
  destruct (Nat.leb_spec (off + length src) (length dst)); [reflexivity | lia].
Qed.

Lemma zeros_set_zeros n k off :
  off + k <= n ->
  Uint8Array_set (replicate n x00) (replicate k x00) off = Ok (replicate n x00).
Proof.
  intros Hfit. rewrite Uint8Array_set_fits by (rewrite !length_replicate; lia).
  rewrite length_replicate, take_replicate, drop_replicate, <- !replicate_add.
  do 2 f_equal. lia.
Qed.

Lemma hkdf_expand_zero fuel : forall prk info len t off counter,
  off <= len -> len - off <= fuel ->
  hkdf_expand fuel prk info len (replicate len x00) t off counter = Ok (replicate len x00).
Proof.
  induction fuel as [|fuel IH]; intros prk info len t off counter Hle Hfuel; simpl.
  - destruct (Nat.ltb_spec off len); [lia | reflexivity].
  - destruct (Nat.ltb_spec off len) as [Hlt|]; [| reflexivity].
    unfold Uint8Array_new.
    rewrite Uint8Array_set_fits by (rewrite length_replicate; lia). step. cbn [take].
    rewrite Uint8Array_set_fits
      by (rewrite ?length_app, ?length_take, ?length_drop, ?length_replicate; lia).
    step. rewrite hmacSha256_zero, length_replicate.
    unfold Uint8Array_slice. rewrite drop_0, take_replicate.
    rewrite zeros_set_zeros by lia. step.
    apply IH; lia.
Qed.

Lemma hkdf_zero ikm salt info len : hkdf ikm salt info len = Ok (replicate len x00).
Proof. unfold hkdf, Uint8Array_new. apply hkdf_expand_zero; lia. Qed.

(** C3. [hmacSha256] returns 32 zero bytes whatever the message and the key:
    the digest is computed, and the buffer returned is a fresh one that is
    never written.  Hence [hkdf] returns [len] zero bytes for every input key
    material, salt, info and length. *)
Theorem hmacSha256_hkdf_all_zero :
  forall message key ikm salt info len,
    hmacSha256 message key = replicate 32 x00 /\
    length (hmacSha256 message key) = 32 /\
    hkdf ikm salt info len = Ok (replicate len x00).
Proof.
  intros. rewrite hmacSha256_zero, hkdf_zero, length_replicate. auto.
Qed.

End UtilsFacts.

Section X3DHFacts.
Context `{CryptoJS} `{NobleCurves} `{TextCodec}.

Lemma set_after (front src : bytes) k :
  Uint8Array_set (front ++ replicate (length src + k) x00) src (length front)
  = Ok ((front ++ src) ++ replicate k x00).
Proof.
  rewrite Uint8Array_set_fits by (rewrite length_app, length_replicate; lia).
  rewrite take_app_length, drop_app_add', drop_replicate by reflexivity.
  rewrite <- app_assoc. repeat f_equal. lia.
Qed.

Lemma set_first (src : bytes) k :
  Uint8Array_set (replicate (length src + k) x00) src 0 = Ok (src ++ replicate k x00).
Proof. exact (set_after [] src k). Qed.

Lemma concat3_ok dh1 dh2 dh3 : concat3 dh1 dh2 dh3 = Ok (dh1 ++ dh2 ++ dh3).
Proof.
  unfold concat3, Uint8Array_new. cbv zeta.
  rewrite !Nat.add_0_l, <- (Nat.add_assoc (length dh1)).
  rewrite set_first. step.
  rewrite (set_after dh1 dh2). step.
  rewrite <- length_app, <- (Nat.add_0_r (length dh3)).
  rewrite (set_after (dh1 ++ dh2) dh3). cbn [replicate].
  now rewrite app_nil_r, <- app_assoc.
Qed.

Lemma appendDh4_ok dhOutputs dh4 : appendDh4 dhOutputs dh4 = Ok (dhOutputs ++ dh4).
Proof.
  unfold appendDh4, Uint8Array_new. cbv zeta.
  rewrite set_first. step.
  rewrite <- (Nat.add_0_r (length dh4)), (set_after dhOutputs dh4). cbn [replicate].
  now rewrite app_nil_r.
Qed.

Lemma x3dhResponder_defined bob spk opk rik rek :
  responderAgreementsDefined bob spk opk rik rek = true ->
  x3dhResponder bob spk opk rik rek = Ok (replicate 32 x00).
Proof.
  unfold responderAgreementsDefined, x3dhResponder, getSharedSecret.
  intros Hdef. repeat (apply andb_prop in Hdef as [Hdef ?]).
  destruct (x25519_getSharedSecret _ (Uint8Array_slice rik 0 32)); [|discriminate].
  destruct (x25519_getSharedSecret (Uint8Array_slice _ 0 32) rek); [|discriminate].
  destruct (x25519_getSharedSecret _ rek); [|discriminate].
  step. rewrite concat3_ok. step.
  destruct opk as [k|]; step.
  - destruct (x25519_getSharedSecret _ rek); [|discriminate].
    step. rewrite appendDh4_ok. step. apply hkdf_zero.
  - apply hkdf_zero.
Qed.

Lemma SE_bind_Ok {S A B} (m : SE S A) (k : A -> SE S B) s b s' :
  (m ≫= k) s = (Ok b, s') ->
  exists a s1, m s = (Ok a, s1) /\ k a s1 = (Ok b, s').
Proof.
  unfold mbind, SE_bind. destruct (m s) as [[a|e] s1]; [eauto | discriminate].
Qed.

Lemma liftR_Ok {S A} (r : Result A) (s s' : S) a :
  liftR r s = (Ok a, s') -> r = Ok a /\ s' = s.
Proof. unfold liftR. now intros [= -> ->]. Qed.

Lemma x3dhInitiator_secret alice bundle env out env' :
  x3dhInitiator alice bundle env = (Ok out, env') ->
  sharedSecret out = replicate 32 x00.
Proof.
  unfold x3dhInitiator. intros Hrun.
  do 7 (apply SE_bind_Ok in Hrun as (? & ? & _ & Hrun)).
  cbv zeta in Hrun. rewrite hkdf_zero in Hrun.
  apply SE_bind_Ok in Hrun as (? & ? & [[= <-] ->]%liftR_Ok & Hrun).
  now injection Hrun as <- _.
Qed.

(** C1. When [x3dhInitiator] has returned [{sharedSecret, ephemeralKey}] and
    the responder runs [x3dhResponder] with its private keys, the
    initiator's identity public key and that ephemeral key, the responder
    obtains exactly the initiator's [sharedSecret], all 32 bytes of it,
    provided the responder's own Diffie-Hellman calls accept their keys.
    Both secrets are outputs of [hkdf], which is constant, so the equality
    needs no relation between the bundle and the responder's keys. *)
Theorem x3dh_agreement :
  forall (initiator responder : IdentityKeyPair) (spk : SignedPreKey.t)
         (opk : option PreKey.t) (bundle : PreKeyBundle.t) env env' out,
    x3dhInitiator initiator bundle env = (Ok out, env') ->
    responderAgreementsDefined responder spk opk
      (KeyPair.publicKey initiator) (ephemeralKey out) = true ->
    x3dhResponder responder spk opk (KeyPair.publicKey initiator) (ephemeralKey out)
      = Ok (sharedSecret out)
    /\ length (sharedSecret out) = 32.
Proof.
  intros * Hinit Hdef.
  rewrite (x3dhInitiator_secret _ _ _ _ _ Hinit), length_replicate.
  split; [now apply x3dhResponder_defined | reflexivity].
Qed.

End X3DHFacts.

Section RatchetFacts.
Context `{CryptoJS} `{TextCodec}.

Lemma deriveMessageKeys_ok messageKey :
  deriveMessageKeys messageKey
  = Ok (MessageKeys.mk (replicate 32 x00) (replicate 32 x00) (replicate 16 x00)).
Proof. unfold deriveMessageKeys. cbv zeta. now rewrite hkdf_zero. Qed.

Lemma ratchetChainKey_zero chainKey :
  ratchetChainKey chainKey = mkChainStep (replicate 32 x00) (replicate 32 x00).
Proof. unfold ratchetChainKey. now rewrite !hmacSha256_zero. Qed.



Lemma initializeSession_run sharedSecret remoteIdentityKey isInitiator env :
  exists sessionId env',
    initializeSession sharedSecret remoteIdentityKey isInitiator env
    = (Ok {| SessionState.sessionId := sessionId;
             SessionState.remoteIdentityKey := remoteIdentityKey;
             SessionState.rootKey := replicate 32 x00;
             SessionState.chainKey := replicate 32 x00;
             SessionState.sendingChainKey :=
               if isInitiator then Some (replicate 32 x00) else None;
             SessionState.receivingChainKey :=
               if isInitiator then None else Some (replicate 32 x00);
             SessionState.messageNumber := 0;
             SessionState.previousCounter := 0 |}, env').
Proof.
  unfold initializeSession. cbv zeta. rewrite !hkdf_zero.
  do 2 eexists. reflexivity.
Qed.



(** What [ratchetEncrypt] returns on a session that has a sending chain. *)
Lemma ratchetEncrypt_sending session plaintext ck :
  SessionState.sendingChainKey session = Some ck ->
  ratchetEncrypt session plaintext
  = Ok ({| EncryptedMessage.type := EncryptedMessage.message;
           EncryptedMessage.registrationId := 0;
           EncryptedMessage.messageVersion := 1;
           EncryptedMessage.ciphertext :=
             TextEncoder_encode
               (aes256Encrypt plaintext (replicate 32 x00) (replicate 16 x00));
           EncryptedMessage.preKeyId := None;
           EncryptedMessage.signedPreKeyId := None;
           EncryptedMessage.baseKey := None;
           EncryptedMessage.identityKey := None |},
        {| SessionState.sessionId := SessionState.sessionId session;
           SessionState.remoteIdentityKey := SessionState.remoteIdentityKey session;
           SessionState.rootKey := SessionState.rootKey session;
           SessionState.chainKey := SessionState.chainKey session;
           SessionState.sendingChainKey := Some (replicate 32 x00);
           SessionState.receivingChainKey := SessionState.receivingChainKey session;
           SessionState.messageNumber := SessionState.messageNumber session + 1;
           SessionState.previousCounter := SessionState.previousCounter session |}).
Proof.
  intros Hck. unfold ratchetEncrypt. rewrite Hck, deriveMessageKeys_ok.
  step. now rewrite ratchetChainKey_zero.
Qed.

Lemma ratchetEncrypt_Ok session plaintext encrypted newSession :
  ratchetEncrypt session plaintext = Ok (encrypted, newSession) ->
  exists ck, SessionState.sendingChainKey session = Some ck.
Proof.
  unfold ratchetEncrypt. destruct (SessionState.sendingChainKey session); [eauto | discriminate].
Qed.

(** C5 (as the code behaves). Two [ratchetEncrypt] calls in sequence, the
    second on the [newSession] of the first, leave the same sending chain key
    in both new sessions: 32 zero bytes, whatever the session was. *)
Theorem sequential_chain_keys_coincide :
  forall session p1 p2 e1 s1 e2 s2,
    ratchetEncrypt session p1 = Ok (e1, s1) ->
    ratchetEncrypt s1 p2 = Ok (e2, s2) ->
    SessionState.sendingChainKey s1 = Some (replicate 32 x00) /\
    SessionState.sendingChainKey s2 = SessionState.sendingChainKey s1.
Proof.
  intros * H1 H2.
  destruct (ratchetEncrypt_Ok _ _ _ _ H1) as [ck Hck].
  rewrite (ratchetEncrypt_sending _ _ _ Hck) in H1. injection H1 as <- <-.
  rewrite (ratchetEncrypt_sending _ _ (replicate 32 x00)) in H2 by reflexivity.
  now injection H2 as <- <-.
Qed.

(** C6 (as the code behaves). Two [ratchetEncrypt] calls in sequence on one
    session, the second on the [newSession] of the first, with the same
    plaintext: the message key of the second call is the message key of the
    first, so are the cipher key and the IV derived from it, and the two
    envelopes are equal, ciphertext included.  The keys coincide through
    [hmacSha256], which returns the same bytes for every chain key. *)
Theorem successive_encryptions_reuse_message_key :
  forall session plaintext e1 s1 e2 s2,
    ratchetEncrypt session plaintext = Ok (e1, s1) ->
    ratchetEncrypt s1 plaintext = Ok (e2, s2) ->
    exists ck ck1,
      SessionState.sendingChainKey session = Some ck /\
      SessionState.sendingChainKey s1 = Some ck1 /\
      messageKey (ratchetChainKey ck1) = messageKey (ratchetChainKey ck) /\
      deriveMessageKeys (messageKey (ratchetChainKey ck1))
        = deriveMessageKeys (messageKey (ratchetChainKey ck)) /\
      EncryptedMessage.ciphertext e2 = EncryptedMessage.ciphertext e1 /\
      e2 = e1.
Proof.
  intros * H1 H2.
  destruct (ratchetEncrypt_Ok _ _ _ _ H1) as [ck Hck].
  destruct (ratchetEncrypt_Ok _ _ _ _ H2) as [ck1 Hck1].
  exists ck, ck1. split; [exact Hck|]. split; [exact Hck1|].
  rewrite (ratchetEncrypt_sending _ _ _ Hck) in H1. injection H1 as <- <-.
  rewrite (ratchetEncrypt_sending _ _ _ Hck1) in H2. injection H2 as <- <-.
  rewrite !ratchetChainKey_zero, !deriveMessageKeys_ok. auto.
Qed.

(** C9. [ratchetEncrypt] raises its no-sending-chain error exactly when
    [sendingChainKey] is unset, and [ratchetDecrypt] its no-receiving-chain
    error exactly when [receivingChainKey] is unset. *)
Theorem chain_key_errors :
  forall session plaintext encrypted,
    (ratchetEncrypt session plaintext = Throw (Error "No sending chain key available")
     <-> SessionState.sendingChainKey session = None) /\
    (ratchetDecrypt session encrypted = Throw (Error "No receiving chain key available")
     <-> SessionState.receivingChainKey session = None).
Proof.
  intros. split; split.
  - destruct (SessionState.sendingChainKey session) as [ck|] eqn:Hck; [|reflexivity].
    now rewrite (ratchetEncrypt_sending _ _ _ Hck).
  - intros Hck. unfold ratchetEncrypt. now rewrite Hck.
  - unfold ratchetDecrypt.
    destruct (SessionState.receivingChainKey session) as [ck|]; [|reflexivity].
    rewrite deriveMessageKeys_ok. step. unfold aes256Decrypt.
    now destruct (AES_decrypt _ _ _).
  - intros Hck. unfold ratchetDecrypt. now rewrite Hck.
Qed.

(** C8 (amended). [ratchetDecrypt] checks no MAC and nothing else about
    the ciphertext.  On a session with a receiving chain key it raises
    exactly when the AES step raises (CryptoJS finds the decrypted bytes
    are not UTF-8), and then no session is produced.  Whenever the AES step
    returns a text, for a forged or garbled ciphertext as for a genuine
    one, [ratchetDecrypt] returns that text with a new session: the
    receiving chain key is replaced, [previousCounter] is the old
    [messageNumber], and [messageNumber] is one more.  The AES step runs
    under the constant key and IV that [hkdf] yields. *)
Theorem ratchetDecrypt_has_no_integrity_check :
  forall session encrypted ck,
    SessionState.receivingChainKey session = Some ck ->
    match AES_decrypt (TextDecoder_decode (EncryptedMessage.ciphertext encrypted))
            (WordArray_create (replicate 32 x00)) (WordArray_create (replicate 16 x00)) with
    | Some plaintext =>
        exists newSession,
          ratchetDecrypt session encrypted = Ok (plaintext, newSession) /\
          SessionState.receivingChainKey newSession = Some (replicate 32 x00) /\
          SessionState.previousCounter newSession = SessionState.messageNumber session /\
          ((0 <= SessionState.messageNumber session < 2 ^ 53)%Z ->
           SessionState.messageNumber newSession
             = (SessionState.messageNumber session + 1)%Z) /\
          SessionState.sendingChainKey newSession = SessionState.sendingChainKey session /\
          SessionState.sessionId newSession = SessionState.sessionId session
    | None =>
        ratchetDecrypt session encrypted = Throw (LibraryError "CryptoJS.AES.decrypt")
    end.
Proof.
  intros session encrypted ck Hck. unfold ratchetDecrypt.
  rewrite Hck. cbv zeta. rewrite ratchetChainKey_zero, deriveMessageKeys_ok. step.
  unfold aes256Decrypt. cbv zeta.
  cbn [MessageKeys.cipherKey MessageKeys.iv newChainKey messageKey].
  destruct (AES_decrypt _ _ _) as [plaintext|]; step; [|reflexivity].
  eexists. split; [reflexivity|]. cbn. auto.
Qed.

(** C10. [initializeSession] returns a state whose [rootKey] is
    [hkdf(sharedSecret, 32 zero bytes, "RootKey", 32)] and whose [chainKey] is
    [hkdf(sharedSecret, 32 zero bytes, "ChainKey", 32)]; the chain key is the
    sending chain key of an initiator and the receiving chain key otherwise,
    the other chain being unset; [messageNumber] is 0. *)
Theorem initializeSession_state :
  forall sharedSecret remoteIdentityKey isInitiator env,
  exists session env' rootKey chainKey,
    initializeSession sharedSecret remoteIdentityKey isInitiator env = (Ok session, env') /\
    hkdf sharedSecret (Uint8Array_new 32) (TextEncoder_encode "RootKey") 32 = Ok rootKey /\
    hkdf sharedSecret (Uint8Array_new 32) (TextEncoder_encode "ChainKey") 32 = Ok chainKey /\
    SessionState.rootKey session = rootKey /\
    SessionState.chainKey session = chainKey /\
    SessionState.sendingChainKey session = (if isInitiator then Some chainKey else None) /\
    SessionState.receivingChainKey session = (if isInitiator then None else Some chainKey) /\
    SessionState.remoteIdentityKey session = remoteIdentityKey /\
    SessionState.messageNumber session = 0%Z.
Proof.
  intros sharedSecret remoteIdentityKey isInitiator env.
  destruct (initializeSession_run sharedSecret remoteIdentityKey isInitiator env)
    as (sid & env' & Hrun).
  do 4 eexists. split; [exact Hrun|].
  rewrite !hkdf_zero. cbn. repeat split; reflexivity.
Qed.

End RatchetFacts.

Section MessagingFacts.
Context `{CryptoJS} `{NobleCurves} `{TextCodec} `{KeyStorage}.

Lemma x3dhInitiator_ignores_signature identityKeyPair bundle signature env :
  x3dhInitiator identityKeyPair (withSignature bundle signature) env
  = x3dhInitiator identityKeyPair bundle env.
Proof. reflexivity. Qed.

(** C2 (amended). [x3dhInitiator] does not look at the bundle's signature:
    its outcome is the same under any other signature.  The check is its
    caller's: when [verifySignedPreKey] rejects the fetched bundle,
    [establishSession] raises "Invalid signed pre-key signature" before it
    calls [x3dhInitiator], and leaves the device as it was (no randomness
    drawn, no session stored). *)
Theorem establishSession_rejects_unverified_bundle :
  forall (w : World) toUserId data identityKeyPair signature env,
    keyDirectory w toUserId = Some data ->
    verifySignedPreKey (PreKeyBundle.signedPreKey (decodeBundle data))
      (PreKeyBundle.signedPreKeySignature (decodeBundle data))
      (PreKeyBundle.identityKey (decodeBundle data)) = false ->
    establishSession toUserId w
      = (Throw (Error "Invalid signed pre-key signature"), w) /\
    x3dhInitiator identityKeyPair (withSignature (decodeBundle data) signature) env
      = x3dhInitiator identityKeyPair (decodeBundle data) env.
Proof.
  intros * Hdata Hbad. split; [|apply x3dhInitiator_ignores_signature].
  unfold establishSession, api_get_keys, mbind, SE_bind at 1.
  rewrite Hdata. cbn [fromLib]. cbv zeta. now rewrite Hbad.
Qed.

Lemma liftEnv_posted {A} (m : SE Env A) (w w1 : World) r :
  liftEnv m w = (r, w1) -> posted w1 = posted w.
Proof. unfold liftEnv. destruct (m (env w)). now intros [= _ <-]. Qed.

Lemma liftEnv_Ok {A} (m : SE Env A) (w w1 : World) a :
  liftEnv m w = (Ok a, w1) -> exists e1, m (env w) = (Ok a, e1).
Proof. unfold liftEnv. destruct (m (env w)) as [r e1]. intros [= -> _]. eauto. Qed.

Lemma establishSession_Ok toUserId (w w1 : World) session :
  establishSession toUserId w = (Ok session, w1) ->
  posted w1 = posted w /\
  SessionState.sendingChainKey session = Some (replicate 32 x00).
Proof.
  unfold establishSession. intros Hrun.
  apply SE_bind_Ok in Hrun as (data & w0 & Hget & Hrun).
  assert (w0 = w) as -> by (unfold api_get_keys in Hget; now injection Hget).
  cbv zeta in Hrun. destruct (negb _); [discriminate|].
  apply SE_bind_Ok in Hrun as (ikp & w0 & [= <- <-] & Hrun).
  destruct (getIdentityKeyPair (keychain w)) as [ikp|]; [|discriminate].
  apply SE_bind_Ok in Hrun as (x3dh & wa & Hx & Hrun).
  apply SE_bind_Ok in Hrun as (s & wb & Hs & Hrun).
  apply SE_bind_Ok in Hrun as ([] & wc & [= <-] & [= <- <-]).
  split.
  - cbn [posted]. rewrite (liftEnv_posted _ _ _ _ Hs). apply (liftEnv_posted _ _ _ _ Hx).
  - apply liftEnv_Ok in Hs as [e1 Hs].
    destruct (initializeSession_run (sharedSecret x3dh)
                (PreKeyBundle.identityKey (decodeBundle data)) true (env wa))
      as (sid & e2 & Hinit).
    rewrite Hinit in Hs. now injection Hs as <- _.
Qed.

(** C7 (as the code behaves). The first message to a peer, sent when no
    session is stored for it: [sendMessage] establishes the session as
    initiator and posts exactly one body, whose [messageType] is [message],
    not [prekey], and whose content is the ciphertext alone.  Neither the
    body nor the envelope it is built from has the ephemeral key of
    [x3dhInitiator]; [establishSession] drops it. *)
Theorem first_message_carries_no_base_key :
  forall (w w' : World) toUserId content type sent,
    getSession toUserId (keychain w) = None ->
    sendMessage toUserId content type w = (Ok sent, w') ->
    exists now,
      posted w' = posted w ++
        [ {| Payload.toUserId := toUserId;
             Payload.type := type;
             Payload.encryptedContent :=
               uint8ArrayToBase64
                 (TextEncoder_encode
                    (aes256Encrypt content (replicate 32 x00) (replicate 16 x00)));
             Payload.messageType := EncryptedMessage.message;
             Payload.registrationId := 0;
             Payload.timestamp := now |} ].
Proof.
  intros * Hnone Hrun. unfold sendMessage in Hrun.
  apply SE_bind_Ok in Hrun as (stored & w0 & [= <- <-] & Hrun).
  rewrite Hnone in Hrun.
  apply SE_bind_Ok in Hrun as (session & w1 & Hest & Hrun).
  apply establishSession_Ok in Hest as [Hposted Hck].
  rewrite (ratchetEncrypt_sending _ _ _ Hck) in Hrun.
  apply SE_bind_Ok in Hrun as ([e s'] & w2 & [= <- <- <-] & Hrun).
  apply SE_bind_Ok in Hrun as ([] & w3 & [= <-] & Hrun).
  apply SE_bind_Ok in Hrun as (now & w4 & Hnow & Hrun).
  assert (posted w4 = posted w) as Hp4.
  { rewrite (liftEnv_posted _ _ _ _ Hnow). exact Hposted. }
  apply liftEnv_Ok in Hnow as [e1 [= <- _]].
  apply SE_bind_Ok in Hrun as (response & w5 & Hpost & [= _ <-]).
  unfold api_post_messages in Hpost. injection Hpost as _ <-.
  exists (clock (env w1)). cbn [posted]. now rewrite Hp4.
Qed.

End MessagingFacts.

(** ** What the ratchet can overwrite *)

Section MemFacts.
Context `{CryptoJS} `{TextCodec}.

Lemma keeps_refl n h : keeps n h h.
Proof. split; auto. Qed.

Lemma keeps_trans n h1 h2 h3 : keeps n h1 h2 -> keeps n h2 h3 -> keeps n h1 h3.
Proof.
  intros [Hl1 Hk1] [Hl2 Hk2]. split; [lia|].
  intros r Hr. now rewrite Hk2, Hk1.
Qed.

Lemma above_ret n {A} (a : A) (Q : A -> Prop) : Q a -> above n (mret a) Q.
Proof. intros HQ h _. split; [apply keeps_refl|]. now intros ? [= <-]. Qed.

Lemma above_throw n {A} e (Q : A -> Prop) : above n (throw e) Q.
Proof. intros h _. split; [apply keeps_refl | discriminate]. Qed.

Lemma above_liftR n {A} (r : Result A) : above n (liftR r) (fun _ => True).
Proof. intros h _. split; [apply keeps_refl | auto]. Qed.

Lemma above_bind n {A B} (m : Mem.M A) (k : A -> Mem.M B) Q R :
  above n m Q -> (forall a, Q a -> above n (k a) R) -> above n (m ≫= k) R.
Proof.
  intros Hm Hk h Hn. destruct (Hm h Hn) as [Hkeep HQ].
  unfold mbind, SE_bind. destruct (m h) as [[a|e] h1]; cbn [fst snd] in *.
  - destruct (Hk a (HQ a eq_refl) h1) as [Hkeep' HR]; [destruct Hkeep; lia|].
    split; [eapply keeps_trans; eassumption | exact HR].
  - split; [exact Hkeep | discriminate].
Qed.

(** A bind whose first part promises nothing about its result. *)
Lemma above_seq n {A B} (m : Mem.M A) (k : A -> Mem.M B) Q R :
  above n m Q -> (forall a, above n (k a) R) -> above n (m ≫= k) R.
Proof. intros Hm Hk. eapply above_bind; [exact Hm | auto]. Qed.

Lemma above_alloc n c : above n (Mem.alloc c) (fun r => n <= r).
Proof.
  intros h Hn. unfold Mem.alloc. cbn [fst snd]. split; [split|].
  - rewrite length_app. lia.
  - intros r Hr. apply lookup_app_l. lia.
  - now intros a [= <-].
Qed.

Lemma above_load n r : above n (Mem.load r) (fun _ => True).
Proof.
  intros h _. unfold Mem.load. repeat case_match; cbn [fst snd];
    (split; [apply keeps_refl | auto]).
Qed.

Lemma above_loadSession n r : above n (Mem.loadSession r) (fun _ => True).
Proof.
  intros h _. unfold Mem.loadSession. repeat case_match; cbn [fst snd];
    (split; [apply keeps_refl | auto]).
Qed.

Lemma above_store n r b : n <= r -> above n (Mem.store r b) (fun _ => True).
Proof.
  intros Hr h _. unfold Mem.store. cbn [fst snd]. split; [split|auto].
  - now rewrite length_insert.
  - intros i Hi. apply list_lookup_insert_ne. lia.
Qed.

Lemma above_anew n len : above n (Mem.anew len) (fun r => n <= r).
Proof. apply above_alloc. Qed.

Lemma above_alen n a : above n (Mem.alen a) (fun _ => True).
Proof. eapply above_seq; [apply above_load | intros; now apply above_ret]. Qed.

Lemma above_aset n dst src off : n <= dst -> above n (Mem.aset dst src off) (fun _ => True).
Proof.
  intros Hd. unfold Mem.aset.
  eapply above_seq; [apply above_load | intros d].
  eapply above_seq; [apply above_load | intros s].
  eapply above_seq; [apply above_liftR | intros d'].
  now apply above_store.
Qed.

Lemma above_aslice n a i j : above n (Mem.aslice a i j) (fun r => n <= r).
Proof. eapply above_seq; [apply above_load | intros; apply above_alloc]. Qed.

Lemma above_aput n a i v : n <= a -> above n (Mem.aput a i v) (fun _ => True).
Proof.
  intros Ha. eapply above_seq; [apply above_load | intros; now apply above_store].
Qed.

Lemma above_afill n a v : n <= a -> above n (Mem.afill a v) (fun _ => True).
Proof.
  intros Ha. eapply above_seq; [apply above_load | intros; now apply above_store].
Qed.

Lemma above_hmacSha256 n message key :
  above n (Mem.hmacSha256 message key) (fun r => n <= r).
Proof.
  unfold Mem.hmacSha256.
  eapply above_seq; [apply above_load | intros m].
  eapply above_seq; [apply above_load | intros k].
  apply above_anew.
Qed.

Lemma above_hkdf_expand n fuel : forall prk info len output t off counter,
  n <= output ->
  above n (Mem.hkdf_expand fuel prk info len output t off counter) (fun r => n <= r).
Proof.
  induction fuel as [|fuel IH]; intros prk info len output t off counter Hout;
    cbn [Mem.hkdf_expand]; destruct (off <? len)%nat;
    try (now apply above_ret); [apply above_throw|].
  eapply above_seq; [apply above_alen | intros tlen].
  eapply above_seq; [apply above_alen | intros ilen].
  eapply above_bind; [apply above_anew | intros data Hdata].
  eapply above_seq; [now apply above_aset | intros _].
  eapply above_seq; [now apply above_aset | intros _].
  eapply above_seq; [apply above_alen | intros dlen].
  eapply above_seq; [now apply above_aput | intros _].
  eapply above_bind; [apply above_hmacSha256 | intros t' Ht'].
  cbv zeta.
  eapply above_seq; [apply above_alen | intros tlen'].
  eapply above_bind; [apply above_aslice | intros piece Hpiece].
  eapply above_seq; [now apply above_aset | intros _].
  now apply IH.
Qed.

Lemma above_hkdf n ikm salt info len :
  above n (Mem.hkdf ikm salt info len) (fun r => n <= r).
Proof.
  unfold Mem.hkdf.
  eapply above_bind; [apply above_hmacSha256 | intros prk _].
  eapply above_bind; [apply above_anew | intros output Hout].
  eapply above_bind; [apply above_anew | intros t _].
  now apply above_hkdf_expand.
Qed.

Lemma above_ratchetChainKey n chainKey :
  above n (Mem.ratchetChainKey chainKey) (fun step => n <= step.1 /\ n <= step.2).
Proof.
  unfold Mem.ratchetChainKey.
  eapply above_bind; [apply above_alloc | intros chainInput _].
  eapply above_bind; [apply above_hmacSha256 | intros newChainKey Hnew].
  eapply above_bind; [apply above_alloc | intros messageInput _].
  eapply above_bind; [apply above_hmacSha256 | intros messageKey Hmsg].
  now apply above_ret.
Qed.

Lemma above_deriveMessageKeys n seed messageKey :
  above n (Mem.deriveMessageKeys seed messageKey)
    (fun keys => n <= Mem.MessageKeys.cipherKey keys /\
                 n <= Mem.MessageKeys.macKey keys /\
                 n <= Mem.MessageKeys.iv keys).
Proof.
  unfold Mem.deriveMessageKeys.
  eapply above_bind; [apply above_anew | intros salt _]. cbv zeta.
  eapply above_bind; [apply above_hkdf | intros keyMaterial _].
  eapply above_bind; [apply above_aslice | intros cipherKey Hc].
  eapply above_bind; [apply above_aslice | intros macKey Hm].
  eapply above_bind; [apply above_aslice | intros iv Hi].
  now apply above_ret.
Qed.

Lemma above_aes256Encrypt n plaintext key iv :
  above n (Mem.aes256Encrypt plaintext key iv) (fun _ => True).
Proof.
  unfold Mem.aes256Encrypt.
  eapply above_seq; [apply above_load | intros k].
  eapply above_seq; [apply above_load | intros i].
  now apply above_ret.
Qed.

Lemma above_aes256Decrypt n ciphertext key iv :
  above n (Mem.aes256Decrypt ciphertext key iv) (fun _ => True).
Proof.
  unfold Mem.aes256Decrypt.
  eapply above_seq; [apply above_load | intros k].
  eapply above_seq; [apply above_load | intros i].
  apply above_liftR.
Qed.

Lemma above_ratchetEncrypt n seed session plaintext :
  above n (Mem.ratchetEncrypt seed session plaintext) (fun _ => True).
Proof.
  unfold Mem.ratchetEncrypt.
  eapply above_seq; [apply above_loadSession | intros s].
  destruct (Mem.SessionState.sendingChainKey s) as [ck|]; [|apply above_throw].
  eapply above_bind; [apply above_ratchetChainKey | intros [newChainKey messageKey] [_ Hmk]].
  eapply above_bind; [apply above_deriveMessageKeys | intros keys (Hc & Hm & _)].
  eapply above_seq; [apply above_aes256Encrypt | intros ciphertext].
  eapply above_seq; [apply above_alloc | intros ct]. cbv zeta.
  eapply above_seq; [apply above_alloc | intros newSession].
  eapply above_seq; [now apply above_afill | intros _].
  eapply above_seq; [now apply above_afill | intros _].
  eapply above_seq; [now apply above_afill | intros _].
  now apply above_ret.
Qed.

Lemma above_ratchetDecrypt n seed session encrypted :
  above n (Mem.ratchetDecrypt seed session encrypted) (fun _ => True).
Proof.
  unfold Mem.ratchetDecrypt.
  eapply above_seq; [apply above_loadSession | intros s].
  destruct (Mem.SessionState.receivingChainKey s) as [ck|]; [|apply above_throw].
  eapply above_bind; [apply above_ratchetChainKey | intros [newChainKey messageKey] [_ Hmk]].
  eapply above_bind; [apply above_deriveMessageKeys | intros keys (Hc & Hm & _)].
  eapply above_seq; [apply above_load | intros ciphertext]. cbv zeta.
  eapply above_seq; [apply above_aes256Decrypt | intros plaintext].
  eapply above_seq; [apply above_alloc | intros newSession].
  eapply above_seq; [now apply above_afill | intros _].
  eapply above_seq; [now apply above_afill | intros _].
  eapply above_seq; [now apply above_afill | intros _].
  now apply above_ret.
Qed.

End MemFacts.

(** ** The heap runs compute what the runs on values compute *)

Section Refinement.
Context `{CryptoJS} `{TextCodec}.

Lemma bufferAt_app h k r b : bufferAt h r = Some b -> bufferAt (h ++ k) r = Some b.
Proof.
  unfold bufferAt. destruct (h !! r) as [c|] eqn:Hr; [|discriminate].
  now rewrite (lookup_app_l_Some _ _ _ _ Hr).
Qed.

Lemma bufferAt_lookup h r b : bufferAt h r = Some b -> h !! r = Some (Mem.Buffer b).
Proof. unfold bufferAt. repeat case_match; congruence. Qed.

Lemma bufferAt_lt h r b : bufferAt h r = Some b -> r < length h.
Proof.
  unfold bufferAt. destruct (h !! r) eqn:Hr; [|discriminate].
  intros _. now apply lookup_lt_Some in Hr.
Qed.

Lemma bufferAt_last h b : bufferAt (h ++ [Mem.Buffer b]) (length h) = Some b.
Proof. unfold bufferAt. now rewrite list_lookup_middle. Qed.

Lemma optionalBufferAt_app h k o v :
  optionalBufferAt h o = Some v -> optionalBufferAt (h ++ k) o = Some v.
Proof.
  destruct o as [r|]; cbn; [|auto].
  destruct (bufferAt h r) as [b|] eqn:Hb; [|discriminate].
  now rewrite (bufferAt_app _ k _ _ Hb).
Qed.

Lemma load_run h r b : bufferAt h r = Some b -> Mem.load r h = (Ok b, h).
Proof.
  unfold bufferAt, Mem.load. destruct (h !! r) as [[]|]; now intros [= ->].
Qed.

Lemma alen_run h r b : bufferAt h r = Some b -> Mem.alen r h = (Ok (length b), h).
Proof. intros Hb. unfold Mem.alen, mbind, SE_bind. now rewrite (load_run _ _ _ Hb). Qed.

(** Overwriting the newest cell. *)
Lemma insert_last (h : Mem.heap) c c' : <[length h := c']> (h ++ [c]) = h ++ [c'].
Proof. rewrite insert_app_r_alt by lia. now rewrite Nat.sub_diag. Qed.

Lemma hmacSha256_run h m k bm bk :
  bufferAt h m = Some bm -> bufferAt h k = Some bk ->
  Mem.hmacSha256 m k h = (Ok (length h), h ++ [Mem.Buffer (replicate 32 x00)]).
Proof.
  intros Hm Hk. unfold Mem.hmacSha256, mbind, SE_bind.
  rewrite (load_run _ _ _ Hm), (load_run _ _ _ Hk). cbv zeta.
  now rewrite HmacSHA256_words.
Qed.

Lemma aset_run h dst src off d s :
  bufferAt h dst = Some d -> bufferAt h src = Some s ->
  off + length s <= length d ->
  Mem.aset dst src off h
  = (Ok tt, <[dst := Mem.Buffer (take off d ++ s ++ drop (off + length s) d)]> h).
Proof.
  intros Hd Hs Hfit. unfold Mem.aset, mbind, SE_bind.
  rewrite (load_run _ _ _ Hd), (load_run _ _ _ Hs).
  now rewrite (Uint8Array_set_fits _ _ _ Hfit).
Qed.

Lemma bind_run {A B} (m : Mem.M A) (k : A -> Mem.M B) h a h1 :
  m h = (Ok a, h1) -> (m ≫= k) h = k a h1.
Proof. intros Hm. unfold mbind, SE_bind. now rewrite Hm. Qed.

Lemma bind_unfold {A B} (m : Mem.M A) (k : A -> Mem.M B) h :
  (m ≫= k) h
  = match m h with
    | (Ok a, h1) => k a h1
    | (Throw e, h1) => (Throw e, h1)
    end.
Proof. reflexivity. Qed.

Lemma aset_last h d src off s :
  bufferAt h src = Some s -> off + length s <= length d ->
  exists d', length d' = length d /\
    Mem.aset (length h) src off (h ++ [Mem.Buffer d]) = (Ok tt, h ++ [Mem.Buffer d']).
Proof.
  intros Hs Hfit. eexists. split; [|].
  2:{ rewrite (aset_run _ _ _ _ d s); [ | apply bufferAt_last | now apply bufferAt_app | exact Hfit].
      now rewrite insert_last. }
  rewrite !length_app, length_take, length_drop. lia.
Qed.

Lemma aput_last h d i v :
  exists d', length d' = length d /\
    Mem.aput (length h) i v (h ++ [Mem.Buffer d]) = (Ok tt, h ++ [Mem.Buffer d']).
Proof.
  exists (<[i := v]> d). split; [apply length_insert|].
  unfold Mem.aput. rewrite (bind_run _ _ _ d _ (load_run _ _ _ (bufferAt_last h d))).
  unfold Mem.store. now rewrite insert_last.
Qed.

Lemma aslice_run h a i j b :
  bufferAt h a = Some b ->
  Mem.aslice a i j h = (Ok (length h), h ++ [Mem.Buffer (Uint8Array_slice b i j)]).
Proof. intros Hb. unfold Mem.aslice. now rewrite (bind_run _ _ _ _ _ (load_run _ _ _ Hb)). Qed.

(** Copying zeros into a buffer of zeros leaves the heap as it is. *)
Lemma aset_zeros h output piece off len k :
  bufferAt h output = Some (replicate len x00) ->
  bufferAt h piece = Some (replicate k x00) ->
  off + k <= len ->
  Mem.aset output piece off h = (Ok tt, h).
Proof.
  intros Hout Hpiece Hfit.
  rewrite (aset_run _ _ _ _ _ _ Hout Hpiece) by (rewrite !length_replicate; lia).
  f_equal. apply list_insert_id.
  rewrite (bufferAt_lookup _ _ _ Hout). do 2 f_equal.
  rewrite length_replicate, take_replicate, drop_replicate, <- !replicate_add.
  f_equal. lia.
Qed.

Lemma hkdf_expand_run fuel : forall h prk info len output t off counter bprk binfo bt,
  bufferAt h prk = Some bprk -> bufferAt h info = Some binfo ->
  bufferAt h t = Some bt ->
  bufferAt h output = Some (replicate len x00) ->
  off <= len -> len - off <= fuel ->
  exists k, Mem.hkdf_expand fuel prk info len output t off counter h = (Ok output, h ++ k).
Proof.
  induction fuel as [|fuel IH];
    intros h prk info len output t off counter bprk binfo bt Hprk Hinfo Ht Hout Hle Hfuel;
    cbn [Mem.hkdf_expand];
    destruct (Nat.ltb_spec off len) as [Hlt|];
    try (exists []; now rewrite app_nil_r); [lia|].
  rewrite (bind_run _ _ _ _ _ (alen_run _ _ _ Ht)).
  rewrite (bind_run _ _ _ _ _ (alen_run _ _ _ Hinfo)).
  rewrite (bind_run _ _ _ (length h) (h ++ [Mem.Buffer (replicate (length bt + length binfo + 1) x00)]))
    by reflexivity.
  destruct (aset_last h (replicate (length bt + length binfo + 1) x00) t 0 bt Ht)
    as (d1 & Hd1 & Hset1); [rewrite length_replicate; lia|].
  rewrite (bind_run _ _ _ _ _ Hset1).
  destruct (aset_last h d1 info (length bt) binfo Hinfo)
    as (d2 & Hd2 & Hset2); [rewrite Hd1, length_replicate; lia|].
  rewrite (bind_run _ _ _ _ _ Hset2).
  rewrite (bind_run _ _ _ _ _ (alen_run _ _ _ (bufferAt_last h d2))).
  destruct (aput_last h d2 (length d2 - 1) (toUint8 counter)) as (d3 & Hd3 & Hput).
  rewrite (bind_run _ _ _ _ _ Hput).
  rewrite (bind_run _ _ _ _ _
             (hmacSha256_run _ _ _ _ _ (bufferAt_last h d3) (bufferAt_app _ _ _ _ Hprk))).
  cbv zeta.
  rewrite (bind_run _ _ _ _ _ (alen_run _ _ _ (bufferAt_last _ (replicate 32 x00)))).
  rewrite (bind_run _ _ _ _ _ (aslice_run _ _ 0 _ _ (bufferAt_last _ (replicate 32 x00)))).
  rewrite length_replicate.
  unfold Uint8Array_slice. rewrite drop_0, take_replicate.
  set (h3 := ((h ++ [Mem.Buffer d3]) ++ [Mem.Buffer (replicate 32 x00)])).
  set (piece := replicate _ x00).
  assert (bufferAt (h3 ++ [Mem.Buffer piece]) output = Some (replicate len x00)) as Hout'
    by (now do 3 apply bufferAt_app).
  rewrite (bind_run _ _ _ tt (h3 ++ [Mem.Buffer piece])).
  2:{ eapply aset_zeros; [exact Hout' | apply bufferAt_last | lia]. }
  destruct (IH (h3 ++ [Mem.Buffer piece]) prk info len output (length (h ++ [Mem.Buffer d3]))
              (off + 32 `min` (len - off)) (counter + 1) bprk binfo (replicate 32 x00))
    as [k Hk]; try lia.
  - now do 3 apply bufferAt_app.
  - now do 3 apply bufferAt_app.
  - apply bufferAt_app. apply bufferAt_last.
  - exact Hout'.
  - rewrite Hk. subst h3. exists ([Mem.Buffer d3; Mem.Buffer (replicate 32 x00); Mem.Buffer piece] ++ k).
    now rewrite <- !app_assoc.
Qed.

Lemma hkdf_run h ikm salt info len bikm bsalt binfo :
  bufferAt h ikm = Some bikm -> bufferAt h salt = Some bsalt ->
  bufferAt h info = Some binfo ->
  exists r k,
    Mem.hkdf ikm salt info len h = (Ok r, h ++ k) /\
    bufferAt (h ++ k) r = Some (replicate len x00) /\ length h <= r.
Proof.
  intros Hikm Hsalt Hinfo. unfold Mem.hkdf.
  rewrite (bind_run _ _ _ _ _ (hmacSha256_run _ _ _ _ _ Hikm Hsalt)).
  set (h1 := h ++ [Mem.Buffer (replicate 32 x00)]).
  rewrite (bind_run _ _ _ (length h1) (h1 ++ [Mem.Buffer (replicate len x00)])) by reflexivity.
  set (h2 := h1 ++ [Mem.Buffer (replicate len x00)]).
  rewrite (bind_run _ _ _ (length h2) (h2 ++ [Mem.Buffer []])) by reflexivity.
  destruct (hkdf_expand_run len (h2 ++ [Mem.Buffer []]) (length h) info len (length h1)
              (length h2) 0 1 (replicate 32 x00) binfo [])
    as [k Hk]; try lia.
  - do 2 apply bufferAt_app. apply bufferAt_last.
  - now do 3 apply bufferAt_app.
  - apply bufferAt_last.
  - apply bufferAt_app. apply bufferAt_last.
  - exists (length h1),
      ([Mem.Buffer (replicate 32 x00); Mem.Buffer (replicate len x00); Mem.Buffer []] ++ k).
    rewrite Hk. subst h2 h1. rewrite <- !app_assoc. cbn [app]. split; [reflexivity|].
    split; [|rewrite length_app; lia].
    change (h ++ Mem.Buffer (replicate 32 x00) :: Mem.Buffer (replicate len x00)
              :: Mem.Buffer [] :: k)
      with (h ++ [Mem.Buffer (replicate 32 x00)] ++ [Mem.Buffer (replicate len x00)]
              ++ (Mem.Buffer [] :: k)).
    rewrite !app_assoc. apply bufferAt_app. apply bufferAt_last.
Qed.

Lemma ratchetChainKey_run h chainKey b :
  bufferAt h chainKey = Some b ->
  Mem.ratchetChainKey chainKey h
  = (Ok (S (length h), S (S (S (length h)))),
     h ++ [Mem.Buffer [x02]; Mem.Buffer (replicate 32 x00);
           Mem.Buffer [x01]; Mem.Buffer (replicate 32 x00)]).
Proof.
  intros Hck. unfold Mem.ratchetChainKey.
  rewrite (bind_run _ _ _ (length h) (h ++ [Mem.Buffer [x02]])) by reflexivity.
  rewrite (bind_run _ _ _ _ _
             (hmacSha256_run _ _ _ _ _ (bufferAt_last h [x02]) (bufferAt_app _ _ _ _ Hck))).
  set (h2 := (h ++ [Mem.Buffer [x02]]) ++ [Mem.Buffer (replicate 32 x00)]).
  rewrite (bind_run _ _ _ (length h2) (h2 ++ [Mem.Buffer [x01]])) by reflexivity.
  rewrite (bind_run _ _ _ _ _
             (hmacSha256_run _ (length h2) chainKey _ _ (bufferAt_last h2 [x01])
                (bufferAt_app _ _ _ _ (bufferAt_app _ _ _ _ (bufferAt_app _ _ _ _ Hck))))).
  subst h2. rewrite !length_app. cbn [length].
  rewrite <- !app_assoc. cbn [app]. unfold mret, SE_ret.
  replace (length h + 1) with (S (length h)) by lia.
  replace (S (length h) + 1 + 1) with (S (S (S (length h)))) by lia. reflexivity.
Qed.

Lemma deriveMessageKeys_run h seed messageKey bseed bmk :
  bufferAt h seed = Some bseed -> bufferAt h messageKey = Some bmk ->
  exists keys k,
    Mem.deriveMessageKeys seed messageKey h = (Ok keys, h ++ k) /\
    bufferAt (h ++ k) (Mem.MessageKeys.cipherKey keys) = Some (replicate 32 x00) /\
    bufferAt (h ++ k) (Mem.MessageKeys.macKey keys) = Some (replicate 32 x00) /\
    bufferAt (h ++ k) (Mem.MessageKeys.iv keys) = Some (replicate 16 x00).
Proof.
  intros Hseed Hmk. unfold Mem.deriveMessageKeys.
  rewrite (bind_run _ _ _ (length h) (h ++ [Mem.Buffer (replicate 32 x00)])) by reflexivity.
  cbv zeta.
  destruct (hkdf_run (h ++ [Mem.Buffer (replicate 32 x00)]) messageKey (length h) seed 80
              bmk (replicate 32 x00) bseed)
    as (r & k & Hrun & Hr & _);
    [now apply bufferAt_app | apply bufferAt_last | now apply bufferAt_app |].
  rewrite (bind_run _ _ _ _ _ Hrun).
  set (h1 := (h ++ [Mem.Buffer (replicate 32 x00)]) ++ k) in *.
  rewrite (bind_run _ _ _ _ _ (aslice_run h1 r 0 32 _ Hr)).
  rewrite (bind_run _ _ _ _ _ (aslice_run _ r 32 64 _ (bufferAt_app _ _ _ _ Hr))).
  rewrite (bind_run _ _ _ _ _
             (aslice_run _ r 64 80 _ (bufferAt_app _ _ _ _ (bufferAt_app _ _ _ _ Hr)))).
  cbn [mret SE_ret].
  set (c := Uint8Array_slice (replicate 80 x00) 0 32).
  set (m := Uint8Array_slice (replicate 80 x00) 32 64).
  set (i := Uint8Array_slice (replicate 80 x00) 64 80).
  exists (Mem.MessageKeys.mk (length h1) (length (h1 ++ [Mem.Buffer c]))
            (length ((h1 ++ [Mem.Buffer c]) ++ [Mem.Buffer m]))),
         ([Mem.Buffer (replicate 32 x00)] ++ k ++ [Mem.Buffer c; Mem.Buffer m; Mem.Buffer i]).
  assert (((h1 ++ [Mem.Buffer c]) ++ [Mem.Buffer m]) ++ [Mem.Buffer i]
          = h ++ [Mem.Buffer (replicate 32 x00)] ++ k
              ++ [Mem.Buffer c; Mem.Buffer m; Mem.Buffer i]) as Heq
    by (subst h1; now rewrite <- !app_assoc).
  rewrite <- Heq. cbn [Mem.MessageKeys.cipherKey Mem.MessageKeys.macKey Mem.MessageKeys.iv].
  repeat split.
  - do 2 apply bufferAt_app. apply bufferAt_last.
  - apply bufferAt_app. apply bufferAt_last.
  - apply bufferAt_last.
Qed.

Lemma afill_zeros h r n :
  bufferAt h r = Some (replicate n x00) -> Mem.afill r x00 h = (Ok tt, h).
Proof.
  intros Hr. unfold Mem.afill. rewrite (bind_run _ _ _ _ _ (load_run _ _ _ Hr)).
  unfold Mem.store. f_equal. apply list_insert_id.
  now rewrite length_replicate, (bufferAt_lookup _ _ _ Hr).
Qed.

Lemma optionalBufferAt_Some h r v :
  optionalBufferAt h (Some r) = Some v -> exists b, bufferAt h r = Some b /\ v = Some b.
Proof. cbn. destruct (bufferAt h r); [intros [= <-]; eauto | discriminate]. Qed.

Lemma sessionAt_inv h r session :
  sessionAt h r = Some session ->
  exists s,
    h !! r = Some (Mem.Session s) /\
    bufferAt h (Mem.SessionState.remoteIdentityKey s)
      = Some (SessionState.remoteIdentityKey session) /\
    bufferAt h (Mem.SessionState.rootKey s) = Some (SessionState.rootKey session) /\
    bufferAt h (Mem.SessionState.chainKey s) = Some (SessionState.chainKey session) /\
    optionalBufferAt h (Mem.SessionState.sendingChainKey s)
      = Some (SessionState.sendingChainKey session) /\
    optionalBufferAt h (Mem.SessionState.receivingChainKey s)
      = Some (SessionState.receivingChainKey session) /\
    Mem.SessionState.sessionId s = SessionState.sessionId session /\
    Mem.SessionState.messageNumber s = SessionState.messageNumber session /\
    Mem.SessionState.previousCounter s = SessionState.previousCounter session.
Proof.
  unfold sessionAt. destruct (h !! r) as [[b|s]|]; try discriminate.
  destruct (bufferAt h (Mem.SessionState.remoteIdentityKey s)) eqn:E1; [|discriminate].
  destruct (bufferAt h (Mem.SessionState.rootKey s)) eqn:E2; [|discriminate].
  destruct (bufferAt h (Mem.SessionState.chainKey s)) eqn:E3; [|discriminate].
  destruct (optionalBufferAt h (Mem.SessionState.sendingChainKey s)) eqn:E4; [|discriminate].
  destruct (optionalBufferAt h (Mem.SessionState.receivingChainKey s)) eqn:E5;
    [|discriminate].
  cbn. intros [= <-]. exists s. cbn. rewrite E1, E2, E3, E4, E5. repeat split; reflexivity.
Qed.

Lemma loadSession_run h r s :
  h !! r = Some (Mem.Session s) -> Mem.loadSession r h = (Ok s, h).
Proof. intros Hr. unfold Mem.loadSession. now rewrite Hr. Qed.

Lemma aes256Decrypt_run h ciphertext key iv bk bi :
  bufferAt h key = Some bk -> bufferAt h iv = Some bi ->
  Mem.aes256Decrypt ciphertext key iv h = (aes256Decrypt ciphertext bk bi, h).
Proof.
  intros Hk Hi. unfold Mem.aes256Decrypt.
  rewrite (bind_run _ _ _ _ _ (load_run _ _ _ Hk)), (bind_run _ _ _ _ _ (load_run _ _ _ Hi)).
  reflexivity.
Qed.

Lemma aes256Encrypt_run h plaintext key iv bk bi :
  bufferAt h key = Some bk -> bufferAt h iv = Some bi ->
  Mem.aes256Encrypt plaintext key iv h = (Ok (aes256Encrypt plaintext bk bi), h).
Proof.
  intros Hk Hi. unfold Mem.aes256Encrypt.
  rewrite (bind_run _ _ _ _ _ (load_run _ _ _ Hk)), (bind_run _ _ _ _ _ (load_run _ _ _ Hi)).
  reflexivity.
Qed.

(** The ratchet step and the key derivation that open both paths. *)
Lemma ratchet_keys_run h seed chainKey bseed bck :
  bufferAt h seed = Some bseed -> bufferAt h chainKey = Some bck ->
  exists newChainKey messageKey keys l1 l2,
    Mem.ratchetChainKey chainKey h = (Ok (newChainKey, messageKey), h ++ l1) /\
    Mem.deriveMessageKeys seed messageKey (h ++ l1) = (Ok keys, (h ++ l1) ++ l2) /\
    bufferAt ((h ++ l1) ++ l2) newChainKey = Some (replicate 32 x00) /\
    bufferAt ((h ++ l1) ++ l2) messageKey = Some (replicate 32 x00) /\
    bufferAt ((h ++ l1) ++ l2) (Mem.MessageKeys.cipherKey keys) = Some (replicate 32 x00) /\
    bufferAt ((h ++ l1) ++ l2) (Mem.MessageKeys.macKey keys) = Some (replicate 32 x00) /\
    bufferAt ((h ++ l1) ++ l2) (Mem.MessageKeys.iv keys) = Some (replicate 16 x00).
Proof.
  intros Hseed Hck.
  set (l1 := [Mem.Buffer [x02]; Mem.Buffer (replicate 32 x00); Mem.Buffer [x01];
              Mem.Buffer (replicate 32 x00)]).
  assert (bufferAt (h ++ l1) (S (S (S (length h)))) = Some (replicate 32 x00)) as Hmk.
  { change l1 with ([Mem.Buffer [x02]; Mem.Buffer (replicate 32 x00); Mem.Buffer [x01]]
                      ++ [Mem.Buffer (replicate 32 x00)]).
    rewrite app_assoc.
    replace (S (S (S (length h))))
      with (length (h ++ [Mem.Buffer [x02]; Mem.Buffer (replicate 32 x00); Mem.Buffer [x01]]))
      by (rewrite length_app; cbn [length]; lia).
    apply bufferAt_last. }
  assert (bufferAt (h ++ l1) (S (length h)) = Some (replicate 32 x00)) as Hnck.
  { change l1 with ([Mem.Buffer [x02]] ++ [Mem.Buffer (replicate 32 x00)]
                      ++ [Mem.Buffer [x01]; Mem.Buffer (replicate 32 x00)]).
    rewrite !app_assoc. apply bufferAt_app.
    replace (S (length h)) with (length (h ++ [Mem.Buffer [x02]]))
      by (rewrite length_app; cbn [length]; lia).
    apply bufferAt_last. }
  destruct (deriveMessageKeys_run (h ++ l1) seed (S (S (S (length h)))) bseed _
              (bufferAt_app _ _ _ _ Hseed) Hmk)
    as (keys & l2 & Hkeys & Hc & Hm & Hi).
  exists (S (length h)), (S (S (S (length h)))), keys, l1, l2.
  split; [now apply (ratchetChainKey_run h chainKey bck)|].
  split; [exact Hkeys|].
  repeat split; try assumption; now apply bufferAt_app.
Qed.

Lemma sessionAt_app h k r session :
  sessionAt h r = Some session -> sessionAt (h ++ k) r = Some session.
Proof.
  intros Hs. apply sessionAt_inv in Hs
    as (s & Hs & Hrik & Hrk & Hck & Hsend & Hrecv & Hid & Hnum & Hprev).
  unfold sessionAt. rewrite (lookup_app_l_Some _ _ _ _ Hs).
  rewrite (bufferAt_app _ k _ _ Hrik), (bufferAt_app _ k _ _ Hrk), (bufferAt_app _ k _ _ Hck).
  rewrite (optionalBufferAt_app _ k _ _ Hsend), (optionalBufferAt_app _ k _ _ Hrecv).
  cbn. rewrite Hid, Hnum, Hprev. now destruct session.
Qed.

(** X1. The heap run of [ratchetDecrypt] computes what the run on values
    computes: the same plaintext and a new session object that stands for
    the same new session, or the same exception; on success the input
    session object still stands for the input session. *)
Theorem ratchetDecrypt_refines :
  forall seed (h : Mem.heap) sref e session encrypted bseed,
    bufferAt h seed = Some bseed ->
    sessionAt h sref = Some session ->
    envelopeAt h e = Some encrypted ->
    match ratchetDecrypt session encrypted with
    | Ok (plaintext, newSession) =>
        exists sref' h',
          Mem.ratchetDecrypt seed sref e h = (Ok (plaintext, sref'), h') /\
          sessionAt h' sref' = Some newSession /\
          sessionAt h' sref = Some session
    | Throw x => exists h', Mem.ratchetDecrypt seed sref e h = (Throw x, h')
    end.
Proof.
  intros * Hseed Hsession Henv.
  pose proof Hsession as Hsession0.
  apply sessionAt_inv in Hsession
    as (s & Hs & Hrik & Hrk & Hck & Hsend & Hrecv & Hid & Hnum & Hprev).
  unfold Mem.ratchetDecrypt, ratchetDecrypt.
  rewrite (bind_run _ _ _ _ _ (loadSession_run _ _ _ Hs)).
  destruct (Mem.SessionState.receivingChainKey s) as [ck|] eqn:Hrck.
  2:{ injection Hrecv as <-. eexists. reflexivity. }
  apply optionalBufferAt_Some in Hrecv as (bck & Hbck & Hrecv). rewrite Hrecv.
  destruct (ratchet_keys_run h seed ck bseed bck Hseed Hbck)
    as (nck & mk & keys & l1 & l2 & Hstep & Hkeys & Hnck & Hmk & Hc & Hm & Hi).
  rewrite (bind_run _ _ _ _ _ Hstep), (bind_run _ _ _ _ _ Hkeys), deriveMessageKeys_ok. step.
  unfold envelopeAt in Henv.
  destruct (bufferAt h (Mem.EncryptedMessage.ciphertext e)) as [ct|] eqn:Hct; [|discriminate].
  destruct (optionalBufferAt h (Mem.EncryptedMessage.baseKey e)); [|discriminate].
  destruct (optionalBufferAt h (Mem.EncryptedMessage.identityKey e)); [|discriminate].
  cbn in Henv. injection Henv as <-. cbn [EncryptedMessage.ciphertext].
  rewrite (bind_run _ _ _ _ _
             (load_run _ _ _ (bufferAt_app _ l2 _ _ (bufferAt_app _ l1 _ _ Hct)))).
  cbv zeta. cbn [MessageKeys.cipherKey MessageKeys.iv].
  rewrite bind_unfold, (aes256Decrypt_run _ _ _ _ _ _ Hc Hi).
  destruct (aes256Decrypt _ _ _) as [plaintext|x]; step; [|eexists; reflexivity].
  match goal with
  | |- context [Mem.alloc ?c] =>
      rewrite (bind_run _ _ _ (length ((h ++ l1) ++ l2)) (((h ++ l1) ++ l2) ++ [c]))
        by reflexivity
  end.
  rewrite (bind_run _ _ _ tt _ (afill_zeros _ _ _ (bufferAt_app _ _ _ _ Hc))).
  rewrite (bind_run _ _ _ tt _ (afill_zeros _ _ _ (bufferAt_app _ _ _ _ Hm))).
  rewrite (bind_run _ _ _ tt _ (afill_zeros _ _ _ (bufferAt_app _ _ _ _ Hmk))).
  do 2 eexists. split; [reflexivity|].
  split; [|now do 3 apply sessionAt_app].
  unfold sessionAt. rewrite list_lookup_middle by reflexivity.
  cbn [Mem.SessionState.remoteIdentityKey Mem.SessionState.rootKey
       Mem.SessionState.chainKey Mem.SessionState.sendingChainKey
       Mem.SessionState.receivingChainKey Mem.SessionState.sessionId
       Mem.SessionState.messageNumber Mem.SessionState.previousCounter].
  rewrite (bufferAt_app _ _ _ _ (bufferAt_app _ _ _ _ (bufferAt_app _ _ _ _ Hrik))).
  rewrite (bufferAt_app _ _ _ _ (bufferAt_app _ _ _ _ (bufferAt_app _ _ _ _ Hrk))).
  rewrite (bufferAt_app _ _ _ _ (bufferAt_app _ _ _ _ (bufferAt_app _ _ _ _ Hck))).
  rewrite (optionalBufferAt_app _ _ _ _
             (optionalBufferAt_app _ _ _ _ (optionalBufferAt_app _ _ _ _ Hsend))).
  cbn [optionalBufferAt].
  rewrite (bufferAt_app _ _ _ _ Hnck).
  rewrite ratchetChainKey_zero, Hid, Hnum. reflexivity.
Qed.

(** X2. Likewise for [ratchetEncrypt]: the same envelope, with its
    ciphertext in a new buffer, and a new session object for the same new
    session, or the same exception. *)
Theorem ratchetEncrypt_refines :
  forall seed (h : Mem.heap) sref plaintext session bseed,
    bufferAt h seed = Some bseed ->
    sessionAt h sref = Some session ->
    match ratchetEncrypt session plaintext with
    | Ok (encrypted, newSession) =>
        exists e sref' h',
          Mem.ratchetEncrypt seed sref plaintext h = (Ok (e, sref'), h') /\
          envelopeAt h' e = Some encrypted /\
          sessionAt h' sref' = Some newSession /\
          sessionAt h' sref = Some session
    | Throw x => exists h', Mem.ratchetEncrypt seed sref plaintext h = (Throw x, h')
    end.
Proof.
  intros * Hseed Hsession.
  pose proof Hsession as Hsession0.
  apply sessionAt_inv in Hsession
    as (s & Hs & Hrik & Hrk & Hck & Hsend & Hrecv & Hid & Hnum & Hprev).
  unfold Mem.ratchetEncrypt, ratchetEncrypt.
  rewrite (bind_run _ _ _ _ _ (loadSession_run _ _ _ Hs)).
  destruct (Mem.SessionState.sendingChainKey s) as [ck|] eqn:Hsck.
  2:{ injection Hsend as <-. eexists. reflexivity. }
  apply optionalBufferAt_Some in Hsend as (bck & Hbck & Hsend). rewrite Hsend.
  destruct (ratchet_keys_run h seed ck bseed bck Hseed Hbck)
    as (nck & mk & keys & l1 & l2 & Hstep & Hkeys & Hnck & Hmk & Hc & Hm & Hi).
  rewrite (bind_run _ _ _ _ _ Hstep), (bind_run _ _ _ _ _ Hkeys), deriveMessageKeys_ok. step.
  cbn [MessageKeys.cipherKey MessageKeys.iv].
  rewrite (bind_run _ _ _ _ _ (aes256Encrypt_run _ plaintext _ _ _ _ Hc Hi)).
  set (h2 := (h ++ l1) ++ l2) in *.
  set (ct := TextEncoder_encode _).
  rewrite (bind_run _ _ _ (length h2) (h2 ++ [Mem.Buffer ct])) by reflexivity.
  cbv zeta.
  match goal with
  | |- context [Mem.alloc ?c] =>
      rewrite (bind_run _ _ _ (length (h2 ++ [Mem.Buffer ct])) ((h2 ++ [Mem.Buffer ct]) ++ [c]))
        by reflexivity
  end.
  rewrite (bind_run _ _ _ tt _
             (afill_zeros _ _ _ (bufferAt_app _ _ _ _ (bufferAt_app _ _ _ _ Hc)))).
  rewrite (bind_run _ _ _ tt _
             (afill_zeros _ _ _ (bufferAt_app _ _ _ _ (bufferAt_app _ _ _ _ Hm)))).
  rewrite (bind_run _ _ _ tt _
             (afill_zeros _ _ _ (bufferAt_app _ _ _ _ (bufferAt_app _ _ _ _ Hmk)))).
  do 3 eexists. split; [reflexivity|].
  split; [|split].
  - unfold envelopeAt.
    cbn [Mem.EncryptedMessage.ciphertext Mem.EncryptedMessage.baseKey
         Mem.EncryptedMessage.identityKey optionalBufferAt].
    rewrite (bufferAt_app _ _ _ _ (bufferAt_last h2 ct)). reflexivity.
  - unfold sessionAt. rewrite list_lookup_middle by reflexivity.
    cbn [Mem.SessionState.remoteIdentityKey Mem.SessionState.rootKey
         Mem.SessionState.chainKey Mem.SessionState.sendingChainKey
         Mem.SessionState.receivingChainKey Mem.SessionState.sessionId
         Mem.SessionState.messageNumber Mem.SessionState.previousCounter].
    subst h2.
    rewrite (bufferAt_app _ _ _ _ (bufferAt_app _ _ _ _
               (bufferAt_app _ _ _ _ (bufferAt_app _ _ _ _ Hrik)))).
    rewrite (bufferAt_app _ _ _ _ (bufferAt_app _ _ _ _
               (bufferAt_app _ _ _ _ (bufferAt_app _ _ _ _ Hrk)))).
    rewrite (bufferAt_app _ _ _ _ (bufferAt_app _ _ _ _
               (bufferAt_app _ _ _ _ (bufferAt_app _ _ _ _ Hck)))).
    rewrite (optionalBufferAt_app _ _ _ _ (optionalBufferAt_app _ _ _ _
               (optionalBufferAt_app _ _ _ _ (optionalBufferAt_app _ _ _ _ Hrecv)))).
    cbn [optionalBufferAt].
    rewrite (bufferAt_app _ _ _ _ (bufferAt_app _ _ _ _ Hnck)).
    rewrite ratchetChainKey_zero, Hid, Hnum, Hprev. reflexivity.
  - subst h2. now do 4 apply sessionAt_app.
Qed.

End Refinement.

(** ** Further properties of the code *)

Section MoreFacts.
Context `{CryptoJS} `{NobleCurves} `{TextCodec}.

(** X3. Neither [ratchetEncrypt] nor [ratchetDecrypt], whatever its
    outcome, changes an object that existed before the call: the [fill(0)]
    calls reach only buffers the call itself allocated. *)
Theorem ratchet_writes_only_new_objects :
  forall seed session plaintext encrypted (h : Mem.heap) r c,
    h !! r = Some c ->
    (Mem.ratchetEncrypt seed session plaintext h).2 !! r = Some c /\
    (Mem.ratchetDecrypt seed session encrypted h).2 !! r = Some c.
Proof.
  intros * Hr. pose proof (lookup_lt_Some _ _ _ Hr) as Hlt. split.
  - destruct (above_ratchetEncrypt (length h) seed session plaintext h) as [[_ Hkeep] _];
      [lia|]. now rewrite Hkeep.
  - destruct (above_ratchetDecrypt (length h) seed session encrypted h) as [[_ Hkeep] _];
      [lia|]. now rewrite Hkeep.
Qed.

(** X4. [x3dhInitiator] and [x3dhResponder] raise only when the curve
    library rejects a key.  The initiator returns 32 zero bytes and the
    public key of the ephemeral private key it drew exactly when
    [getPublicKey] and the calls DH(IK_A[0..32], SPK_B), DH(EK_A, IK_B),
    DH(EK_A, SPK_B) and, with a one-time pre-key, DH(EK_A, OPK_B) all
    accept; the responder returns 32 zero bytes exactly when its three or
    four calls accept.  Assembling the outputs with [set] never raises. *)
Theorem x3dh_raises_only_on_rejected_keys :
  forall initiator bundle env responder spk opk remoteIdentityKey remoteEphemeralKey,
    (x3dhInitiator initiator bundle env).1
    = (let ephemeralPrivate := map (entropy env) (seq 0 32) in
       match x25519_getPublicKey ephemeralPrivate with
       | None => Throw (LibraryError "x25519.getPublicKey")
       | Some ephemeralPublic =>
           if initiatorAgreementsDefined initiator bundle ephemeralPrivate
           then Ok (mkX3DHOutput (replicate 32 x00) ephemeralPublic)
           else Throw (LibraryError "x25519.getSharedSecret")
       end) /\
    x3dhResponder responder spk opk remoteIdentityKey remoteEphemeralKey
    = (if responderAgreementsDefined responder spk opk remoteIdentityKey remoteEphemeralKey
       then Ok (replicate 32 x00)
       else Throw (LibraryError "x25519.getSharedSecret")).
Proof.
  intros. split.
  - unfold x3dhInitiator, initiatorAgreementsDefined, getSharedSecret, randomBytes,
      generateRandomBytes.
    cbv zeta. unfold mbind at 1, SE_bind at 1.
    destruct (x25519_getPublicKey _) as [ephemeralPublic|]; [|reflexivity].
    unfold mbind at 1, SE_bind at 1. cbn [liftR fromLib].
    destruct (x25519_getSharedSecret (Uint8Array_slice _ 0 32) _) as [dh1|];
      [|reflexivity].
    unfold mbind at 1, SE_bind at 1. cbn [liftR fromLib].
    destruct (x25519_getSharedSecret _ (PreKeyBundle.identityKey bundle)) as [dh2|];
      [|reflexivity].
    unfold mbind at 1, SE_bind at 1. cbn [liftR fromLib].
    destruct (x25519_getSharedSecret _ (PreKeyBundle.signedPreKey bundle)) as [dh3|];
      [|reflexivity].
    unfold mbind at 1, SE_bind at 1. cbn [liftR fromLib].
    rewrite concat3_ok. unfold mbind at 1, SE_bind at 1. cbn [liftR].
    destruct (PreKeyBundle.preKey bundle) as [preKey|].
    + destruct (x25519_getSharedSecret _ preKey) as [dh4|]; [|reflexivity].
      step. rewrite appendDh4_ok. unfold mbind, SE_bind, liftR. cbv beta iota.
      rewrite hkdf_zero. reflexivity.
    + unfold mbind, SE_bind, liftR. cbv beta iota. rewrite hkdf_zero. reflexivity.
  - unfold x3dhResponder, responderAgreementsDefined, getSharedSecret.
    destruct (x25519_getSharedSecret _ (Uint8Array_slice remoteIdentityKey 0 32));
      [|reflexivity].
    destruct (x25519_getSharedSecret (Uint8Array_slice _ 0 32) remoteEphemeralKey);
      [|reflexivity].
    destruct (x25519_getSharedSecret _ remoteEphemeralKey); [|reflexivity].
    step. rewrite concat3_ok. step.
    destruct opk as [k|]; step.
    + destruct (x25519_getSharedSecret _ remoteEphemeralKey); [|reflexivity].
      step. rewrite appendDh4_ok. step. apply hkdf_zero.
    + apply hkdf_zero.
Qed.

Lemma generatePreKeys_from_ids startId n : forall i acc env keys env',
  generatePreKeys_from startId i n acc env = (Ok keys, env') ->
  map PreKey.keyId keys
  = map PreKey.keyId acc ++ map (fun j => (startId + Z.of_nat j)%Z) (seq i n).
Proof.
  induction n as [|n IH]; intros i acc env keys env' Hrun; cbn [generatePreKeys_from] in Hrun.
  - injection Hrun as <- _. cbn. now rewrite app_nil_r.
  - apply SE_bind_Ok in Hrun as (priv & e1 & _ & Hrun).
    apply SE_bind_Ok in Hrun as (pub & e2 & _ & Hrun).
    apply IH in Hrun. rewrite Hrun, map_app, <- app_assoc. reflexivity.
Qed.

(** X6. When [generatePreKeys(startId, count)] returns, it returns [count]
    pre-keys whose ids are [startId], [startId + 1], ... in order, as long
    as the ids stay within the integers a number holds exactly. *)
Theorem generatePreKeys_ids :
  forall startId count env keys env',
    (Z.abs startId + Z.of_nat count <= 2 ^ 53)%Z ->
    generatePreKeys startId count env = (Ok keys, env') ->
    map PreKey.keyId keys = map (fun j => (startId + Z.of_nat j)%Z) (seq 0 count) /\
    length keys = count.
Proof.
  intros * _ Hrun. apply generatePreKeys_from_ids in Hrun. cbn [map app] in Hrun.
  split; [exact Hrun|].
  apply (f_equal length) in Hrun. now rewrite !length_map, length_seq in Hrun.
Qed.

(** X7. The unit test of the ratchet: after [initializeSession] as
    initiator, one [ratchetEncrypt] succeeds and the new session has
    [messageNumber] 1. *)
Theorem first_encrypt_counts_one :
  forall sharedSecret remoteIdentityKey plaintext env,
  exists session env' encrypted newSession,
    initializeSession sharedSecret remoteIdentityKey true env = (Ok session, env') /\
    ratchetEncrypt session plaintext = Ok (encrypted, newSession) /\
    SessionState.messageNumber newSession = 1%Z.
Proof.
  intros sharedSecret remoteIdentityKey plaintext env.
  destruct (initializeSession_run sharedSecret remoteIdentityKey true env)
    as (sid & env' & Hrun).
  do 4 eexists. split; [exact Hrun|].
  split; [now apply (ratchetEncrypt_sending _ _ (replicate 32 x00))|]. reflexivity.
Qed.

End MoreFacts.

(** ** The rest of crypto/utils.ts *)

Lemma byteZ_inj x y : byteZ x = byteZ y -> x = y.
Proof.
  unfold byteZ. intros Heq. apply N2Z.inj in Heq.
  apply (f_equal Byte.of_N) in Heq. rewrite !Byte.of_to_N in Heq. congruence.
Qed.

Lemma byteZ_nonneg x : (0 <= byteZ x)%Z.
Proof. unfold byteZ. lia. Qed.

Lemma compare_fold_nonneg (a b : bytes) idx : forall acc,
  (0 <= acc)%Z ->
  (0 <= fold_left (fun result i => Z.lor result (Z.lxor (byteAt a i) (byteAt b i))) idx acc)%Z.
Proof.
  induction idx as [|i idx IH]; intros acc Hacc; cbn [fold_left]; [exact Hacc|].
  apply IH. apply Z.lor_nonneg. split; [exact Hacc|].
  apply Z.lxor_nonneg. unfold byteAt.
  destruct (a !! i), (b !! i); pose proof byteZ_nonneg; split; intros; auto; lia.
Qed.

Lemma compare_fold_zero (a b : bytes) idx : forall acc,
  fold_left (fun result i => Z.lor result (Z.lxor (byteAt a i) (byteAt b i))) idx acc = 0%Z
  <-> acc = 0%Z /\ Forall (fun i => byteAt a i = byteAt b i) idx.
Proof.
  induction idx as [|i idx IH]; intros acc; cbn [fold_left].
  - split; [auto | tauto].
  - rewrite IH, Z.lor_eq_0_iff, Forall_cons. split.
    + intros [[-> Hx] Hall]. apply Z.lxor_eq in Hx. auto.
    + intros [-> [-> Hall]]. rewrite Z.lxor_nilpotent. auto.
Qed.

(** X8. [constantTimeCompare] returns [true] exactly when the two buffers
    are equal: same length and the same byte at every index. *)
Theorem constantTimeCompare_iff_equal :
  forall a b, constantTimeCompare a b = true <-> a = b.
Proof.
  intros a b. unfold constantTimeCompare.
  destruct (Nat.eqb_spec (length a) (length b)) as [Hlen|Hlen]; cbn [negb].
  - cbv zeta. rewrite Z.eqb_eq, compare_fold_zero. split.
    + intros [_ Hall]. apply list_eq_same_length with (length a); [now symmetry | reflexivity |].
      intros i x y Hi Hx Hy. rewrite Forall_forall in Hall.
      assert (byteAt a i = byteAt b i) as Heq
        by (apply Hall; first [apply elem_of_seq | apply in_seq]; lia).
      unfold byteAt, bytes in *. rewrite Hx, Hy in Heq. now apply byteZ_inj.
    + intros ->. split; [reflexivity|]. now apply Forall_forall.
  - split; [discriminate | intros ->; contradiction].
Qed.

Section HashFacts.
Context `{CryptoJS} `{CryptoJSHash}.

Lemma sha256_unrolled data :
  sha256 data = flat_map wordBytes (words (SHA256 (WordArray_create data))).
Proof.
  unfold sha256. cbv zeta.
  pose proof (SHA256_words (WordArray_create data)) as Hlen.
  destruct (words (SHA256 (WordArray_create data)))
    as [|w0 [|w1 [|w2 [|w3 [|w4 [|w5 [|w6 [|w7 [|w8 ws]]]]]]]]]; try discriminate.
  reflexivity.
Qed.

End HashFacts.

Lemma toUint8_byteZ b : toUint8 (Z.to_nat (byteZ b)) = b.
Proof. destruct b; vm_compute; reflexivity. Qed.

Lemma byteZ_lt b : (0 <= byteZ b < 256)%Z.
Proof.
  unfold byteZ. pose proof (Byte.to_N_bounded b). lia.
Qed.

Lemma wordBytes_mod w : wordBytes (w mod 2 ^ 32) = wordBytes w.
Proof. unfold wordBytes. now rewrite Zmod_mod. Qed.

Lemma packed_digits (a b c d : Z) :
  (0 <= a < 256 -> 0 <= b < 256 -> 0 <= c < 256 -> 0 <= d < 256 ->
   let w := a * 16777216 + b * 65536 + c * 256 + d in
   w mod 4294967296 = w /\ (w / 16777216) mod 256 = a /\ (w / 65536) mod 256 = b /\
   (w / 256) mod 256 = c /\ (w / 1) mod 256 = d)%Z.
Proof.
  intros Ha Hb Hc Hd w. subst w. split; [apply Z.mod_small; lia|].
  split; [|split; [|split]].
  - replace ((a * 16777216 + b * 65536 + c * 256 + d) / 16777216)%Z with a;
      [apply Z.mod_small; lia|].
    apply Z.div_unique with (b * 65536 + c * 256 + d)%Z; lia.
  - replace ((a * 16777216 + b * 65536 + c * 256 + d) / 65536)%Z with (a * 256 + b)%Z;
      [symmetry; apply Z.mod_unique with a; lia|].
    apply Z.div_unique with (c * 256 + d)%Z; lia.
  - replace ((a * 16777216 + b * 65536 + c * 256 + d) / 256)%Z
      with (a * 65536 + b * 256 + c)%Z;
      [symmetry; apply Z.mod_unique with (a * 256 + b)%Z; lia|].
    apply Z.div_unique with d; lia.
  - rewrite Z.div_1_r. symmetry.
    apply Z.mod_unique with (a * 65536 + b * 256 + c)%Z; lia.
Qed.

Lemma wordBytes_packed b0 b1 b2 b3 :
  wordBytes (byteZ b0 * 2 ^ 24 + byteZ b1 * 2 ^ 16 + byteZ b2 * 2 ^ 8 + byteZ b3)
  = [b0; b1; b2; b3].
Proof.
  unfold wordBytes. cbn [map].
  change 255%Z with (Z.ones 8).
  rewrite !Z.land_ones, !Z.shiftr_div_pow2 by lia.
  change (2 ^ 32)%Z with 4294967296%Z. change (2 ^ 24)%Z with 16777216%Z.
  change (2 ^ 16)%Z with 65536%Z. change (2 ^ 8)%Z with 256%Z. change (2 ^ 0)%Z with 1%Z.
  destruct (packed_digits (byteZ b0) (byteZ b1) (byteZ b2) (byteZ b3))
    as (-> & -> & -> & -> & ->); try apply byteZ_lt.
  now rewrite !toUint8_byteZ.
Qed.

Lemma bytes_of_bigEndianWords_step b0 b1 b2 b3 rest :
  flat_map wordBytes (bigEndianWords (b0 :: b1 :: b2 :: b3 :: rest))
  = b0 :: b1 :: b2 :: b3 :: flat_map wordBytes (bigEndianWords rest).
Proof.
  cbn [bigEndianWords flat_map]. now rewrite wordBytes_packed.
Qed.

Lemma take_bytes_of_bigEndianWords n : forall b,
  length b <= n ->
  take (length b) (flat_map wordBytes (bigEndianWords b)) = b.
Proof.
  induction n as [n IH] using lt_wf_ind. intros b Hn.
  destruct b as [|b0 [|b1 [|b2 [|b3 rest]]]].
  - reflexivity.
  - pose proof (wordBytes_packed b0 x00 x00 x00) as Hw.
    change (byteZ x00) with 0%Z in Hw. rewrite !Z.mul_0_l, !Z.add_0_r in Hw.
    cbn [bigEndianWords flat_map]. now rewrite Hw.
  - pose proof (wordBytes_packed b0 b1 x00 x00) as Hw.
    change (byteZ x00) with 0%Z in Hw. rewrite !Z.mul_0_l, !Z.add_0_r in Hw.
    cbn [bigEndianWords flat_map]. now rewrite Hw.
  - pose proof (wordBytes_packed b0 b1 b2 x00) as Hw.
    change (byteZ x00) with 0%Z in Hw. rewrite !Z.add_0_r in Hw.
    cbn [bigEndianWords flat_map]. now rewrite Hw.
  - rewrite bytes_of_bigEndianWords_step. cbn [length take]. do 4 f_equal.
    cbn [length] in Hn. apply (IH (n - 4)); lia.
Qed.

Lemma byteZ_toUint8 (z : Z) : (0 <= z < 256)%Z -> byteZ (toUint8 (Z.to_nat z)) = z.
Proof.
  intros Hz. unfold byteZ, toUint8.
  rewrite Nat.mod_small by lia.
  destruct (Byte.of_N (N.of_nat (Z.to_nat z))) as [b|] eqn:Hb.
  - apply Byte.to_of_N in Hb. rewrite Hb. lia.
  - apply Byte.of_N_None_iff in Hb. lia.
Qed.

Lemma word_of_wordBytes w :
  bigEndianWords (wordBytes w) = [(w mod 2 ^ 32)%Z].
Proof.
  unfold wordBytes. cbn [map bigEndianWords].
  change 255%Z with (Z.ones 8).
  rewrite !Z.land_ones, !Z.shiftr_div_pow2 by lia.
  change (2 ^ 32)%Z with 4294967296%Z. change (2 ^ 24)%Z with 16777216%Z.
  change (2 ^ 16)%Z with 65536%Z. change (2 ^ 8)%Z with 256%Z. change (2 ^ 0)%Z with 1%Z.
  set (v := (w mod 4294967296)%Z).
  assert (0 <= v < 4294967296)%Z as Hv by (apply Z.mod_pos_bound; lia).
  rewrite !byteZ_toUint8 by (apply Z.mod_pos_bound; lia).
  f_equal. rewrite Z.div_1_r.
  replace (v / 16777216)%Z with (v / 256 / 256 / 256)%Z
    by (rewrite !Z.div_div by lia; reflexivity).
  replace (v / 65536)%Z with (v / 256 / 256)%Z by (rewrite !Z.div_div by lia; reflexivity).
  assert (v / 256 / 256 / 256 < 256)%Z.
  { rewrite !Z.div_div by lia. apply Z.div_lt_upper_bound; lia. }
  rewrite (Z.mod_small (v / 256 / 256 / 256)) by (split; [repeat apply Z.div_pos|]; lia).
  Z.div_mod_to_equations. lia.
Qed.

Lemma words_of_wordBytes ws :
  bigEndianWords (flat_map wordBytes ws) = map (fun w => w mod 2 ^ 32)%Z ws.
Proof.
  induction ws as [|w ws IH]; [reflexivity|].
  pose proof (word_of_wordBytes w) as Hw. cbn [flat_map map].
  unfold wordBytes in *. cbn [map app] in *.
  cbn [bigEndianWords] in *. injection Hw as ->. now rewrite IH.
Qed.

Section DigestFacts.
Context `{CryptoJS} `{CryptoJSHash}.

(** X9. [sha256] returns the digest CryptoJS computed: 32 bytes, the eight
    words of the hash most significant byte first, so that reading the
    bytes back four at a time gives each word's 32-bit pattern; its
    sibling [hmacSha256] returns zero bytes instead. *)
Theorem sha256_digest_bytes :
  forall data,
    sha256 data = flat_map wordBytes (words (SHA256 (WordArray_create data))) /\
    length (sha256 data) = 32 /\
    bigEndianWords (sha256 data)
      = map (fun w => w mod 2 ^ 32)%Z (words (SHA256 (WordArray_create data))).
Proof.
  intros data. rewrite sha256_unrolled, words_of_wordBytes.
  split; [reflexivity|]. split; [|reflexivity].
  pose proof (SHA256_words (WordArray_create data)) as Hlen.
  destruct (words (SHA256 (WordArray_create data)))
    as [|w0 [|w1 [|w2 [|w3 [|w4 [|w5 [|w6 [|w7 [|w8 ws]]]]]]]]]; try discriminate.
  reflexivity.
Qed.

End DigestFacts.

Section Base64Facts.
Context `{Base64Codec}.

Lemma bytes_of_created b :
  flat_map wordBytes (words (WordArray_create b)) = flat_map wordBytes (bigEndianWords b).
Proof.
  rewrite <- WordArray_create_words.
  induction (words (WordArray_create b)) as [|w ws IH]; [reflexivity|].
  cbn [map flat_map]. now rewrite wordBytes_mod, IH.
Qed.

Lemma base64ToUint8Array_uint8ArrayToBase64 b :
  base64ToUint8Array (uint8ArrayToBase64 b) = b.
Proof.
  unfold base64ToUint8Array, uint8ArrayToBase64. cbv zeta.
  rewrite Base64_parse_stringify, WordArray_create_sigBytes, bytes_of_created.
  unfold Uint8Array_slice. rewrite drop_0.
  now apply (take_bytes_of_bigEndianWords (length b)).
Qed.

(** X10. [base64ToUint8Array] undoes [uint8ArrayToBase64]: the bytes read
    back from the Base64 text of a buffer are the buffer's, whatever its
    length; the last word's padding is cut off at [sigBytes]. *)
Theorem base64_round_trip :
  forall b, base64ToUint8Array (uint8ArrayToBase64 b) = b.
Proof. exact base64ToUint8Array_uint8ArrayToBase64. Qed.

End Base64Facts.

(** ** Signed pre-keys *)

Section SignedPreKeyFacts.
Context `{CryptoJS} `{NobleCurves} `{TextCodec} `{!Ed25519Contract}.




End SignedPreKeyFacts.

(** ** The rest of crypto/doubleRatchet.ts *)

Section RatchetMoreFacts.
Context `{CryptoJS} `{TextCodec}.

(** X13. [dhRatchet] returns the same keys whatever the root key and the
    Diffie-Hellman output: a new root key and a new chain key of 32 zero
    bytes each. *)
Theorem dhRatchet_constant :
  forall rootKey dhOutput,
    dhRatchet rootKey dhOutput
    = Ok {| RootStep.newRootKey := replicate 32 x00;
            RootStep.newChainKey := replicate 32 x00 |}.
Proof.
  intros. unfold dhRatchet. cbv zeta. now rewrite hkdf_zero.
Qed.


End RatchetMoreFacts.

Section CleanupFacts.
Context `{CryptoJS} `{TextCodec}.

Lemma afill_run h r b :
  bufferAt h r = Some b ->
  Mem.afill r x00 h = (Ok tt, <[r := Mem.Buffer (zeroBytes b)]> h).
Proof.
  intros Hb. unfold Mem.afill. now rewrite (bind_run _ _ _ _ _ (load_run _ _ _ Hb)).
Qed.

Lemma zeroed_buffer R h h' r :
  zeroed R h h' -> is_Some (bufferAt h r) -> is_Some (bufferAt h' r).
Proof.
  intros (_ & Hin & Hout) [b Hb]. destruct (decide (r ∈ R)) as [Hr|Hr].
  - destruct (Hin r Hr) as (b' & _ & ->). eauto.
  - unfold bufferAt in *. rewrite (Hout r Hr). eauto.
Qed.

Lemma zeroBytes_length b : length (zeroBytes b) = length b.
Proof. apply length_replicate. Qed.

Lemma zeroBytes_idemp b : zeroBytes (zeroBytes b) = zeroBytes b.
Proof. unfold zeroBytes. now rewrite length_replicate. Qed.

Lemma zeroed_app R1 R2 h h1 h2 :
  zeroed R1 h h1 -> zeroed R2 h1 h2 -> zeroed (R1 ++ R2) h h2.
Proof.
  intros (Hl1 & Hin1 & Hout1) (Hl2 & Hin2 & Hout2). split; [congruence|]. split.
  - intros r Hr. destruct (decide (r ∈ R2)) as [Hr2|Hr2].
    + destruct (Hin2 r Hr2) as (b1 & Hb1 & Hb2). destruct (decide (r ∈ R1)) as [Hr1|Hr1].
      * destruct (Hin1 r Hr1) as (b & Hb & Hb'). exists b. split; [exact Hb|].
        rewrite Hb' in Hb1. injection Hb1 as <-. now rewrite zeroBytes_idemp in Hb2.
      * exists b1. split; [|exact Hb2]. unfold bufferAt in *. now rewrite <- (Hout1 r Hr1).
    + assert (r ∈ R1) as Hr1 by (apply elem_of_app in Hr as [|]; [assumption | contradiction]).
      destruct (Hin1 r Hr1) as (b & Hb & Hb'). exists b. split; [exact Hb|].
      unfold bufferAt in *. now rewrite (Hout2 r Hr2).
  - intros r Hr. rewrite elem_of_app in Hr.
    rewrite Hout2, Hout1; [reflexivity | tauto | tauto].
Qed.

Lemma wipes_ret : wipes [] (mret tt).
Proof.
  intros h _. exists h. split; [reflexivity|]. split; [reflexivity|].
  split; [intros r Hr; now apply elem_of_nil in Hr | auto].
Qed.

Lemma wipes_afill r : wipes [r] (Mem.afill r x00).
Proof.
  intros h Hall. apply Forall_singleton in Hall as [b Hb].
  eexists. split; [apply (afill_run _ _ _ Hb)|]. split; [apply length_insert|]. split.
  - intros r' ->%list_elem_of_singleton. exists b. split; [exact Hb|].
    unfold bufferAt. rewrite list_lookup_insert_eq; [reflexivity|].
    now apply bufferAt_lt in Hb.
  - intros r' Hr'. apply list_lookup_insert_ne. intros ->. apply Hr'. now left.
Qed.

Lemma wipes_seq R1 R2 (m1 m2 : Mem.M unit) :
  wipes R1 m1 -> wipes R2 m2 -> wipes (R1 ++ R2) (m1 ≫= fun _ => m2).
Proof.
  intros H1 H2 h Hall. apply Forall_app in Hall as [Hall1 Hall2].
  destruct (H1 h Hall1) as (h1 & Hrun1 & Hz1).
  destruct (H2 h1) as (h2 & Hrun2 & Hz2).
  { eapply Forall_impl; [exact Hall2|]. intros r. apply (zeroed_buffer _ _ _ _ Hz1). }
  exists h2. split; [now rewrite (bind_run _ _ _ _ _ Hrun1)|].
  eapply zeroed_app; eassumption.
Qed.

Lemma wipes_optional (o : option Mem.ref) :
  wipes (option_list o)
    match o with Some k => Mem.afill k x00 | None => mret tt end.
Proof. destruct o; [apply wipes_afill | apply wipes_ret]. Qed.

Lemma cleanupSession_wipes_buffers s :
  wipes (keyBuffers s)
    (_ ← Mem.afill (Mem.SessionState.rootKey s) x00;
     _ ← Mem.afill (Mem.SessionState.chainKey s) x00;
     _ ← match Mem.SessionState.sendingChainKey s with
         | Some sendingChainKey => Mem.afill sendingChainKey x00
         | None => mret tt
         end;
     _ ← match Mem.SessionState.receivingChainKey s with
         | Some receivingChainKey => Mem.afill receivingChainKey x00
         | None => mret tt
         end;
     Mem.afill (Mem.SessionState.remoteIdentityKey s) x00).
Proof.
  change (keyBuffers s)
    with ([Mem.SessionState.rootKey s] ++ [Mem.SessionState.chainKey s]
          ++ option_list (Mem.SessionState.sendingChainKey s)
          ++ option_list (Mem.SessionState.receivingChainKey s)
          ++ [Mem.SessionState.remoteIdentityKey s]).
  apply wipes_seq; [apply wipes_afill|].
  apply wipes_seq; [apply wipes_afill|].
  apply wipes_seq; [apply wipes_optional|].
  apply wipes_seq; [apply wipes_optional|].
  apply wipes_afill.
Qed.

Lemma optionalBufferAt_is_Some h o v :
  optionalBufferAt h o = Some v ->
  Forall (fun r => is_Some (bufferAt h r)) (option_list o).
Proof.
  destruct o as [r|]; cbn; [|constructor].
  destruct (bufferAt h r) eqn:Hb; [|discriminate]. intros _. constructor; [eauto | constructor].
Qed.

Lemma keyBuffers_allocated h sref session s :
  sessionAt h sref = Some session -> h !! sref = Some (Mem.Session s) ->
  Forall (fun r => is_Some (bufferAt h r)) (keyBuffers s).
Proof.
  intros Hs Hobj. apply sessionAt_inv in Hs
    as (s' & Hs' & Hrik & Hrk & Hck & Hsend & Hrecv & _).
  assert (s' = s) as -> by congruence.
  unfold keyBuffers. repeat (apply Forall_app; split);
    eauto using optionalBufferAt_is_Some; repeat constructor; eauto.
Qed.

Lemma zeroed_optional R h h' o v :
  zeroed R h h' -> (forall r, o = Some r -> r ∈ R) ->
  optionalBufferAt h o = Some v ->
  optionalBufferAt h' o = Some (zeroBytes <$> v).
Proof.
  intros (_ & Hin & _) HR. destruct o as [r|]; cbn.
  - destruct (Hin r (HR r eq_refl)) as (b & -> & ->). now intros [= <-].
  - now intros [= <-].
Qed.

Lemma keyBuffers_fields s :
  Mem.SessionState.rootKey s ∈ keyBuffers s /\
  Mem.SessionState.chainKey s ∈ keyBuffers s /\
  Mem.SessionState.remoteIdentityKey s ∈ keyBuffers s /\
  (forall r, Mem.SessionState.sendingChainKey s = Some r -> r ∈ keyBuffers s) /\
  (forall r, Mem.SessionState.receivingChainKey s = Some r -> r ∈ keyBuffers s).
Proof.
  unfold keyBuffers. repeat split; try intros r ->; cbn;
    repeat (rewrite elem_of_app || rewrite elem_of_cons); intuition auto.
Qed.

(** What [cleanupSession] does to a session object whose keys are allocated. *)
Lemma cleanupSession_run h sref session :
  sessionAt h sref = Some session ->
  exists s h',
    h !! sref = Some (Mem.Session s) /\
    Mem.cleanupSession sref h = (Ok tt, h') /\
    zeroed (keyBuffers s) h h' /\
    sessionAt h' sref = Some (wipedSession session).
Proof.
  intros Hsession. pose proof Hsession as Hinv. apply sessionAt_inv in Hinv
    as (s & Hs & Hrik & Hrk & Hck & Hsend & Hrecv & Hid & Hnum & Hprev).
  destruct (cleanupSession_wipes_buffers s h (keyBuffers_allocated _ _ _ _ Hsession Hs))
    as (h' & Hrun & Hz).
  exists s, h'. split; [exact Hs|]. split.
  { unfold Mem.cleanupSession. rewrite (bind_run _ _ _ _ _ (loadSession_run _ _ _ Hs)).
    exact Hrun. }
  split; [exact Hz|].
  pose proof Hz as (_ & Hin & Hout).
  assert (sref ∉ keyBuffers s) as Hsref.
  { intros Hr. destruct (Hin sref Hr) as (b & Hb & _).
    apply bufferAt_lookup in Hb. congruence. }
  unfold sessionAt. rewrite (Hout sref Hsref), Hs.
  assert (forall r, r ∈ keyBuffers s -> forall b, bufferAt h r = Some b ->
            bufferAt h' r = Some (zeroBytes b)) as Hz'.
  { intros r Hr b Hb. destruct (Hin r Hr) as (b' & Hb' & ->). congruence. }
  destruct (keyBuffers_fields s) as (Krk & Kck & Krik & Ksend & Krecv).
  rewrite (Hz' _ Krik _ Hrik), (Hz' _ Krk _ Hrk), (Hz' _ Kck _ Hck).
  rewrite (zeroed_optional _ _ _ _ _ Hz Ksend Hsend).
  rewrite (zeroed_optional _ _ _ _ _ Hz Krecv Hrecv).
  cbn. unfold wipedSession. now rewrite Hid, Hnum, Hprev.
Qed.

(** X14. [cleanupSession] on a session object whose keys are allocated
    returns, and afterwards the object stands for the same session with
    the root key, the chain key, both chain keys it has and the remote
    identity key overwritten by zero bytes of the same length.  Nothing is
    allocated, and no object other than these key buffers changes. *)
Theorem cleanupSession_wipes_keys :
  forall (h : Mem.heap) sref session,
    sessionAt h sref = Some session ->
    exists h',
      Mem.cleanupSession sref h = (Ok tt, h') /\
      sessionAt h' sref = Some (wipedSession session) /\
      length h' = length h /\
      forall s r, h !! sref = Some (Mem.Session s) -> r ∉ keyBuffers s -> h' !! r = h !! r.
Proof.
  intros h sref session Hsession.
  destruct (cleanupSession_run h sref session Hsession) as (s & h' & Hs & Hrun & Hz & Hwiped).
  exists h'. split; [exact Hrun|]. split; [exact Hwiped|].
  destruct Hz as (Hlen & _ & Hout). split; [exact Hlen|].
  intros s' r Hs' Hr. assert (s' = s) as -> by congruence. now apply Hout.
Qed.

End CleanupFacts.

Section SharingFacts.
Context `{CryptoJS} `{TextCodec}.

(** The session object [ratchetEncrypt] allocates: the fields of the input
    object, with a new sending chain key and the next message number. *)
Lemma ratchetEncrypt_object seed h sref plaintext session bseed e sref' h' :
  bufferAt h seed = Some bseed ->
  sessionAt h sref = Some session ->
  Mem.ratchetEncrypt seed sref plaintext h = (Ok (e, sref'), h') ->
  exists s newChainKey k,
    h !! sref = Some (Mem.Session s) /\
    h' = h ++ k /\
    bufferAt h' newChainKey = Some (replicate 32 x00) /\
    h' !! sref' = Some (Mem.Session
      {| Mem.SessionState.sessionId := Mem.SessionState.sessionId s;
         Mem.SessionState.remoteIdentityKey := Mem.SessionState.remoteIdentityKey s;
         Mem.SessionState.rootKey := Mem.SessionState.rootKey s;
         Mem.SessionState.chainKey := Mem.SessionState.chainKey s;
         Mem.SessionState.sendingChainKey := Some newChainKey;
         Mem.SessionState.receivingChainKey := Mem.SessionState.receivingChainKey s;
         Mem.SessionState.messageNumber := Mem.SessionState.messageNumber s + 1;
         Mem.SessionState.previousCounter := Mem.SessionState.previousCounter s |}).
Proof.
  intros Hseed Hsession Hrun.
  apply sessionAt_inv in Hsession
    as (s & Hs & Hrik & Hrk & Hck & Hsend & Hrecv & Hid & Hnum & Hprev).
  unfold Mem.ratchetEncrypt in Hrun.
  rewrite (bind_run _ _ _ _ _ (loadSession_run _ _ _ Hs)) in Hrun.
  destruct (Mem.SessionState.sendingChainKey s) as [ck|] eqn:Hsck; [|discriminate].
  apply optionalBufferAt_Some in Hsend as (bck & Hbck & Hsend).
  destruct (ratchet_keys_run h seed ck bseed bck Hseed Hbck)
    as (nck & mk & keys & l1 & l2 & Hstep & Hkeys & Hnck & Hmk & Hc & Hm & Hi).
  rewrite (bind_run _ _ _ _ _ Hstep), (bind_run _ _ _ _ _ Hkeys) in Hrun.
  rewrite (bind_run _ _ _ _ _ (aes256Encrypt_run _ plaintext _ _ _ _ Hc Hi)) in Hrun.
  set (h2 := (h ++ l1) ++ l2) in *.
  set (ct := TextEncoder_encode _) in Hrun.
  rewrite (bind_run _ _ _ (length h2) (h2 ++ [Mem.Buffer ct])) in Hrun by reflexivity.
  cbv zeta in Hrun.
  match type of Hrun with
  | context [Mem.alloc ?c] =>
      rewrite (bind_run _ _ _ (length (h2 ++ [Mem.Buffer ct])) ((h2 ++ [Mem.Buffer ct]) ++ [c]))
        in Hrun by reflexivity
  end.
  rewrite (bind_run _ _ _ tt _
             (afill_zeros _ _ _ (bufferAt_app _ _ _ _ (bufferAt_app _ _ _ _ Hc)))) in Hrun.
  rewrite (bind_run _ _ _ tt _
             (afill_zeros _ _ _ (bufferAt_app _ _ _ _ (bufferAt_app _ _ _ _ Hm)))) in Hrun.
  rewrite (bind_run _ _ _ tt _
             (afill_zeros _ _ _ (bufferAt_app _ _ _ _ (bufferAt_app _ _ _ _ Hmk)))) in Hrun.
  injection Hrun as <- <- <-.
  eexists s, nck, _. split; [exact Hs|]. split.
  { subst h2. rewrite <- !app_assoc. reflexivity. }
  split; [now do 2 apply bufferAt_app|].
  now rewrite list_lookup_middle by reflexivity.
Qed.

Lemma cleanupSession_zeroed h sref s :
  h !! sref = Some (Mem.Session s) ->
  Forall (fun r => is_Some (bufferAt h r)) (keyBuffers s) ->
  exists h', Mem.cleanupSession sref h = (Ok tt, h') /\ zeroed (keyBuffers s) h h'.
Proof.
  intros Hs Hall. destruct (cleanupSession_wipes_buffers s h Hall) as (h' & Hrun & Hz).
  exists h'. split; [|exact Hz].
  unfold Mem.cleanupSession. now rewrite (bind_run _ _ _ _ _ (loadSession_run _ _ _ Hs)).
Qed.

Lemma zeroed_session_cell R h h' r s :
  zeroed R h h' -> h !! r = Some (Mem.Session s) -> h' !! r = Some (Mem.Session s).
Proof.
  intros (_ & Hin & Hout) Hr. rewrite Hout; [exact Hr|].
  intros HR. destruct (Hin r HR) as (b & Hb & _). apply bufferAt_lookup in Hb. congruence.
Qed.

Lemma zeroed_at R h h' r b :
  zeroed R h h' -> r ∈ R -> bufferAt h r = Some b -> bufferAt h' r = Some (zeroBytes b).
Proof. intros (_ & Hin & _) Hr Hb. destruct (Hin r Hr) as (b' & Hb' & ->). congruence. Qed.

Lemma zeroed_optional_some R h h' o v :
  zeroed R h h' -> optionalBufferAt h o = Some v -> is_Some (optionalBufferAt h' o).
Proof.
  intros Hz. destruct o as [r|]; cbn; [|eauto].
  destruct (bufferAt h r) as [b|] eqn:Hb; [|discriminate]. intros _.
  destruct (zeroed_buffer _ _ _ r Hz) as [b' ->]; eauto.
Qed.

(** X15. The session [ratchetEncrypt] returns shares its root key, chain key,
    receiving chain key and remote identity key buffers with the session it
    was given: [cleanupSession] on the new session overwrites them for the
    old session too. *)
Theorem cleanupSession_reaches_shared_keys :
  forall seed (h : Mem.heap) sref plaintext session bseed e sref' h1,
    bufferAt h seed = Some bseed ->
    sessionAt h sref = Some session ->
    Mem.ratchetEncrypt seed sref plaintext h = (Ok (e, sref'), h1) ->
    exists h2 after,
      Mem.cleanupSession sref' h1 = (Ok tt, h2) /\
      sessionAt h2 sref = Some after /\
      SessionState.rootKey after = zeroBytes (SessionState.rootKey session) /\
      SessionState.chainKey after = zeroBytes (SessionState.chainKey session) /\
      SessionState.remoteIdentityKey after
        = zeroBytes (SessionState.remoteIdentityKey session) /\
      SessionState.receivingChainKey after
        = zeroBytes <$> SessionState.receivingChainKey session.
Proof.
  intros * Hseed Hsession Hrun.
  destruct (ratchetEncrypt_object _ _ _ _ _ _ _ _ _ Hseed Hsession Hrun)
    as (s & nck & k & Hs & -> & Hnck & Hnew).
  apply sessionAt_inv in Hsession
    as (s0 & Hs0 & Hrik & Hrk & Hck & Hsend & Hrecv & Hid & Hnum & Hprev).
  assert (s0 = s) as -> by congruence. clear Hs0.
  set (s' := {| Mem.SessionState.sessionId := Mem.SessionState.sessionId s |}) in Hnew.
  destruct (keyBuffers_fields s') as (Krk & Kck & Krik & Ksend & Krecv).
  cbn [Mem.SessionState.rootKey Mem.SessionState.chainKey Mem.SessionState.remoteIdentityKey
       Mem.SessionState.sendingChainKey Mem.SessionState.receivingChainKey s'] in *.
  destruct (cleanupSession_zeroed (h ++ k) sref' s' Hnew) as (h2 & Hclean & Hz).
  { unfold keyBuffers, s'.
    cbn [Mem.SessionState.rootKey Mem.SessionState.chainKey
         Mem.SessionState.remoteIdentityKey Mem.SessionState.sendingChainKey
         Mem.SessionState.receivingChainKey option_list].
    repeat (apply Forall_app; split).
    - repeat constructor; eexists; apply bufferAt_app; eassumption.
    - repeat constructor. eauto.
    - eapply optionalBufferAt_is_Some. apply optionalBufferAt_app. exact Hrecv.
    - repeat constructor; eexists; apply bufferAt_app; eassumption. }
  pose proof (zeroed_at _ _ _ _ _ Hz Krk (bufferAt_app _ k _ _ Hrk)) as Hrk2.
  pose proof (zeroed_at _ _ _ _ _ Hz Kck (bufferAt_app _ k _ _ Hck)) as Hck2.
  pose proof (zeroed_at _ _ _ _ _ Hz Krik (bufferAt_app _ k _ _ Hrik)) as Hrik2.
  pose proof (zeroed_optional _ _ _ _ _ Hz Krecv (optionalBufferAt_app _ k _ _ Hrecv))
    as Hrecv2.
  destruct (zeroed_optional_some _ _ _ _ _ Hz (optionalBufferAt_app _ k _ _ Hsend))
    as [send2 Hsend2].
  exists h2. eexists. split; [exact Hclean|]. split.
  { unfold sessionAt.
    rewrite (zeroed_session_cell _ _ _ _ _ Hz (lookup_app_l_Some _ k _ _ Hs)).
    rewrite Hrik2, Hrk2, Hck2, Hsend2, Hrecv2. reflexivity. }
  cbn. auto.
Qed.

End SharingFacts.

Section InitFacts.
Context `{CryptoJS} `{TextCodec}.

Lemma onHeap_run {A} (m : Mem.M A) h env a h' :
  m h = (Ok a, h') -> Mem.onHeap m (h, env) = (Ok a, (h', env)).
Proof. intros Hm. unfold Mem.onHeap. now rewrite Hm. Qed.

Lemma bind_run' {S A B} (m : SE S A) (k : A -> SE S B) s a s1 :
  m s = (Ok a, s1) -> (m ≫= k) s = k a s1.
Proof. intros Hm. unfold mbind, SE_bind. now rewrite Hm. Qed.

(** X16. [initializeSession] on the heap computes the session of the run on
    values; the session object holds the caller's [remoteIdentityKey] buffer
    itself, and one buffer serves as [chainKey] and as the initiator's
    [sendingChainKey].  Hence [cleanupSession] on the new session zeroes the
    buffer the caller passed as [remoteIdentityKey]. *)
Theorem initializeSession_keeps_callers_buffer :
  forall rootSeed chainSeed (h : Mem.heap) sharedSecret remoteIdentityKey isInitiator env
         bsecret bidentity broot bchain,
    bufferAt h sharedSecret = Some bsecret ->
    bufferAt h remoteIdentityKey = Some bidentity ->
    bufferAt h rootSeed = Some broot ->
    bufferAt h chainSeed = Some bchain ->
    exists sref h1 env1 session s h2,
      Mem.initializeSession rootSeed chainSeed sharedSecret remoteIdentityKey isInitiator
        (h, env) = (Ok sref, (h1, env1)) /\
      initializeSession bsecret bidentity isInitiator env = (Ok session, env1) /\
      sessionAt h1 sref = Some session /\
      h1 !! sref = Some (Mem.Session s) /\
      Mem.SessionState.remoteIdentityKey s = remoteIdentityKey /\
      Mem.SessionState.sendingChainKey s
        = (if isInitiator then Some (Mem.SessionState.chainKey s) else None) /\
      Mem.cleanupSession sref h1 = (Ok tt, h2) /\
      bufferAt h2 remoteIdentityKey = Some (zeroBytes bidentity).
Proof.
  intros rootSeed chainSeed h sharedSecret remoteIdentityKey isInitiator env
    bsecret bidentity broot bchain Hss Hrik Hroot Hchain.
  unfold Mem.initializeSession.
  rewrite (bind_run' _ _ _ (length h) (h ++ [Mem.Buffer (replicate 32 x00)], env))
    by reflexivity.
  set (h0 := h ++ [Mem.Buffer (replicate 32 x00)]).
  destruct (hkdf_run h0 sharedSecret (length h) rootSeed 32 bsecret (replicate 32 x00) broot)
    as (rk & k1 & Hrun1 & Hrk & _);
    [now apply bufferAt_app | apply bufferAt_last | now apply bufferAt_app |].
  rewrite (bind_run' _ _ _ _ _ (onHeap_run _ _ env _ _ Hrun1)).
  destruct (hkdf_run (h0 ++ k1) sharedSecret (length h) chainSeed 32 bsecret
              (replicate 32 x00) bchain)
    as (ck & k2 & Hrun2 & Hck & _);
    [now do 2 apply bufferAt_app | apply bufferAt_app, bufferAt_last
     | now do 2 apply bufferAt_app |].
  rewrite (bind_run' _ _ _ _ _ (onHeap_run _ _ env _ _ Hrun2)).
  set (h1 := (h0 ++ k1) ++ k2) in *.
  rewrite (bind_run' _ _ _ (clock env) (h1, env)) by reflexivity.
  rewrite (bind_run' _ _ _ (mathRandom env 0)
             (h1, mkEnv (entropy env) (clock env) (fun i => mathRandom env (S i))))
    by reflexivity.
  cbv zeta.
  set (s := {| Mem.SessionState.sessionId := _ |}).
  assert (bufferAt (h1 ++ [Mem.Session s]) remoteIdentityKey = Some bidentity) as Hrik1
    by (subst h1 h0; now do 4 apply bufferAt_app).
  assert (bufferAt (h1 ++ [Mem.Session s]) rk = Some (replicate 32 x00)) as Hrk1
    by (now do 2 apply bufferAt_app).
  assert (bufferAt (h1 ++ [Mem.Session s]) ck = Some (replicate 32 x00)) as Hck1
    by (now apply bufferAt_app).
  assert ((h1 ++ [Mem.Session s]) !! length h1 = Some (Mem.Session s)) as Hs
    by (now apply list_lookup_middle).
  destruct (cleanupSession_zeroed (h1 ++ [Mem.Session s]) (length h1) s Hs)
    as (h2 & Hclean & Hz).
  { unfold keyBuffers, s.
    cbn [Mem.SessionState.rootKey Mem.SessionState.chainKey
         Mem.SessionState.remoteIdentityKey Mem.SessionState.sendingChainKey
         Mem.SessionState.receivingChainKey].
    destruct isInitiator; cbn [option_list app]; repeat constructor; eauto. }
  destruct (keyBuffers_fields s) as (_ & _ & Krik & _).
  exists (length h1), (h1 ++ [Mem.Session s]),
    (mkEnv (entropy env) (clock env) (fun i => mathRandom env (S i))).
  eexists. exists s, h2.
  split; [reflexivity|]. split.
  { unfold initializeSession. cbv zeta. rewrite !hkdf_zero. reflexivity. }
  split.
  { unfold sessionAt. rewrite Hs.
    cbn [Mem.SessionState.rootKey Mem.SessionState.chainKey
         Mem.SessionState.remoteIdentityKey Mem.SessionState.sendingChainKey
         Mem.SessionState.receivingChainKey Mem.SessionState.sessionId
         Mem.SessionState.messageNumber Mem.SessionState.previousCounter s].
    rewrite Hrik1, Hrk1, Hck1.
    destruct isInitiator; cbn [optionalBufferAt]; rewrite ?Hck1; reflexivity. }
  split; [exact Hs|]. split; [reflexivity|]. split; [reflexivity|].
  split; [exact Hclean|].
  exact (zeroed_at _ _ _ _ _ Hz Krik Hrik1).
Qed.

End InitFacts.

(** ** Receiving, receipts and subscriptions *)

Section MessagingReceiveFacts.
Context `{CryptoJS} `{NobleCurves} `{TextCodec} `{KeyStorage}.




Lemma sameStore_refl w : sameStore w w.
Proof. repeat split. Qed.

Lemma sameStore_trans w w1 w2 : sameStore w w1 -> sameStore w1 w2 -> sameStore w w2.
Proof. unfold sameStore. intuition congruence. Qed.

Lemma quiet_ret {A} (a : A) : quiet (mret a).
Proof. intros w r w1 [= _ <-]. apply sameStore_refl. Qed.

Lemma quiet_throw {A} e : quiet (throw (A:=A) e).
Proof. intros w r w1 [= _ <-]. apply sameStore_refl. Qed.

Lemma quiet_liftR {A} (r : Result A) : quiet (liftR r).
Proof. intros w r' w1 [= _ <-]. apply sameStore_refl. Qed.

Lemma quiet_readKeychain {A} (f : Keychain -> A) : quiet (readKeychain f).
Proof. intros w r w1 [= _ <-]. apply sameStore_refl. Qed.

Lemma quiet_liftEnv {A} (m : SE Env A) : quiet (liftEnv m).
Proof.
  intros w r w1. unfold liftEnv. destruct (m (env w)) as [r' e1].
  intros [= _ <-]. repeat split.
Qed.

Lemma quiet_bind {A B} (m : SE World A) (k : A -> SE World B) :
  quiet m -> (forall a, quiet (k a)) -> quiet (m ≫= k).
Proof.
  intros Hm Hk w r w1. unfold mbind, SE_bind.
  destruct (m w) as [[a|e] w0] eqn:Hrun.
  - intros Hrun'. eapply sameStore_trans; [eapply Hm | eapply Hk]; eassumption.
  - intros [= _ <-]. eapply Hm; eassumption.
Qed.

Lemma failsQuietly_bind {A B} (m : SE World A) (k : A -> SE World B) :
  quiet m -> (forall a, failsQuietly (k a)) -> failsQuietly (m ≫= k).
Proof.
  intros Hm Hk w e w1. unfold mbind, SE_bind.
  destruct (m w) as [[a|e'] w0] eqn:Hrun.
  - intros Hrun'. eapply sameStore_trans; [eapply Hm | eapply Hk]; eassumption.
  - intros [= _ <-]. eapply Hm; eassumption.
Qed.

Lemma quiet_establishSessionAsResponder data : quiet (establishSessionAsResponder data).
Proof.
  unfold establishSessionAsResponder.
  apply quiet_bind; [apply quiet_readKeychain | intros identityKeyPair].
  apply quiet_bind; [apply quiet_readKeychain | intros signedPreKey].
  destruct identityKeyPair, signedPreKey; try apply quiet_throw.
  apply quiet_bind; [apply quiet_liftR | intros remoteIdentityKey].
  apply quiet_bind; [apply quiet_liftR | intros remoteEphemeralKey].
  apply quiet_bind; [apply quiet_liftR | intros secret].
  apply quiet_liftEnv.
Qed.

(** X18. When [decryptIncomingMessage] raises, no session has been stored
    and nothing was posted: the device differs from before at most in the
    random values it has drawn. *)
Theorem decryptIncomingMessage_failure_stores_nothing :
  forall (w w' : World) data e,
    decryptIncomingMessage data w = (Throw e, w') ->
    keychain w' = keychain w /\ posted w' = posted w /\
    keyDirectory w' = keyDirectory w /\ relay w' = relay w.
Proof.
  intros w w' data e. revert w e w'. change (failsQuietly (decryptIncomingMessage data)).
  unfold decryptIncomingMessage. cbv zeta.
  apply failsQuietly_bind; [apply quiet_readKeychain | intros stored].
  apply failsQuietly_bind.
  { destruct stored; [apply quiet_ret | apply quiet_establishSessionAsResponder]. }
  intros session.
  apply failsQuietly_bind; [apply quiet_liftR | intros [plaintext newSession]].
  intros w e w1 [=].
Qed.

(** X19. The first message from a peer, for whom no session is stored,
    cannot be decrypted unless it carries the sender's identity key and
    ephemeral key: without either field [decryptIncomingMessage] raises
    and leaves the device as it was. *)
Theorem first_contact_needs_ephemeral_key :
  forall (w : World) data,
    getSession (Incoming.fromUserId data) (keychain w) = None ->
    Incoming.remoteIdentityKey data = None \/ Incoming.ephemeralKey data = None ->
    exists e, decryptIncomingMessage data w = (Throw e, w).
Proof.
  intros w data Hnone Hmissing. unfold decryptIncomingMessage. cbv zeta.
  unfold readKeychain at 1. unfold mbind at 1, SE_bind at 1. rewrite Hnone.
  unfold mbind at 1, SE_bind at 1.
  unfold establishSessionAsResponder, readKeychain, mbind, SE_bind.
  destruct (getIdentityKeyPair (keychain w)), (getSignedPreKey (keychain w));
    try (eexists; reflexivity).
  unfold liftR.
  destruct Hmissing as [-> | ->]; cbn [base64Field]; [eexists; reflexivity|].
  destruct (base64Field (Incoming.remoteIdentityKey data)); eexists; reflexivity.
Qed.









Lemma indexOf_None callback listeners :
  callback ∉ listeners -> indexOf callback listeners = None.
Proof.
  induction listeners as [|l rest IH]; [reflexivity|].
  intros [Hne Hrest]%not_elem_of_cons. cbn [indexOf].
  destruct (Nat.eqb_spec l callback); [congruence|]. now rewrite IH.
Qed.

Lemma indexOf_first callback before after :
  callback ∉ before ->
  indexOf callback (before ++ callback :: after) = Some (length before).
Proof.
  induction before as [|l rest IH]; cbn [indexOf app length].
  - now rewrite Nat.eqb_refl.
  - intros [Hne Hrest]%not_elem_of_cons.
    destruct (Nat.eqb_spec l callback); [congruence|]. now rewrite IH.
Qed.

(** X22. The function [onMessage] returns removes the earliest registration
    of the callback and nothing else; with no registration left it does
    nothing.  So subscribing a callback that was not subscribed and then
    unsubscribing restores the list of listeners. *)
Theorem unsubscribe_removes_first_registration :
  forall callback (c : Client),
    (forall before after,
       messageListeners c = before ++ callback :: after -> callback ∉ before ->
       messageListeners (unsubscribeMessage callback c).2 = before ++ after) /\
    (callback ∉ messageListeners c -> unsubscribeMessage callback c = (Ok tt, c)) /\
    (callback ∉ messageListeners c ->
     exists unsubscribe c1 c2,
       onMessage callback c = (Ok unsubscribe, c1) /\
       messageListeners c1 = messageListeners c ++ [callback] /\
       unsubscribe c1 = (Ok tt, c2) /\
       messageListeners c2 = messageListeners c).
Proof.
  intros callback c. split; [|split].
  - intros before after Hlist Hfirst. unfold unsubscribeMessage.
    rewrite Hlist, (indexOf_first _ _ _ Hfirst). cbn [snd setMessageListeners messageListeners].
    rewrite delete_middle. reflexivity.
  - intros Habsent. unfold unsubscribeMessage. now rewrite (indexOf_None _ _ Habsent).
  - intros Habsent. do 3 eexists. split; [reflexivity|]. split; [reflexivity|].
    unfold unsubscribeMessage. cbn [messageListeners].
    rewrite (indexOf_first _ _ [] Habsent). cbn [setMessageListeners messageListeners].
    split; [reflexivity|]. cbn [messageListeners].
    rewrite <- (app_nil_r (messageListeners c)) at 3.
    rewrite (delete_middle (messageListeners c) [] callback). reflexivity.
Qed.

End MessagingReceiveFacts.

(** ** The reference instance meets the contracts *)

Module ReferenceLaws.

#[local] Existing Instance Reference.cryptoJS.
#[local] Existing Instance Reference.nobleCurves.

Lemma pack_words n : forall b,
  length b <= n ->
  map (fun w => w mod 2 ^ 32)%Z (Reference.pack b) = bigEndianWords b.
Proof.
  induction n as [n IH] using lt_wf_ind. intros b Hn.
  destruct b as [|b0 [|b1 [|b2 [|b3 rest]]]].
  - reflexivity.
  - cbn [Reference.pack bigEndianWords map app take rev Reference.num fold_right].
    fold (byteZ b0). change (Z.of_N (Byte.to_N x00)) with 0%Z.
    pose proof (byteZ_lt b0). f_equal. rewrite Z.mod_small; lia.
  - cbn [Reference.pack bigEndianWords map app take rev Reference.num fold_right].
    fold (byteZ b0) (byteZ b1). change (Z.of_N (Byte.to_N x00)) with 0%Z.
    pose proof (byteZ_lt b0). pose proof (byteZ_lt b1). f_equal. rewrite Z.mod_small; lia.
  - cbn [Reference.pack bigEndianWords map app take rev Reference.num fold_right].
    fold (byteZ b0) (byteZ b1) (byteZ b2). change (Z.of_N (Byte.to_N x00)) with 0%Z.
    pose proof (byteZ_lt b0). pose proof (byteZ_lt b1). pose proof (byteZ_lt b2).
    f_equal. rewrite Z.mod_small; lia.
  - cbn [Reference.pack bigEndianWords map Reference.num fold_right].
    fold (byteZ b0) (byteZ b1) (byteZ b2) (byteZ b3).
    pose proof (byteZ_lt b0). pose proof (byteZ_lt b1).
    pose proof (byteZ_lt b2). pose proof (byteZ_lt b3).
    cbn [length] in Hn. rewrite (IH (n - 4)) by lia. f_equal. rewrite Z.mod_small; lia.
Qed.

Lemma bytes_of_pack b :
  take (length b) (flat_map wordBytes (Reference.pack b)) = b.
Proof.
  rewrite <- (take_bytes_of_bigEndianWords (length b) b) at 3 by lia.
  f_equal. rewrite <- (pack_words (length b) b) by lia.
  induction (Reference.pack b) as [|w ws IH]; [reflexivity|].
  cbn [map flat_map]. now rewrite wordBytes_mod, IH.
Qed.


Lemma base64Codec : Base64Codec.
Proof.
  split.
  - reflexivity.
  - intros b. now apply (pack_words (length b)).
  - intros b. cbn [Base64_parse Base64_stringify WordArray_create Reference.cryptoJS].
    cbn [Reference.create words sigBytes].
    now rewrite bytes_of_pack, list_byte_of_string_of_list_byte.
Qed.

Lemma enc_length n : forall z, length (Reference.enc n z) = n.
Proof. induction n as [|n IH]; intros z; cbn [Reference.enc length]; [reflexivity | now rewrite IH]. Qed.

Lemma toUint8_to_N (n : nat) : (n < 256)%nat -> Byte.to_N (toUint8 n) = N.of_nat n.
Proof.
  intros Hn. unfold toUint8. rewrite Nat.mod_small by exact Hn.
  destruct (Byte.of_N (N.of_nat n)) as [b|] eqn:Hb.
  - now apply Byte.to_of_N in Hb.
  - apply Byte.of_N_None_iff in Hb. lia.
Qed.

Lemma num_enc n : forall z, (0 <= z)%Z -> Reference.num (Reference.enc n z) = (z mod 256 ^ Z.of_nat n)%Z.
Proof.
  induction n as [|n IH]; intros z Hz.
  - cbn. now rewrite Z.mod_1_r.
  - cbn [Reference.enc Reference.num fold_right]. fold (Reference.num (Reference.enc n (z / 256))).
    rewrite IH by (apply Z.div_pos; lia).
    rewrite toUint8_to_N by (pose proof (Z.mod_pos_bound z 256); lia).
    rewrite nat_N_Z, Z2Nat.id by (pose proof (Z.mod_pos_bound z 256); lia).
    rewrite Nat2Z.inj_succ, Z.pow_succ_r by lia.
    rewrite (Z.mul_comm 256), Z.rem_mul_r by lia. lia.
Qed.

Lemma num_nonneg b : (0 <= Reference.num b)%Z.
Proof. induction b as [|x b IH]; cbn [Reference.num fold_right]; [lia|]. fold (Reference.num b). lia. Qed.

Lemma fermat_G : (Reference.G ^ (Reference.P - 1) mod Reference.P = 1)%Z.
Proof.
  rewrite <- Zpow_mod_correct by (vm_compute; discriminate). vm_compute. reflexivity.
Qed.

Lemma power_G_mod k :
  (0 <= k)%Z ->
  (Reference.G ^ (k mod (Reference.P - 1)) mod Reference.P = Reference.G ^ k mod Reference.P)%Z.
Proof.
  intros Hk.
  assert (0 < Reference.P - 1)%Z as Hpos by (vm_compute; reflexivity).
  assert (0 < Reference.P)%Z as HP by (vm_compute; reflexivity).
  rewrite (Z.div_mod k (Reference.P - 1)) at 2 by lia.
  pose proof (Z.mod_pos_bound k (Reference.P - 1) Hpos).
  pose proof (Z.div_pos k (Reference.P - 1) Hk Hpos).
  rewrite Z.pow_add_r by (try apply Z.mul_nonneg_nonneg; lia).
  rewrite Z.pow_mul_r by lia.
  rewrite Z.mul_mod, (Zpower_mod (_ ^ (Reference.P - 1))), fermat_G by lia.
  rewrite Z.pow_1_l, (Z.mod_small 1), Z.mul_1_l, Z.mod_mod by lia. reflexivity.
Qed.


Lemma ed25519Contract : Ed25519Contract.
Proof.
  split. intros priv pub msg sig Hpub Hsig.
  cbn [ed25519_getPublicKey ed25519_sign ed25519_verify Reference.nobleCurves] in *.
  unfold Reference.publicOf in Hpub. unfold Reference.sign in Hsig. unfold Reference.verify.
  destruct (length priv =? 32)%nat; [|discriminate].
  assert (pub = Reference.enc 32 (Reference.power Reference.G priv)) as -> by congruence.
  assert (sig = Reference.enc 64
            ((Reference.num msg * Reference.num priv) mod (Reference.P - 1))) as ->
    by congruence.
  clear Hpub Hsig. rewrite !enc_length. cbn [Nat.eqb andb]. f_equal. apply Z.eqb_eq.
  assert (0 < Reference.P - 1)%Z as Hpos by (vm_compute; reflexivity).
  assert (0 < Reference.P)%Z as HP by (vm_compute; reflexivity).
  pose proof (num_nonneg msg). pose proof (num_nonneg priv).
  unfold Reference.power. rewrite !Zpow_mod_correct by lia.
  rewrite !num_enc.
  2:{ apply Z.mod_pos_bound; lia. }
  2:{ apply Z.mod_pos_bound; lia. }
  rewrite (Z.mod_small (_ mod Reference.P)).
  2:{ pose proof (Z.mod_pos_bound (Reference.G ^ Reference.num priv) Reference.P HP).
      assert (Reference.P < 256 ^ Z.of_nat 32)%Z by (vm_compute; reflexivity). lia. }
  rewrite (Z.mod_small (_ mod (Reference.P - 1))).
  2:{ pose proof (Z.mod_pos_bound (Reference.num msg * Reference.num priv) (Reference.P - 1) Hpos).
      assert (Reference.P - 1 < 256 ^ Z.of_nat 64)%Z by (vm_compute; reflexivity). lia. }
  rewrite Z.mod_mod by lia.
  rewrite power_G_mod by lia.
  rewrite <- Zpower_mod by lia.
  rewrite <- Z.pow_mul_r by lia. now rewrite Z.mul_comm.
Qed.

End ReferenceLaws.

(** ** The properties on the scenario *)

Section Witnesses.
#[local] Existing Instance Reference.cryptoJS.
#[local] Existing Instance Reference.textCodec.
#[local] Existing Instance Reference.nobleCurves.
#[local] Existing Instance Reference.keyStorage.

Lemma x3dh_agreement_scenario :
  x3dhInitiator initiatorIdentity responderBundle (env0 5)
    = (Ok initiatorOutput, (x3dhInitiator initiatorIdentity responderBundle (env0 5)).2) /\
  responderAgreementsDefined responderIdentity responderSignedPreKey
    (head responderPreKeys) (KeyPair.publicKey initiatorIdentity)
    (ephemeralKey initiatorOutput) = true /\
  x3dhResponder responderIdentity responderSignedPreKey (head responderPreKeys)
    (KeyPair.publicKey initiatorIdentity) (ephemeralKey initiatorOutput)
    = Ok (sharedSecret initiatorOutput) /\
  length (sharedSecret initiatorOutput) = 32.
Proof.
  assert (x3dhInitiator initiatorIdentity responderBundle (env0 5)
          = (Ok initiatorOutput,
             (x3dhInitiator initiatorIdentity responderBundle (env0 5)).2)) as Hrun.
  { rewrite (surjective_pairing (x3dhInitiator _ _ _)) at 1.
    apply (f_equal2 pair); [vm_compute; reflexivity | reflexivity]. }
  assert (responderAgreementsDefined responderIdentity responderSignedPreKey
            (head responderPreKeys) (KeyPair.publicKey initiatorIdentity)
            (ephemeralKey initiatorOutput) = true) as Hdef
    by (vm_compute; reflexivity).
  split; [exact Hrun|]. split; [exact Hdef|].
  exact (x3dh_agreement _ _ _ _ _ _ _ _ Hrun Hdef).
Defined.

Lemma x3dhInitiator_accepts_unverified_bundle :
  verifySignedPreKey (PreKeyBundle.signedPreKey forgedBundle)
    (PreKeyBundle.signedPreKeySignature forgedBundle)
    (PreKeyBundle.identityKey forgedBundle) = false /\
  sharedSecret <$> (x3dhInitiator initiatorIdentity forgedBundle (env0 5)).1
    = Ok (replicate 32 x00).
Proof. split; vm_compute; reflexivity. Qed.


Lemma sequential_chain_keys_scenario :
  ratchetEncrypt session0 "Hello" = Ok sent1 /\
  ratchetEncrypt sent1.2 "Hello" = Ok sent2 /\
  SessionState.sendingChainKey sent1.2 = Some (replicate 32 x00) /\
  SessionState.sendingChainKey sent2.2 = SessionState.sendingChainKey sent1.2.
Proof.
  assert (ratchetEncrypt session0 "Hello" = Ok (sent1.1, sent1.2)) as H1
    by (vm_compute; reflexivity).
  assert (ratchetEncrypt sent1.2 "Hello" = Ok (sent2.1, sent2.2)) as H2
    by (vm_compute; reflexivity).
  split; [exact H1|]. split; [exact H2|].
  exact (sequential_chain_keys_coincide _ _ _ _ _ _ _ H1 H2).
Defined.

Lemma successive_encryptions_scenario :
  ratchetEncrypt session0 "Hello" = Ok sent1 /\
  ratchetEncrypt sent1.2 "Hello" = Ok sent2 /\
  exists ck ck1,
    SessionState.sendingChainKey session0 = Some ck /\
    SessionState.sendingChainKey sent1.2 = Some ck1 /\
    messageKey (ratchetChainKey ck1) = messageKey (ratchetChainKey ck) /\
    deriveMessageKeys (messageKey (ratchetChainKey ck1))
      = deriveMessageKeys (messageKey (ratchetChainKey ck)) /\
    EncryptedMessage.ciphertext sent2.1 = EncryptedMessage.ciphertext sent1.1 /\
    sent2.1 = sent1.1.
Proof.
  assert (ratchetEncrypt session0 "Hello" = Ok (sent1.1, sent1.2)) as H1
    by (vm_compute; reflexivity).
  assert (ratchetEncrypt sent1.2 "Hello" = Ok (sent2.1, sent2.2)) as H2
    by (vm_compute; reflexivity).
  split; [exact H1|]. split; [exact H2|].
  exact (successive_encryptions_reuse_message_key _ _ _ _ _ _ H1 H2).
Defined.

Lemma unverified_bundle_scenario :
  keyDirectory (device forgedBundle) "bob" = Some (encodeBundle forgedBundle) /\
  verifySignedPreKey
    (PreKeyBundle.signedPreKey (decodeBundle (encodeBundle forgedBundle)))
    (PreKeyBundle.signedPreKeySignature (decodeBundle (encodeBundle forgedBundle)))
    (PreKeyBundle.identityKey (decodeBundle (encodeBundle forgedBundle))) = false /\
  establishSession "bob" (device forgedBundle)
    = (Throw (Error "Invalid signed pre-key signature"), device forgedBundle) /\
  x3dhInitiator initiatorIdentity
    (withSignature (decodeBundle (encodeBundle forgedBundle))
       (PreKeyBundle.signedPreKeySignature responderBundle)) (env0 5)
  = x3dhInitiator initiatorIdentity (decodeBundle (encodeBundle forgedBundle)) (env0 5).
Proof.
  assert (keyDirectory (device forgedBundle) "bob" = Some (encodeBundle forgedBundle))
    as Hdir by reflexivity.
  assert (verifySignedPreKey
    (PreKeyBundle.signedPreKey (decodeBundle (encodeBundle forgedBundle)))
    (PreKeyBundle.signedPreKeySignature (decodeBundle (encodeBundle forgedBundle)))
    (PreKeyBundle.identityKey (decodeBundle (encodeBundle forgedBundle))) = false)
    as Hbad by (vm_compute; reflexivity).
  split; [exact Hdir|]. split; [exact Hbad|].
  exact (establishSession_rejects_unverified_bundle (device forgedBundle) "bob"
           (encodeBundle forgedBundle) initiatorIdentity
           (PreKeyBundle.signedPreKeySignature responderBundle) (env0 5) Hdir Hbad).
Defined.

Lemma first_message_scenario :
  getSession "bob" (keychain (device responderBundle)) = None /\
  sendMessage "bob" "Hello" text (device responderBundle)
    = (Ok firstMessage, (sendMessage "bob" "Hello" text (device responderBundle)).2) /\
  exists now,
    posted (sendMessage "bob" "Hello" text (device responderBundle)).2
    = posted (device responderBundle) ++
      [ {| Payload.toUserId := "bob";
           Payload.type := text;
           Payload.encryptedContent :=
             uint8ArrayToBase64
               (TextEncoder_encode
                  (aes256Encrypt "Hello" (replicate 32 x00) (replicate 16 x00)));
           Payload.messageType := EncryptedMessage.message;
           Payload.registrationId := 0;
           Payload.timestamp := now |} ].
Proof.
  assert (getSession "bob" (keychain (device responderBundle)) = None) as Hnone
    by reflexivity.
  assert (sendMessage "bob" "Hello" text (device responderBundle)
          = (Ok firstMessage,
             (sendMessage "bob" "Hello" text (device responderBundle)).2)) as Hrun.
  { rewrite (surjective_pairing (sendMessage _ _ _ _)) at 1.
    apply (f_equal2 pair); [vm_compute; reflexivity | reflexivity]. }
  split; [exact Hnone|]. split; [exact Hrun|].
  exact (first_message_carries_no_base_key _ _ _ _ _ _ Hnone Hrun).
Defined.

(** The bytes of "garbage" are not what the empty text encrypts to, and
    yet the envelope is accepted as the empty text and the session moves
    on. *)
Lemma garbled_ciphertext_is_accepted :
  String.eqb (aes256Encrypt "" (replicate 32 x00) (replicate 16 x00)) "garbage" = false /\
  exists newSession,
    ratchetDecrypt receiverSession garbledEnvelope = Ok ("", newSession) /\
    SessionState.messageNumber receiverSession = 0%Z /\
    SessionState.messageNumber newSession = 1%Z /\
    SessionState.previousCounter newSession = 0%Z.
Proof.
  split; [vm_compute; reflexivity|].
  exists (orDefault ("", session0) (ratchetDecrypt receiverSession garbledEnvelope)).2.
  repeat split; vm_compute; reflexivity.
Qed.

Lemma garbled_envelope_scenario :
  SessionState.receivingChainKey receiverSession = Some (replicate 32 x00) /\
  exists newSession,
    ratchetDecrypt receiverSession garbledEnvelope = Ok ("", newSession) /\
    SessionState.receivingChainKey newSession = Some (replicate 32 x00) /\
    SessionState.previousCounter newSession = SessionState.messageNumber receiverSession /\
    SessionState.messageNumber newSession
      = (SessionState.messageNumber receiverSession + 1)%Z.
Proof.
  assert (SessionState.receivingChainKey receiverSession = Some (replicate 32 x00)) as Hck
    by reflexivity.
  assert (AES_decrypt (TextDecoder_decode (EncryptedMessage.ciphertext garbledEnvelope))
            (WordArray_create (replicate 32 x00)) (WordArray_create (replicate 16 x00))
          = Some "") as Haes by (vm_compute; reflexivity).
  split; [exact Hck|].
  pose proof (ratchetDecrypt_has_no_integrity_check receiverSession garbledEnvelope _ Hck)
    as Hthm.
  rewrite Haes in Hthm. destruct Hthm as (newSession & Hrun & Hnew & Hprev & Hnum & _).
  exists newSession. split; [exact Hrun|]. split; [exact Hnew|]. split; [exact Hprev|].
  apply Hnum. split; [apply Z.leb_le | apply Z.ltb_lt]; vm_compute; reflexivity.
Defined.

Lemma decrypt_refines_scenario :
  bufferAt receiverHeap 0 = Some (list_byte_of_string "MessageKeys") /\
  sessionAt receiverHeap 3 = Some receiverSession /\
  envelopeAt receiverHeap delivered = Some sent1.1 /\
  match ratchetDecrypt receiverSession sent1.1 with
  | Ok (plaintext, newSession) =>
      exists sref' h',
        Mem.ratchetDecrypt 0 3 delivered receiverHeap = (Ok (plaintext, sref'), h') /\
        sessionAt h' sref' = Some newSession /\
        sessionAt h' 3 = Some receiverSession
  | Throw x => exists h', Mem.ratchetDecrypt 0 3 delivered receiverHeap = (Throw x, h')
  end.
Proof.
  assert (bufferAt receiverHeap 0 = Some (list_byte_of_string "MessageKeys")) as Hseed
    by reflexivity.
  assert (sessionAt receiverHeap 3 = Some receiverSession) as Hs
    by (vm_compute; reflexivity).
  assert (envelopeAt receiverHeap delivered = Some sent1.1) as He
    by (vm_compute; reflexivity).
  split; [exact Hseed|]. split; [exact Hs|]. split; [exact He|].
  exact (@ratchetDecrypt_refines Reference.cryptoJS Reference.textCodec
           0 receiverHeap 3 delivered receiverSession sent1.1
           (list_byte_of_string "MessageKeys") Hseed Hs He).
Defined.

Lemma encrypt_refines_scenario :
  bufferAt senderHeap 0 = Some (list_byte_of_string "MessageKeys") /\
  sessionAt senderHeap 2 = Some session0 /\
  match ratchetEncrypt session0 "Hello" with
  | Ok (encrypted, newSession) =>
      exists e sref' h',
        Mem.ratchetEncrypt 0 2 "Hello" senderHeap = (Ok (e, sref'), h') /\
        envelopeAt h' e = Some encrypted /\
        sessionAt h' sref' = Some newSession /\
        sessionAt h' 2 = Some session0
  | Throw x => exists h', Mem.ratchetEncrypt 0 2 "Hello" senderHeap = (Throw x, h')
  end.
Proof.
  assert (bufferAt senderHeap 0 = Some (list_byte_of_string "MessageKeys")) as Hseed
    by reflexivity.
  assert (sessionAt senderHeap 2 = Some session0) as Hs by (vm_compute; reflexivity).
  split; [exact Hseed|]. split; [exact Hs|].
  exact (@ratchetEncrypt_refines Reference.cryptoJS Reference.textCodec
           0 senderHeap 2 "Hello" session0 (list_byte_of_string "MessageKeys") Hseed Hs).
Defined.

Lemma writes_only_new_objects_scenario :
  receiverHeap !! 1 = Some (Mem.Buffer (replicate 32 x00)) /\
  (Mem.ratchetEncrypt 0 3 "Hello" receiverHeap).2 !! 1 = Some (Mem.Buffer (replicate 32 x00)) /\
  (Mem.ratchetDecrypt 0 3 delivered receiverHeap).2 !! 1
    = Some (Mem.Buffer (replicate 32 x00)).
Proof.
  assert (receiverHeap !! 1 = Some (Mem.Buffer (replicate 32 x00))) as Hr by reflexivity.
  split; [exact Hr|].
  exact (ratchet_writes_only_new_objects 0 3 "Hello" delivered receiverHeap 1 _ Hr).
Defined.

Lemma generatePreKeys_scenario :
  generatePreKeys 1 10 (env0 3)
    = (Ok responderPreKeys, (generatePreKeys 1 10 (env0 3)).2) /\
  map PreKey.keyId responderPreKeys = [1; 2; 3; 4; 5; 6; 7; 8; 9; 10]%Z /\
  length responderPreKeys = 10.
Proof.
  assert (generatePreKeys 1 10 (env0 3)
          = (Ok responderPreKeys, (generatePreKeys 1 10 (env0 3)).2)) as Hrun.
  { rewrite (surjective_pairing (generatePreKeys _ _ _)) at 1.
    apply (f_equal2 pair); [vm_compute; reflexivity | reflexivity]. }
  split; [exact Hrun|].
  assert (Z.abs 1 + Z.of_nat 10 <= 2 ^ 53)%Z as Hsafe
    by (apply Z.leb_le; vm_compute; reflexivity).
  exact (generatePreKeys_ids 1 10 (env0 3) responderPreKeys _ Hsafe Hrun).
Defined.

End Witnesses.

Section MoreWitnesses.
#[local] Existing Instance Reference.cryptoJS.
#[local] Existing Instance Reference.textCodec.
#[local] Existing Instance Reference.nobleCurves.
#[local] Existing Instance Reference.keyStorage.
#[local] Existing Instance ReferenceLaws.base64Codec.
#[local] Existing Instance ReferenceLaws.ed25519Contract.

Lemma base64_scenario :
  base64ToUint8Array (uint8ArrayToBase64 (list_byte_of_string "Hello"))
  = list_byte_of_string "Hello".
Proof. exact (base64_round_trip (list_byte_of_string "Hello")). Defined.



Lemma cleanupSession_scenario :
  sessionAt keyedHeap 5 = Some keyedSession /\
  SessionState.rootKey keyedSession = replicate 32 x01 /\
  exists h',
    Mem.cleanupSession 5 keyedHeap = (Ok tt, h') /\
    sessionAt h' 5 = Some (wipedSession keyedSession) /\
    length h' = 9.
Proof.
  assert (sessionAt keyedHeap 5 = Some keyedSession) as Hs by (vm_compute; reflexivity).
  split; [exact Hs|]. split; [reflexivity|].
  destruct (cleanupSession_wipes_keys keyedHeap 5 keyedSession Hs)
    as (h' & Hrun & Hwiped & Hlen & _).
  exists h'. split; [exact Hrun|]. split; [exact Hwiped | exact Hlen].
Defined.

Lemma shared_keys_scenario :
  bufferAt keyedHeap 0 = Some (list_byte_of_string "MessageKeys") /\
  sessionAt keyedHeap 5 = Some keyedSession /\
  Mem.ratchetEncrypt 0 5 "Hello" keyedHeap
    = (Ok keyedSent, (Mem.ratchetEncrypt 0 5 "Hello" keyedHeap).2) /\
  exists h2 after,
    Mem.cleanupSession keyedSent.2 (Mem.ratchetEncrypt 0 5 "Hello" keyedHeap).2
      = (Ok tt, h2) /\
    sessionAt h2 5 = Some after /\
    SessionState.rootKey after = replicate 32 x00 /\
    SessionState.chainKey after = replicate 32 x00 /\
    SessionState.remoteIdentityKey after = replicate 32 x00.
Proof.
  assert (bufferAt keyedHeap 0 = Some (list_byte_of_string "MessageKeys")) as Hseed
    by reflexivity.
  assert (sessionAt keyedHeap 5 = Some keyedSession) as Hs by (vm_compute; reflexivity).
  assert (Mem.ratchetEncrypt 0 5 "Hello" keyedHeap
          = (Ok keyedSent, (Mem.ratchetEncrypt 0 5 "Hello" keyedHeap).2)) as Hrun.
  { rewrite (surjective_pairing (Mem.ratchetEncrypt _ _ _ _)) at 1.
    apply (f_equal2 pair); [vm_compute; reflexivity | reflexivity]. }
  split; [exact Hseed|]. split; [exact Hs|]. split; [exact Hrun|].
  destruct (cleanupSession_reaches_shared_keys 0 keyedHeap 5 "Hello" keyedSession _
              keyedSent.1 keyedSent.2 _ Hseed Hs Hrun)
    as (h2 & after & Hclean & Hafter & Hrk & Hck & Hrik & _).
  exists h2, after. split; [exact Hclean|]. split; [exact Hafter|].
  split; [exact Hrk|]. split; [exact Hck | exact Hrik].
Defined.

Lemma initializeSession_scenario :
  bufferAt keyedHeap 8 = Some (replicate 32 x05) /\
  bufferAt keyedHeap 4 = Some (replicate 32 x04) /\
  exists sref h1 env1 session s h2,
    Mem.initializeSession 6 7 8 4 true (keyedHeap, env0 6) = (Ok sref, (h1, env1)) /\
    initializeSession (replicate 32 x05) (replicate 32 x04) true (env0 6)
      = (Ok session, env1) /\
    sessionAt h1 sref = Some session /\
    h1 !! sref = Some (Mem.Session s) /\
    Mem.SessionState.remoteIdentityKey s = 4 /\
    Mem.SessionState.sendingChainKey s = Some (Mem.SessionState.chainKey s) /\
    Mem.cleanupSession sref h1 = (Ok tt, h2) /\
    bufferAt h2 4 = Some (replicate 32 x00).
Proof.
  split; [reflexivity|]. split; [reflexivity|].
  exact (initializeSession_keeps_callers_buffer 6 7 keyedHeap 8 4 true (env0 6)
           (replicate 32 x05) (replicate 32 x04) (list_byte_of_string "RootKey")
           (list_byte_of_string "ChainKey") eq_refl eq_refl eq_refl eq_refl).
Defined.


Lemma failed_decrypt_scenario :
  decryptIncomingMessage relayed (recipientDevice [])
    = (Throw (LibraryError "CryptoJS.enc.Base64.parse"), recipientDevice []) /\
  keychain (recipientDevice []) = keychain (recipientDevice []) /\
  posted (recipientDevice []) = [] /\
  keyDirectory (recipientDevice []) = keyDirectory (recipientDevice []) /\
  relay (recipientDevice []) = relay (recipientDevice []).
Proof.
  assert (decryptIncomingMessage relayed (recipientDevice [])
          = (Throw (LibraryError "CryptoJS.enc.Base64.parse"), recipientDevice []))
    as Hrun by (vm_compute; reflexivity).
  split; [exact Hrun|].
  exact (decryptIncomingMessage_failure_stores_nothing _ _ _ _ Hrun).
Defined.

Lemma first_contact_scenario :
  getSession "alice" (keychain (recipientDevice [])) = None /\
  Incoming.ephemeralKey relayed = None /\
  exists e, decryptIncomingMessage relayed (recipientDevice []) = (Throw e, recipientDevice []).
Proof.
  split; [reflexivity|]. split; [reflexivity|].
  exact (first_contact_needs_ephemeral_key (recipientDevice []) relayed eq_refl
           (or_intror eq_refl)).
Defined.


End MoreWitnesses.
